(** * LibTool marker-stream decoding: a shallow embedding and its properties

    This development embeds the decoding core of [LibTool.h] (the header-only
    library shared by the AqMD3 IVI-C examples): [CeilDiv], [AlignUp],
    [ArraySegment], the marker value types and the [MarkerStreamDecoder]
    state machine, together with the decode loop of the zero-suppress
    streaming example, and proves the properties the specification states
    about them.

    Conventions of the embedding.
    - Fixed-width integers are values of [Z].  Conversions between integer
      types are modular and written out ([Int.to_uint32], [Int.to_int64],
      ...).  Unsigned arithmetic ([size_t]) wraps.  Signed arithmetic that
      leaves the range of its type has no defined result in C++: the
      checked operations of [Int] return [Undefined] there.
    - [std::vector::operator[]] outside the vector has no defined result
      either: it is [Undefined].
    - A C++ function that may throw, and that mutates objects it received
      by reference, is a function from the state before to an outcome and
      the state after.  The state after a [Throw] is the state at the
      moment of the throw: what was mutated before stays mutated.
    - The two unbounded loops ([for (;;)] over the dummy markers, [while]
      over the fetched elements) take fuel; with the size of the stream as
      fuel they never run out of it ([walkthrough_total],
      [decode_fetched_total]).
    - [double] appears once in the decoding core, as
      [-(double(low & 0xff) / 256.0)].  Every such value is k/256 with
      0 <= k < 256, which binary floating point represents and computes
      exactly, so the field is kept as the rational number it denotes
      (the sign of zero is not represented).

    - Outside the decoding core the header has [ExpandSign] and
      [ScaleSigned], the sample counts and indices of the markers, and the
      sums over gates and records ([std::accumulate]); the peak-list
      example has its own marker printers.  Their throw sites are those of
      [raised], their results those of [ending].  [ScaleSigned] multiplies
      an integer below 2^31 in magnitude by 1 / 2^f with f < 31, which
      [double] does exactly: the result is kept as a rational number.
      What the printers write to [std::cout] is kept as a list with one
      entry per marker, holding the numbers printed.

    Layout: the embedding, module by module as in the header; the notions
    the statements use; sample streams; then the properties, each group of
    lemmas followed by the claims (C1 to C10) it settles; then further
    properties of the same code and of the functions around it (X1 to
    X21). *)

From Stdlib Require Import ZArith List Lia Bool QArith.
Import ListNotations.
Local Open Scope Z_scope.

(** ** Outcomes of a call *)

(** The throw sites of [LibTool.h], with the values their messages print. *)
Inductive what : Type :=
| DividerMustBePositive (divider : Z)
| IntegerOverflowInCeilDiv
| AlignedUpValueExceedsLimit
| SegmentExceedsArray (offset count array_size : Z)
| CannotPopElements (nbrElements size : Z)
| ExpectedTriggerMarker (tag : Z)
| ExpectedGateStartTag (tag : Z)
| ExpectedStopTag (tag : Z)
| BlockIndexNotPositive (blockIndex element0 element1 : Z)
| GateStartExceedsStop (startBlock stopBlock : Z)
| RecordStopBelowGateStop (recordStopBlock gateStopBlock : Z)
| ExpectedRecordStopMarker
| PopFromEmptyQueue
| TakeCountNotPositive (count : Z)
| TakeCountExceedsAvailable (count available : Z)
| ExpectedDummyGateMarker (tag : Z)
| EmptyStream
| ExpectedGateMarker (tag : Z).

(** The exception classes thrown. *)
Inductive exn : Type :=
| invalid_argument (w : what)
| overflow_error (w : what)
| logic_error (w : what)
| runtime_error (w : what).

Inductive outcome (A : Type) : Type :=
| Ok (a : A)
| Throw (e : exn)
| Undefined
| OutOfFuel.
Arguments Ok {A} a.
Arguments Throw {A} e.
Arguments Undefined {A}.
Arguments OutOfFuel {A}.

(** ** State and exceptions *)

Definition M (St A : Type) : Type := St -> outcome A * St.

Definition ret {St A : Type} (a : A) : M St A := fun s => (Ok a, s).

Definition throw {St A : Type} (e : exn) : M St A := fun s => (Throw e, s).

Definition bind {St A B : Type} (m : M St A) (k : A -> M St B) : M St B :=
  fun s =>
    match m s with
    | (Ok a, s') => k a s'
    | (Throw e, s') => (Throw e, s')
    | (Undefined, s') => (Undefined, s')
    | (OutOfFuel, s') => (OutOfFuel, s')
    end.

(** The same sequencing for calls that touch no state. *)
Definition obind {A B : Type} (o : outcome A) (k : A -> outcome B) : outcome B :=
  match o with
  | Ok a => k a
  | Throw e => Throw e
  | Undefined => Undefined
  | OutOfFuel => OutOfFuel
  end.

(** A call that touches no state, inside one that does. *)
Definition pure_call {St A : Type} (o : outcome A) : M St A := fun s => (o, s).

Definition gets {St A : Type} (f : St -> A) : M St A := fun s => (Ok (f s), s).

Definition modify {St : Type} (f : St -> St) : M St unit := fun s => (Ok tt, f s).

Declare Scope cpp_scope.
Delimit Scope cpp_scope with cpp.
Notation "x <- m ;; k" := (bind m (fun x => k))
  (at level 61, m at next level, right associativity) : cpp_scope.
Notation "m ;; k" := (bind m (fun _ => k))
  (at level 61, right associativity) : cpp_scope.
Notation "x <~ o ;; k" := (obind o (fun x => k))
  (at level 61, o at next level, right associativity) : cpp_scope.
Local Open Scope cpp_scope.

(** ** Fixed-width integers *)

Module Int.
Definition to_uint32 (x : Z) : Z := x mod 2 ^ 32.
Definition to_uint64 (x : Z) : Z := x mod 2 ^ 64.
Definition to_size_t (x : Z) : Z := to_uint64 x.
Definition to_int32 (x : Z) : Z := (x + 2 ^ 31) mod 2 ^ 32 - 2 ^ 31.
Definition to_int64 (x : Z) : Z := (x + 2 ^ 63) mod 2 ^ 64 - 2 ^ 63.

Definition int32_min : Z := - 2 ^ 31.
Definition int32_max : Z := 2 ^ 31 - 1.
Definition int64_min : Z := - 2 ^ 63.
Definition int64_max : Z := 2 ^ 63 - 1.

Definition in_int32 (x : Z) : bool := (int32_min <=? x) && (x <=? int32_max).
Definition in_int64 (x : Z) : bool := (int64_min <=? x) && (x <=? int64_max).

(** The values of [size_t]. *)
Definition is_size_t (x : Z) : Prop := 0 <= x < 2 ^ 64.
(** The values of [int] and [int32_t]. *)
Definition is_int32 (x : Z) : Prop := - 2 ^ 31 <= x < 2 ^ 31.

(** Signed results: defined only inside the type. *)
Definition int32 (x : Z) : outcome Z := if in_int32 x then Ok x else Undefined.
Definition int64 (x : Z) : outcome Z := if in_int64 x then Ok x else Undefined.

Definition add32 (a b : Z) : outcome Z := int32 (a + b).
Definition add64 (a b : Z) : outcome Z := int64 (a + b).
Definition sub64 (a b : Z) : outcome Z := int64 (a - b).
Definition mul64 (a b : Z) : outcome Z := int64 (a * b).
(** [/] on integers truncates toward zero; the divisor is not zero
    wherever it is used. *)
Definition div64 (a b : Z) : outcome Z := int64 (Z.quot a b).
End Int.

(** ** CeilDiv and AlignUp, at [T = int64_t] (the one instance used) *)

Definition CeilDiv (value divider : Z) : outcome Z :=
  if divider <=? 0 then Throw (invalid_argument (DividerMustBePositive divider))
  else
    overflow <~ (if 0 <? value
                 then d <~ Int.sub64 Int.int64_max divider ;;
                      limit <~ Int.add64 d 1 ;;
                      Ok (limit <? value)
                 else Ok false) ;;
    if overflow
    then Throw (overflow_error IntegerOverflowInCeilDiv)
    else
      extra <~ (if 0 <? value then Int.sub64 divider 1 else Ok 0) ;;
      num <~ Int.add64 value extra ;;
      Int.div64 num divider.

Definition AlignUp (value grain : Z) : outcome Z :=
  g1 <~ Int.sub64 grain 1 ;;
  limit <~ Int.sub64 Int.int64_max g1 ;;
  if limit <? value
  then Throw (logic_error AlignedUpValueExceedsLimit)
  else
    q <~ CeilDiv value grain ;;
    Int.mul64 q grain.

(** ** Outside the decoding core

    [ExpandSign] and the functions of the peak-list example throw at sites
    of their own.  Their calls end in an [ending]: a returned value, an
    exception (one of the decoding core, or one of these sites), no defined
    result, or no fuel left. *)

Inductive raised : Type :=
| by_LibTool (e : exn)
| InvalidNumberOfBits (nbrBits : Z)        (* std::invalid_argument, ExpandSign *)
| ExpectedTriggerMarkerTag (tag : Z)       (* std::runtime_error, PrintTriggerMarker *)
| ExpectedPulseMarkerTag (tag : Z)         (* std::runtime_error, PrintPulseMarker *)
| UnexpectedTag (tag : Z).                 (* std::runtime_error, PrintMarkers *)

Inductive ending (A : Type) : Type :=
| Returns (a : A)
| Raises (r : raised)
| NoResult
| NoFuel.
Arguments Returns {A} a.
Arguments Raises {A} r.
Arguments NoResult {A}.
Arguments NoFuel {A}.

Definition of_outcome {A : Type} (o : outcome A) : ending A :=
  match o with
  | Ok a => Returns a
  | Throw e => Raises (by_LibTool e)
  | Undefined => NoResult
  | OutOfFuel => NoFuel
  end.

(** ** Sign expansion and fixed point *)

(** [ExpandSign(int32_t value, int nbrBits)].  [int32_t(1) << (nbrBits - 1)]
    shifts by 0..30 and stays inside [int32_t]; [1 << nbrBits] does not for
    [nbrBits = 31], and were it taken for the least [int32_t], the
    subtraction would leave the type. *)
Definition ExpandSign32 (value nbrBits : Z) : ending Z :=
  if (nbrBits <=? 0) || (32 <=? nbrBits) then Raises (InvalidNumberOfBits nbrBits)
  else if Z.shiftl 1 (nbrBits - 1) <=? value
  then let p := Z.shiftl 1 nbrBits in
       if Int.in_int32 p && Int.in_int32 (value - p)
       then Returns (value - p)
       else NoResult
  else Returns value.

(** [ExpandSign(int64_t value, int nbrBits)] *)
Definition ExpandSign64 (value nbrBits : Z) : ending Z :=
  if (nbrBits <=? 0) || (64 <=? nbrBits) then Raises (InvalidNumberOfBits nbrBits)
  else if Z.shiftl 1 (nbrBits - 1) <=? value
  then let p := Z.shiftl 1 nbrBits in
       if Int.in_int64 p && Int.in_int64 (value - p)
       then Returns (value - p)
       else NoResult
  else Returns value.

(** [ScaleSigned].  [1 << nbrFractionBits] is an [int] shift: its count
    must be in 0..31 and its result an [int]; [1 << 31], which the
    language leaves undefined or to the implementation, is given no
    result.  The scale factor is then a power of two between 2^-30 and 1,
    and the product of a 32-bit integer with it is a [double] computed
    without rounding: the result is kept as the rational number it is. *)
Definition ScaleSigned (value nbrIntegerBits nbrFractionBits : Z) : ending Q :=
  if (0 <=? nbrFractionBits) && (nbrFractionBits <? 32)
     && Int.in_int32 (Z.shiftl 1 nbrFractionBits)
  then
    let scaleFactor := (1 / inject_Z (Z.shiftl 1 nbrFractionBits))%Q in
    if Int.in_int32 (nbrIntegerBits + nbrFractionBits)
    then match ExpandSign32 value (nbrIntegerBits + nbrFractionBits) with
         | Returns e => Returns (inject_Z e * scaleFactor)%Q
         | Raises r => Raises r
         | NoResult => NoResult
         | NoFuel => NoFuel
         end
    else NoResult
  else NoResult.

(** ** std::accumulate

    [for (; first != last; ++first) init = op(init, *first);] with an
    operation that may fail. *)
Fixpoint accumulate {A : Type} (op : Z -> A -> outcome Z) (l : list A) (init : Z)
  : outcome Z :=
  match l with
  | [] => Ok init
  | x :: l' => v <~ op init x ;; accumulate op l' v
  end.

(** ** ArraySegment<int32_t> *)

(** The segment refers to a vector it does not own and never writes to:
    the record carries the vector's contents.  [m_offset] and [m_size] are
    [size_t]. *)
Module ArraySegment.
Record t : Type := mk { m_data : list Z; m_offset : Z; m_size : Z }.

(** The constructor; [offset + count] is a [size_t] sum. *)
Definition make (data : list Z) (offset count : Z) : outcome t :=
  if Z.of_nat (length data) <? Int.to_size_t (offset + count)
  then Throw (logic_error (SegmentExceedsArray offset count (Z.of_nat (length data))))
  else Ok (mk data offset count).

Definition Size (s : t) : Z := m_size s.

(** [operator[]]: [m_data[m_offset + index]], a vector subscript. *)
Definition subscript (s : t) (index : Z) : outcome Z :=
  match nth_error (m_data s) (Z.to_nat (Int.to_size_t (m_offset s + index))) with
  | Some v => Ok v
  | None => Undefined
  end.

Definition PopFront (nbrElements : Z) : M t unit :=
  fun s =>
    if Size s <? nbrElements
    then (Throw (invalid_argument (CannotPopElements nbrElements (Size s))), s)
    else (Ok tt, mk (m_data s)
                    (Int.to_size_t (m_offset s + nbrElements))
                    (Int.to_size_t (m_size s - nbrElements))).

(** Reading the segment in place, as [stream[i]] does in a decoder. *)
Definition read (index : Z) : M t Z := fun s => (subscript s index, s).

(** The fields hold values of their type. *)
Definition typed (s : t) : Prop :=
  Int.is_size_t (m_offset s) /\ Int.is_size_t (m_size s).

(** What the constructor establishes when its sum does not wrap, and
    what [PopFront] keeps. *)
Definition wf (s : t) : Prop :=
  0 <= m_offset s /\ 0 <= m_size s /\
  m_offset s + m_size s <= Z.of_nat (length (m_data s)) /\
  Z.of_nat (length (m_data s)) < 2 ^ 64.

(** The elements inside the window. *)
Definition elements (s : t) : list Z :=
  firstn (Z.to_nat (m_size s)) (skipn (Z.to_nat (m_offset s)) (m_data s)).
End ArraySegment.

(** ** Marker tags *)

(** [enum class MarkerTag : uint8_t]: a byte.  A tag is produced by a cast
    from a stream element, so every byte value occurs, named or not. *)
Module MarkerTag.
Definition t : Type := Z.
Definition None : t := 0x00.
Definition TriggerNormal : t := 0x01.
Definition TriggerAverager : t := 0x02.
Definition GateStartCst : t := 0x04.
Definition GateStopCst : t := 0x05.
Definition DummyGate : t := 0x08.
Definition RecordStop : t := 0x0a.
(** [MarkerTag(x)] *)
Definition cast (x : Z) : t := x mod 2 ^ 8.
End MarkerTag.

(** ** Trigger markers *)

Module TriggerMarker.
Definition RecordIndexMask : Z := 0x00ffffff.

Record t : Type := mk {
  tag : MarkerTag.t;
  triggerTimeSamples : Q;
  absoluteSampleIndex : Z;
  recordIndex : Z
}.

(** The member initializers. *)
Definition default : t := mk MarkerTag.None 0%Q 0 0.

(** [GetInitialXTime] and [GetInitialXOffset] multiply by a [double] period
    given by the caller; no decoding depends on them and they are left
    out. *)
Definition GetInitialSampleOffset (m : t) : Q := triggerTimeSamples m.
End TriggerMarker.

Module StandardStreaming.
Definition MarkerStream : Type := ArraySegment.t.

Definition IsTriggerMarkerTag (tag : MarkerTag.t) : bool :=
  (tag =? MarkerTag.TriggerNormal) || (tag =? MarkerTag.TriggerAverager).

(** [ExtractTag(uint32_t element)] *)
Definition ExtractTag (element : Z) : MarkerTag.t :=
  MarkerTag.cast (Z.land element 0xff).

Definition NbrTriggerMarkerElements : Z := 16.

Definition DecodeTriggerMarker : M MarkerStream TriggerMarker.t :=
  e0 <- ArraySegment.read 0 ;;
  let header := Int.to_uint32 e0 in
  let tag := ExtractTag header in
  if negb (IsTriggerMarkerTag tag)
  then throw (runtime_error (ExpectedTriggerMarker tag))
  else
    e1 <- ArraySegment.read 1 ;;
    let low := Int.to_uint32 e1 in
    e2 <- ArraySegment.read 2 ;;
    let high := Int.to_uint32 e2 in
    let recordIndex := Z.land (Z.shiftr header 8) TriggerMarker.RecordIndexMask in
    let triggerTimeSamples := (- (inject_Z (Z.land low 0x000000ff) / 256))%Q in
    let timestampLow := Z.land (Int.to_uint32 (Z.shiftr low 8)) 0xffffff in
    let timestampHigh := Int.to_uint64 (Z.shiftl (Int.to_uint64 high) 24) in
    let result :=
      TriggerMarker.mk tag triggerTimeSamples (Z.lor timestampHigh timestampLow) recordIndex in
    ArraySegment.PopFront 16 ;;
    ret result.
End StandardStreaming.

(** ** Zero-suppress markers and the decoder *)

Module ZeroSuppress.

Record ProcessingParameters : Type := mkProcessingParameters {
  storageBlockSamples : Z;      (* int32_t *)
  processingBlockSamples : Z;   (* int32_t *)
  timestampPeriod : Q;          (* double; stored, not computed with here *)
  preGateSamples : Z;           (* int32_t *)
  postGateSamples : Z           (* int32_t *)
}.

(** The integer fields hold values of their type. *)
Definition typed (params : ProcessingParameters) : Prop :=
  Int.is_int32 (storageBlockSamples params) /\
  Int.is_int32 (processingBlockSamples params) /\
  Int.is_int32 (preGateSamples params) /\
  Int.is_int32 (postGateSamples params).

(** [ExtractTag(int32_t header)] *)
Definition ExtractTag (header : Z) : MarkerTag.t :=
  MarkerTag.cast (Z.land header 0xff).

(** [GateMarker::ExtractPosition]; [>>] on the signed first element is
    the arithmetic shift. *)
Definition ExtractPosition (element0 element1 : Z) : Z :=
  let low := Z.land (Z.shiftr element0 24) 0xff in
  let high := Z.shiftl (Z.land element1 0xffffff) 8 in
  Z.lor high low.

Module GateStartMarker.
Record t : Type := mk { m_blockIndex : Z; m_startSampleIndex : Z }.

Definition make (element0 element1 : Z) : outcome t :=
  let tag := ExtractTag element0 in
  if negb (tag =? MarkerTag.GateStartCst)
  then Throw (invalid_argument (ExpectedGateStartTag tag))
  else
    let blockIndex := ExtractPosition element0 element1 in
    if blockIndex <? 1
    then Throw (invalid_argument (BlockIndexNotPositive blockIndex element0 element1))
    else Ok (mk blockIndex (Z.land (Z.shiftr element1 24) 0xff)).

Definition GetBlockIndex (m : t) : Z := m_blockIndex m.

(** What the constructor establishes; the fields are private and
    assigned nowhere else. *)
Definition valid (m : t) : Prop :=
  1 <= m_blockIndex m < 2 ^ 32 /\ 0 <= m_startSampleIndex m < 2 ^ 8.

Definition GetSuppressedSampleCount (params : ProcessingParameters) (m : t) : Z :=
  m_startSampleIndex m.

Definition GetStartSampleIndex (params : ProcessingParameters) (m : t) : outcome Z :=
  b <~ Int.sub64 (m_blockIndex m) 1 ;;
  p <~ Int.mul64 b (processingBlockSamples params) ;;
  Int.add64 p (GetSuppressedSampleCount params m).
End GateStartMarker.

Module StopMarker.
Record t : Type := mk { m_blockIndex : Z; m_gateEndIndex : Z; m_tag : MarkerTag.t }.

Definition make (element0 element1 : Z) : outcome t :=
  let tag := ExtractTag element0 in
  if negb (tag =? MarkerTag.GateStopCst) && negb (tag =? MarkerTag.RecordStop)
  then Throw (invalid_argument (ExpectedStopTag tag))
  else
    let blockIndex := Int.to_uint64 (ExtractPosition element0 element1) in
    if blockIndex <? 1
    then Throw (invalid_argument (BlockIndexNotPositive blockIndex element0 element1))
    else Ok (mk (Int.to_int64 blockIndex) (Z.land (Z.shiftr element1 24) 0xff) tag).

(** [StopMarker()] *)
Definition default : t := mk 1 0 MarkerTag.RecordStop.

Definition IsRecordStop (m : t) : bool := m_tag m =? MarkerTag.RecordStop.
Definition GetBlockIndex (m : t) : Z := m_blockIndex m.

(** What the two constructors establish. *)
Definition valid (m : t) : Prop :=
  1 <= m_blockIndex m < 2 ^ 32 /\ 0 <= m_gateEndIndex m < 2 ^ 8 /\
  (m_tag m = MarkerTag.GateStopCst \/ m_tag m = MarkerTag.RecordStop).

(** The subtractions are [int] subtractions; the result is widened. *)
Definition GetSuppressedSampleCount (params : ProcessingParameters) (m : t) : outcome Z :=
  d <~ Int.int32 (processingBlockSamples params - m_gateEndIndex m) ;;
  Int.int32 (d - (if IsRecordStop m then 1 else 0)).

Definition GetStopSampleIndex (params : ProcessingParameters) (m : t) : outcome Z :=
  b <~ Int.sub64 (m_blockIndex m) 1 ;;
  p <~ Int.mul64 b (processingBlockSamples params) ;;
  c <~ GetSuppressedSampleCount params m ;;
  Int.sub64 p c.
End StopMarker.

Module GateMarker.
Record t : Type := mk { m_startMarker : GateStartMarker.t; m_stopMarker : StopMarker.t }.

Definition make (startMarker : GateStartMarker.t) (stopMarker : StopMarker.t) : outcome t :=
  if StopMarker.GetBlockIndex stopMarker <? GateStartMarker.GetBlockIndex startMarker
  then Throw (invalid_argument
                (GateStartExceedsStop (GateStartMarker.GetBlockIndex startMarker)
                                      (StopMarker.GetBlockIndex stopMarker)))
  else Ok (mk startMarker stopMarker).

(** What the constructor establishes from valid markers. *)
Definition valid (g : t) : Prop :=
  GateStartMarker.valid (m_startMarker g) /\ StopMarker.valid (m_stopMarker g) /\
  GateStartMarker.m_blockIndex (m_startMarker g) <= StopMarker.m_blockIndex (m_stopMarker g).

Definition GetStartMarker (g : t) : GateStartMarker.t := m_startMarker g.
Definition GetStopMarker (g : t) : StopMarker.t := m_stopMarker g.

Definition GetStoredSampleCount
    (params : ProcessingParameters) (recordStop : StopMarker.t) (g : t) : outcome Z :=
  let stopBlock := StopMarker.GetBlockIndex (GetStopMarker g) in
  let startBlock := GateStartMarker.GetBlockIndex (GetStartMarker g) in
  d <~ Int.sub64 stopBlock startBlock ;;
  let gateBlocks := Int.to_int64 (Int.to_size_t d) in
  postGateRecordBlocks <~ Int.sub64 (StopMarker.GetBlockIndex recordStop) stopBlock ;;
  if postGateRecordBlocks <? 0
  then Throw (invalid_argument
                (RecordStopBelowGateStop (StopMarker.GetBlockIndex recordStop) stopBlock))
  else
    gateSamples <~ Int.mul64 gateBlocks (processingBlockSamples params) ;;
    postGateRecordSamples <~ Int.mul64 postGateRecordBlocks (processingBlockSamples params) ;;
    prePost <~ Int.add32 (preGateSamples params) (postGateSamples params) ;;
    let additionalSamples := Z.min postGateRecordSamples prePost in
    total <~ Int.add64 gateSamples additionalSamples ;;
    AlignUp total (storageBlockSamples params).
End GateMarker.

Module RecordDescriptor.
Record t : Type := mk {
  m_trigger : TriggerMarker.t;
  m_gateList : list GateMarker.t;
  m_recordStop : StopMarker.t
}.

(** [RecordDescriptor()]: the stop marker is default-constructed. *)
Definition default : t := mk TriggerMarker.default [] StopMarker.default.

Definition SetTriggerMarker (tr : TriggerMarker.t) : M t unit :=
  modify (fun r => mk tr (m_gateList r) (m_recordStop r)).

Definition GetTriggerMarker (r : t) : TriggerMarker.t := m_trigger r.

Definition SetRecordStopMarker (recordStop : StopMarker.t) : M t unit :=
  if negb (StopMarker.IsRecordStop recordStop)
  then throw (invalid_argument ExpectedRecordStopMarker)
  else modify (fun r => mk (m_trigger r) (m_gateList r) recordStop).

Definition GetRecordStopMarker (r : t) : StopMarker.t := m_recordStop r.

Definition AddGate (gate : GateMarker.t) : M t unit :=
  modify (fun r => mk (m_trigger r) (m_gateList r ++ [gate]) (m_recordStop r)).

Definition GetGateList (r : t) : list GateMarker.t := m_gateList r.

Definition GetStoredSampleCount (params : ProcessingParameters) (r : t) : outcome Z :=
  accumulate (fun size gate =>
                n <~ GateMarker.GetStoredSampleCount params (m_recordStop r) gate ;;
                Int.add64 size n)
             (m_gateList r) 0.
End RecordDescriptor.

Module MarkerStreamDecoder.
Definition MarkerStream : Type := ArraySegment.t.

Inductive State : Type := ExpectTrigger | ExpectGate | ExpectAlign.
Inductive Mode : Type := Normal | ZeroSuppress.

Record t : Type := mk {
  m_recordQueue : list RecordDescriptor.t;
  m_currentRecord : RecordDescriptor.t;
  m_mode : Mode;
  m_state : State
}.

(** [MarkerStreamDecoder(Mode mode)] *)
Definition make (mode : Mode) : t := mk [] RecordDescriptor.default mode ExpectTrigger.

Definition GetAvailableRecordCount (d : t) : Z := Z.of_nat (length (m_recordQueue d)).

Definition IsTriggerMarkerTag (tag : MarkerTag.t) : bool :=
  (tag =? MarkerTag.TriggerNormal) || (tag =? MarkerTag.TriggerAverager).

(** *** Taking records out of the queue *)

Definition Pop : M t RecordDescriptor.t :=
  fun d =>
    match m_recordQueue d with
    | [] => (Throw (logic_error PopFromEmptyQueue), d)
    | front :: rest => (Ok front, mk rest (m_currentRecord d) (m_mode d) (m_state d))
    end.

(** The [for] loop of [Take], [remaining] iterations from now. *)
Fixpoint Take_loop (remaining : nat) (result : list RecordDescriptor.t)
  : M t (list RecordDescriptor.t) :=
  match remaining with
  | O => ret result
  | S remaining' => r <- Pop ;; Take_loop remaining' (result ++ [r])
  end.

Definition Take (count : Z) : M t (list RecordDescriptor.t) :=
  fun d =>
    if count <=? 0
    then (Throw (invalid_argument (TakeCountNotPositive count)), d)
    else if GetAvailableRecordCount d <? Int.to_size_t count
    then (Throw (invalid_argument
                   (TakeCountExceedsAvailable count (GetAvailableRecordCount d))), d)
    else Take_loop (Z.to_nat count) [] d.

(** *** Decoding single markers (the static members) *)

Definition WalkthroughDummyMarker : M MarkerStream unit :=
  e0 <- ArraySegment.read 0 ;;
  let tag := ExtractTag e0 in
  if negb (tag =? MarkerTag.DummyGate)
  then throw (logic_error (ExpectedDummyGateMarker tag))
  else ArraySegment.PopFront 2.

Definition DecodeGateStartMarker : M MarkerStream GateStartMarker.t :=
  e0 <- ArraySegment.read 0 ;;
  e1 <- ArraySegment.read 1 ;;
  result <- pure_call (GateStartMarker.make e0 e1) ;;
  ArraySegment.PopFront 2 ;;
  ret result.

Definition DecodeStopMarker : M MarkerStream StopMarker.t :=
  e0 <- ArraySegment.read 0 ;;
  e1 <- ArraySegment.read 1 ;;
  result <- pure_call (StopMarker.make e0 e1) ;;
  ArraySegment.PopFront 2 ;;
  ret result.

Definition DecodeGateMarker : M MarkerStream GateMarker.t :=
  start <- DecodeGateStartMarker ;;
  stop <- DecodeStopMarker ;;
  pure_call (GateMarker.make start stop).

Definition DecodeTriggerMarker : M MarkerStream TriggerMarker.t :=
  e0 <- ArraySegment.read 0 ;;
  let header := Int.to_uint32 e0 in
  let tag := ExtractTag (Int.to_int32 header) in
  if negb (IsTriggerMarkerTag tag)
  then throw (runtime_error (ExpectedTriggerMarker tag))
  else
    e1 <- ArraySegment.read 1 ;;
    let low := Int.to_uint32 e1 in
    e2 <- ArraySegment.read 2 ;;
    let high := Int.to_uint32 e2 in
    let recordIndex := Z.land (Z.shiftr header 8) TriggerMarker.RecordIndexMask in
    let triggerTimeSamples := (- (inject_Z (Z.land low 0x000000ff) / 256))%Q in
    let timestampLow := Z.land (Int.to_uint32 (Z.shiftr low 8)) 0xffffff in
    let timestampHigh := Int.to_uint64 (Z.shiftl (Int.to_uint64 high) 24) in
    let result :=
      TriggerMarker.mk tag triggerTimeSamples (Z.lor timestampHigh timestampLow) recordIndex in
    ArraySegment.PopFront 16 ;;
    ret result.

(** *** The decoder and the stream it is handed *)

(** A member function that takes [MarkerStream&] runs on the decoder and
    the caller's stream together. *)
Definition world : Type := (t * MarkerStream)%type.

Definition on_stream {A : Type} (m : M MarkerStream A) : M world A :=
  fun w => let (o, s') := m (snd w) in (o, (fst w, s')).

Definition on_current {A : Type} (m : M RecordDescriptor.t A) : M world A :=
  fun w =>
    let d := fst w in
    let (o, r') := m (m_currentRecord d) in
    (o, (mk (m_recordQueue d) r' (m_mode d) (m_state d), snd w)).

Definition set_current (r : RecordDescriptor.t) : M world unit :=
  modify (fun w => let d := fst w in
                   (mk (m_recordQueue d) r (m_mode d) (m_state d), snd w)).

Definition set_state (st : State) : M world unit :=
  modify (fun w => let d := fst w in
                   (mk (m_recordQueue d) (m_currentRecord d) (m_mode d) st, snd w)).

Definition push_back (r : RecordDescriptor.t) : M world unit :=
  modify (fun w => let d := fst w in
                   (mk (m_recordQueue d ++ [r]) (m_currentRecord d) (m_mode d) (m_state d),
                    snd w)).

(** *** Normal mode *)

Definition DecodeNextMarkerNormalMode : M world unit :=
  trigger <- on_stream DecodeTriggerMarker ;;
  match RecordDescriptor.SetTriggerMarker trigger RecordDescriptor.default with
  | (_, recordDescriptor) => push_back recordDescriptor
  end.

(** *** Zero-suppress mode *)

(** How the [for (;;)] over the dummy markers is left. *)
Inductive loop_exit : Type := Returned | Broke.

(** The [for (;;)] loop.  Every turn that goes round again has popped two
    elements, so [fuel] turns suffice when [fuel] is the stream's size;
    [walkthrough_total] proves that [OutOfFuel] is then never the
    outcome. *)
Fixpoint walkthrough_dummy_markers (fuel : nat) : M MarkerStream loop_exit :=
  fun stream =>
    if ArraySegment.Size stream =? 0 then (Ok Returned, stream)
    else
      match fuel with
      | O => (OutOfFuel, stream)
      | S fuel' =>
        (e0 <- ArraySegment.read 0 ;;
         let tag := ExtractTag e0 in
         if negb (tag =? MarkerTag.DummyGate) then ret Broke
         else WalkthroughDummyMarker ;; walkthrough_dummy_markers fuel') stream
      end.

Definition DecodeNextMarkerZeroSuppressMode : M world unit :=
  state <- gets (fun w => m_state (fst w)) ;;
  match state with
  | ExpectTrigger | ExpectAlign =>
    size <- gets (fun w => ArraySegment.Size (snd w)) ;;
    exit <- on_stream (walkthrough_dummy_markers (Z.to_nat size)) ;;
    match exit with
    | Returned => ret tt
    | Broke =>
      set_current RecordDescriptor.default ;;
      trigger <- on_stream DecodeTriggerMarker ;;
      on_current (RecordDescriptor.SetTriggerMarker trigger) ;;
      set_state ExpectGate
    end
  | ExpectGate =>
    e0 <- on_stream (ArraySegment.read 0) ;;
    let tag := ExtractTag e0 in
    isRecordStop <-
      (if tag =? MarkerTag.GateStartCst then
         gate <- on_stream DecodeGateMarker ;;
         on_current (RecordDescriptor.AddGate gate) ;;
         if StopMarker.IsRecordStop (GateMarker.GetStopMarker gate)
         then on_current (RecordDescriptor.SetRecordStopMarker
                            (GateMarker.GetStopMarker gate)) ;;
              ret true
         else ret false
       else if tag =? MarkerTag.RecordStop then
         stop <- on_stream DecodeStopMarker ;;
         on_current (RecordDescriptor.SetRecordStopMarker stop) ;;
         ret (StopMarker.IsRecordStop stop)
       else throw (runtime_error (ExpectedGateMarker tag))) ;;
    if (isRecordStop : bool)
    then current <- gets (fun w => m_currentRecord (fst w)) ;;
         push_back current ;;
         set_state ExpectAlign
    else ret tt
  end.

Definition DecodeNextMarker : M world unit :=
  fun w =>
    if ArraySegment.Size (snd w) =? 0
    then (Throw (runtime_error EmptyStream), w)
    else
      match m_mode (fst w) with
      | ZeroSuppress => DecodeNextMarkerZeroSuppressMode w
      | Normal => DecodeNextMarkerNormalMode w
      end.

(** *** The decode loop of the streaming example

    [while (markerArraySegment.Size() > 0)
         markerStreamDecoder.DecodeNextMarker(markerArraySegment);]
    (CPP_IVIC_StreamingAveragerZeroSuppress.cpp).  A call that returns
    has shortened the stream, so [fuel] turns suffice when [fuel] is the
    stream's size ([decode_fetched_total]). *)
Fixpoint decode_fetched (fuel : nat) : M world unit :=
  fun w =>
    if 0 <? ArraySegment.Size (snd w)
    then
      match fuel with
      | O => (OutOfFuel, w)
      | S fuel' => (DecodeNextMarker ;; decode_fetched fuel') w
      end
    else (Ok tt, w).

Definition DecodeFetchedElements : M world unit :=
  fun w => decode_fetched (Z.to_nat (ArraySegment.Size (snd w))) w.
End MarkerStreamDecoder.


Definition GetStoredSampleCountForRecords
    (recordList : list RecordDescriptor.t) (processingParams : ProcessingParameters)
  : outcome Z :=
  accumulate (fun size record =>
                n <~ RecordDescriptor.GetStoredSampleCount processingParams record ;;
                Int.add64 size n)
             recordList 0.

End ZeroSuppress.

(** ** The peak-list example (CPP_IVIC_TriggeredCountPeakList.cpp)

    [PrintTriggerMarker], [PrintPulseMarker] and [PrintMarkers] decode
    8-element markers and write them to an output stream.  The state of a
    call is the segment and the output; the output is the list of what was
    written, one entry per marker, with the values in the order they are
    inserted (the texts between them are left out). *)

Module PeakList.
Inductive printed : Type :=
| TriggerMarkerLine (recordIndex triggerSampleIndex : Z) (triggerSubsamplePosition : Q)
| PulseDescriptor (recordIndex timestamp width nbrOverrangeSamples : Z)
                  (peakX peakY : Q) (sumOfSquares : Z) (comX comY : Q)
| AlignmentMarkerLine.

Definition state : Type := (ArraySegment.t * list printed)%type.

Definition P (A : Type) : Type := state -> ending A * state.

Definition pret {A : Type} (a : A) : P A := fun st => (Returns a, st).

Definition praise {A : Type} (r : raised) : P A := fun st => (Raises r, st).

Definition pbind {A B : Type} (m : P A) (k : A -> P B) : P B :=
  fun st =>
    match m st with
    | (Returns a, st') => k a st'
    | (Raises r, st') => (Raises r, st')
    | (NoResult, st') => (NoResult, st')
    | (NoFuel, st') => (NoFuel, st')
    end.

(** [stream[index]] *)
Definition at_index (index : Z) : P Z :=
  fun st => (of_outcome (ArraySegment.subscript (fst st) index), st).

(** [stream.PopFront(nbrElements)] *)
Definition PopFront (nbrElements : Z) : P unit :=
  fun st =>
    let (o, s') := ArraySegment.PopFront nbrElements (fst st) in
    (of_outcome o, (s', snd st)).

(** [output << ...] *)
Definition print (p : printed) : P unit :=
  fun st => (Returns tt, (fst st, snd st ++ [p])).

(** A call that touches neither the segment nor the output. *)
Definition call {A : Type} (e : ending A) : P A := fun st => (e, st).

Notation "x <<- m ;; k" := (pbind m (fun x => k))
  (at level 61, m at next level, right associativity) : cpp_scope.
Notation "m ;;; k" := (pbind m (fun _ => k))
  (at level 61, right associativity) : cpp_scope.

Definition PrintTriggerMarker : P unit :=
  e0 <<- at_index 0 ;;
  let header := Int.to_uint32 e0 in
  let tag := Z.land header 0xff in
  if negb (tag =? 0x11)
  then praise (ExpectedTriggerMarkerTag tag)
  else
    e1 <<- at_index 1 ;;
    let low := Int.to_uint32 e1 in
    e2 <<- at_index 2 ;;
    let high := Int.to_uint32 e2 in
    let recordIndex := Z.land (Z.shiftr header 8) 0x00ffffff in
    let triggerSubsamplePosition := (- (inject_Z (Z.land low 0x000000ff) / 256))%Q in
    let trigSampleLow := Z.land (Int.to_uint32 (Z.shiftr low 8)) 0xffffff in
    let trigSampleHigh := Int.to_uint64 (Z.shiftl (Int.to_uint64 high) 24) in
    let triggerSampleIndex := Z.lor trigSampleHigh trigSampleLow in
    print (TriggerMarkerLine recordIndex triggerSampleIndex triggerSubsamplePosition).

(** The elements are [int32_t]: [>>] is the arithmetic shift, and the
    conversions to [int64_t] extend the sign before the masks cut it.  The
    left shifts move masked fields and stay inside their types.
    [overflow] is decoded and not written. *)
Definition PrintPulseMarker : P unit :=
  header <<- at_index 0 ;;
  let tag := Z.land header 0xff in
  if negb (tag =? 0x14)
  then praise (ExpectedPulseMarkerTag tag)
  else
    let recordIndex := Int.to_uint32 (Z.land (Z.shiftr header 8) 0x00ffffff) in
    item1 <<- at_index 1 ;;
    item2 <<- at_index 2 ;;
    let tsLow := Z.land item1 0x00000000ffffffff in
    let tsHigh := Z.land item2 0x000000000000ffff in
    let unsignedTimestamp := Z.lor tsLow (Z.shiftl tsHigh 32) in
    timestamp <<- call (ExpandSign64 unsignedTimestamp 48) ;;
    let width := Z.land (Z.shiftr item2 16) 0x00007fff in
    let overflow := negb (Z.land (Z.shiftr item2 31) 0x01 =? 0) in
    item3 <<- at_index 3 ;;
    let nbrOverrangeSamples := Z.land item3 0x00007fff in
    let soSLow := Z.land (Z.shiftr item3 16) 0x000000000000ffff in
    item4 <<- at_index 4 ;;
    let soSHigh := Z.land item4 0x00000000ffffffff in
    let sumOfSquares := Z.lor (Z.shiftl soSHigh 16) soSLow in
    item5 <<- at_index 5 ;;
    item6 <<- at_index 6 ;;
    let peakXRaw := Z.land item5 0x00ffffff in
    let peakYRaw := Z.lor (Z.land (Z.shiftr item5 24) 0x000000ff)
                          (Z.shiftl (Z.land item6 0x0000ffff) 8) in
    item7 <<- at_index 7 ;;
    let comXRaw := Z.lor (Z.land (Z.shiftr item6 16) 0x0000ffff)
                         (Z.shiftl (Z.land item7 0x000000ff) 16) in
    let comYRaw := Z.land (Z.shiftr item7 8) 0x00ffffff in
    peakX <<- call (ScaleSigned peakXRaw 14 8) ;;
    peakY <<- call (ScaleSigned peakYRaw 17 3) ;;
    comX <<- call (ScaleSigned comXRaw 16 8) ;;
    comY <<- call (ScaleSigned comYRaw 16 1) ;;
    print (PulseDescriptor recordIndex timestamp width nbrOverrangeSamples
                           peakX peakY sumOfSquares comX comY).


End PeakList.

(** ** Notions used in the statements *)

(** An outcome that is a thrown exception. *)
Definition failed {A : Type} (o : outcome A) : Prop := exists e, o = Throw e.

(** [n] is [value] rounded up to the nearest multiple of [grain]. *)
Definition rounded_up (grain value n : Z) : Prop :=
  (grain | n) /\ value <= n < value + grain.

(** The window of [s] moved [n] elements forward. *)
Definition advance (n : Z) (s : ArraySegment.t) : ArraySegment.t :=
  ArraySegment.mk (ArraySegment.m_data s) (ArraySegment.m_offset s + n)
                  (ArraySegment.m_size s - n).

(** The fields of a trigger marker in the words of the wire format, from
    the first three elements of the marker: the tag is the low byte of
    element 0, the record index is bits 8-31 of element 0, the trigger time
    is the low byte of element 1, negated, over 256, and the sample index is
    bits 8-31 of element 1 below element 2 (as a 32-bit word) shifted left
    by 24. *)
Definition trigger_fields (e0 e1 e2 : Z) : TriggerMarker.t :=
  TriggerMarker.mk (e0 mod 2 ^ 8)
                   (Qmake (- (e1 mod 2 ^ 8)) 256)
                   ((e1 mod 2 ^ 32) / 2 ^ 8 + (e2 mod 2 ^ 32) * 2 ^ 24)
                   ((e0 mod 2 ^ 32) / 2 ^ 8).

(** Two-element markers laid out in a stream, and those among them that
    are dummy gate markers. *)
Definition marker_elements (markers : list (Z * Z)) : list Z :=
  flat_map (fun m => [fst m; snd m]) markers.

Definition is_dummy_marker (m : Z * Z) : Prop := fst m mod 2 ^ 8 = MarkerTag.DummyGate.

(** The decoder [d] with another queue or another record in progress. *)
Definition with_queue (q : list ZeroSuppress.RecordDescriptor.t)
           (d : ZeroSuppress.MarkerStreamDecoder.t) : ZeroSuppress.MarkerStreamDecoder.t :=
  ZeroSuppress.MarkerStreamDecoder.mk q
    (ZeroSuppress.MarkerStreamDecoder.m_currentRecord d)
    (ZeroSuppress.MarkerStreamDecoder.m_mode d)
    (ZeroSuppress.MarkerStreamDecoder.m_state d).

Definition with_current (r : ZeroSuppress.RecordDescriptor.t)
           (d : ZeroSuppress.MarkerStreamDecoder.t) : ZeroSuppress.MarkerStreamDecoder.t :=
  ZeroSuppress.MarkerStreamDecoder.mk
    (ZeroSuppress.MarkerStreamDecoder.m_recordQueue d) r
    (ZeroSuppress.MarkerStreamDecoder.m_mode d)
    (ZeroSuppress.MarkerStreamDecoder.m_state d).

(** The record a trigger marker alone stands for: no gate, the
    default-constructed stop marker. *)
Definition trigger_record (e0 e1 e2 : Z) : ZeroSuppress.RecordDescriptor.t :=
  ZeroSuppress.RecordDescriptor.mk (trigger_fields e0 e1 e2) []
                                   ZeroSuppress.StopMarker.default.

(** A raw trigger marker: sixteen elements, a trigger tag in the low byte
    of the first; and the record it stands for. *)
Definition is_trigger_marker (m : list Z) : Prop :=
  length m = 16%nat /\
  StandardStreaming.IsTriggerMarkerTag (nth 0 m 0 mod 2 ^ 8) = true.

Definition marker_record (m : list Z) : ZeroSuppress.RecordDescriptor.t :=
  trigger_record (nth 0 m 0) (nth 1 m 0) (nth 2 m 0).

(** [hoare P m Q E]: from a state in [P], [m] ends in [Q] when it returns
    and in [E] when it does not. *)
Definition hoare {St A : Type} (P : St -> Prop) (m : M St A)
           (Q : A -> St -> Prop) (E : St -> Prop) : Prop :=
  forall s, P s ->
    match m s with
    | (Ok a, s') => Q a s'
    | (_, s') => E s'
    end.

(** [total P m Q]: from a state in [P], [m] does not run out of fuel, and
    ends in [Q] when it returns. *)
Definition total {St A : Type} (P : St -> Prop) (m : M St A) (Q : A -> St -> Prop) : Prop :=
  forall s, P s ->
    match m s with
    | (Ok a, s') => Q a s'
    | (OutOfFuel, _) => False
    | _ => True
    end.

(** A stream of [n] elements, [n] a [size_t]. *)
Definition sized (n : Z) (s : ArraySegment.t) : Prop :=
  ArraySegment.Size s = n /\ Int.is_size_t n.

Definition stream_sized (n : Z) (w : ZeroSuppress.MarkerStreamDecoder.world) : Prop :=
  sized n (snd w).

(** The record's stop marker is tagged RecordStop; and the decoder's
    invariant: every queued record, and the record in progress, has such a
    stop marker. *)
Definition has_record_stop (r : ZeroSuppress.RecordDescriptor.t) : Prop :=
  ZeroSuppress.StopMarker.m_tag (ZeroSuppress.RecordDescriptor.m_recordStop r)
  = MarkerTag.RecordStop.

Definition record_stop_invariant (d : ZeroSuppress.MarkerStreamDecoder.t) : Prop :=
  Forall has_record_stop (ZeroSuppress.MarkerStreamDecoder.m_recordQueue d) /\
  has_record_stop (ZeroSuppress.MarkerStreamDecoder.m_currentRecord d).

(** The invariant, on a decoder together with the stream of a call. *)
Definition inv (w : ZeroSuppress.MarkerStreamDecoder.world) : Prop :=
  record_stop_invariant (fst w).

(** The decoders a program can hold: a constructed one, and what any call
    of a public member function leaves, on any stream, count and outcome. *)
Inductive reachable : ZeroSuppress.MarkerStreamDecoder.t -> Prop :=
| reachable_make (mode : ZeroSuppress.MarkerStreamDecoder.Mode) :
    reachable (ZeroSuppress.MarkerStreamDecoder.make mode)
| reachable_DecodeNextMarker d s o d' s' :
    reachable d ->
    ZeroSuppress.MarkerStreamDecoder.DecodeNextMarker (d, s) = (o, (d', s')) ->
    reachable d'
| reachable_Pop d o d' :
    reachable d -> ZeroSuppress.MarkerStreamDecoder.Pop d = (o, d') -> reachable d'
| reachable_Take d count o d' :
    reachable d -> ZeroSuppress.MarkerStreamDecoder.Take count d = (o, d') -> reachable d'.

(** The samples of a gate before rounding: its blocks, and the pre- and
    post-gate samples as far as the record goes. *)
Definition gate_samples (params : ZeroSuppress.ProcessingParameters)
           (recordStop : ZeroSuppress.StopMarker.t) (g : ZeroSuppress.GateMarker.t) : Z :=
  let s := ZeroSuppress.GateStartMarker.m_blockIndex (ZeroSuppress.GateMarker.m_startMarker g) in
  let p := ZeroSuppress.StopMarker.m_blockIndex (ZeroSuppress.GateMarker.m_stopMarker g) in
  let r := ZeroSuppress.StopMarker.m_blockIndex recordStop in
  (p - s) * ZeroSuppress.processingBlockSamples params
  + Z.min ((r - p) * ZeroSuppress.processingBlockSamples params)
          (ZeroSuppress.preGateSamples params + ZeroSuppress.postGateSamples params).

Definition sum_of (l : list Z) : Z := fold_right Z.add 0 l.

(** The same over the gates of a record, and the gates of a list of
    records. *)
Definition record_samples (params : ZeroSuppress.ProcessingParameters)
           (r : ZeroSuppress.RecordDescriptor.t) : Z :=
  sum_of (map (gate_samples params (ZeroSuppress.RecordDescriptor.m_recordStop r))
              (ZeroSuppress.RecordDescriptor.m_gateList r)).

Definition gate_count (records : list ZeroSuppress.RecordDescriptor.t) : Z :=
  sum_of (map (fun r => Z.of_nat (length (ZeroSuppress.RecordDescriptor.m_gateList r)))
              records).

(** Parameters as the firmware has them: storage blocks of a positive
    size, and no negative block size or gate extension. *)
Definition sane_parameters (params : ZeroSuppress.ProcessingParameters) : Prop :=
  ZeroSuppress.typed params /\
  0 < ZeroSuppress.storageBlockSamples params /\
  0 <= ZeroSuppress.processingBlockSamples params /\
  0 <= ZeroSuppress.preGateSamples params + ZeroSuppress.postGateSamples params < 2 ^ 31.

(** A record whose markers are valid and whose gates stop no later than
    the record. *)
Definition gates_within (r : ZeroSuppress.RecordDescriptor.t) : Prop :=
  ZeroSuppress.StopMarker.valid (ZeroSuppress.RecordDescriptor.m_recordStop r) /\
  Forall (fun g =>
            ZeroSuppress.GateMarker.valid g /\
            ZeroSuppress.StopMarker.m_blockIndex (ZeroSuppress.GateMarker.m_stopMarker g)
            <= ZeroSuppress.StopMarker.m_blockIndex
                 (ZeroSuppress.RecordDescriptor.m_recordStop r))
         (ZeroSuppress.RecordDescriptor.m_gateList r).

(** The stream [s0] with its window moved forward, inside the window it
    had. *)
Definition moved (s0 s : ArraySegment.t) : Prop :=
  exists k, 0 <= k <= ArraySegment.Size s0 /\ s = advance k s0.

(** A record whose gates and stop marker are what the constructors
    accept. *)
Definition valid_record (r : ZeroSuppress.RecordDescriptor.t) : Prop :=
  Forall ZeroSuppress.GateMarker.valid (ZeroSuppress.RecordDescriptor.m_gateList r) /\
  ZeroSuppress.StopMarker.valid (ZeroSuppress.RecordDescriptor.m_recordStop r).

(** Every record of the decoder, queued or in progress, is in [R]. *)
Definition all_records (R : ZeroSuppress.RecordDescriptor.t -> Prop)
           (d : ZeroSuppress.MarkerStreamDecoder.t) : Prop :=
  Forall R (ZeroSuppress.MarkerStreamDecoder.m_recordQueue d) /\
  R (ZeroSuppress.MarkerStreamDecoder.m_currentRecord d).

(** What a call can keep of the decoder [d0] it started from: the mode, the
    records that were queued, in their order, a property [R] of every
    record and a property [S] of the stream. *)
Definition kept (R : ZeroSuppress.RecordDescriptor.t -> Prop) (S : ArraySegment.t -> Prop)
           (d0 : ZeroSuppress.MarkerStreamDecoder.t)
           (w : ZeroSuppress.MarkerStreamDecoder.world) : Prop :=
  ZeroSuppress.MarkerStreamDecoder.m_mode (fst w)
  = ZeroSuppress.MarkerStreamDecoder.m_mode d0 /\
  (exists l, ZeroSuppress.MarkerStreamDecoder.m_recordQueue (fst w)
             = ZeroSuppress.MarkerStreamDecoder.m_recordQueue d0 ++ l) /\
  Forall R (ZeroSuppress.MarkerStreamDecoder.m_recordQueue (fst w)) /\
  R (ZeroSuppress.MarkerStreamDecoder.m_currentRecord (fst w)) /\
  S (snd w).



(** ** Sample markers and streams *)

Module Sample.
(** A trigger marker with the given tag and record index. *)
Definition trigger (tag index : Z) : list Z :=
  [tag + 256 * index; 0x1234567f; 0x00000001; 0; 0; 0; 0; 0; 0; 0; 0; 0; 0; 0; 0; 0].

(** Gate from block 2 to block 5, then gate from block 6 to the record stop
    at block 10. *)
Definition gates : list Z :=
  [0x02000004; 0; 0x05000005; 0; 0x06000004; 0; 0x0a00000a; 0x11000000].

(** One zero-suppressed record. *)
Definition record_stream : ArraySegment.t :=
  ArraySegment.mk (trigger 2 7 ++ gates) 0 24.

(** Two alignment markers and the trigger of the next record. *)
Definition aligned_stream : ArraySegment.t :=
  ArraySegment.mk ([0x08; 0; 0x08; 0] ++ trigger 2 8) 0 20.

(** Three trigger markers, as normal mode sends them. *)
Definition trigger_stream : ArraySegment.t :=
  ArraySegment.mk (trigger 1 0 ++ trigger 1 1 ++ trigger 1 2) 0 48.

(** A stream that starts with a gate-stop marker. *)
Definition stop_first_stream : ArraySegment.t :=
  ArraySegment.mk [0x05000005; 0; 0x02000004; 0] 0 4.

Definition decoder (mode : ZeroSuppress.MarkerStreamDecoder.Mode)
  : ZeroSuppress.MarkerStreamDecoder.t :=
  ZeroSuppress.MarkerStreamDecoder.make mode.

(** The decoder and the stream after one, two and three calls on
    [record_stream] in zero-suppress mode. *)
Definition start : ZeroSuppress.MarkerStreamDecoder.world :=
  (decoder ZeroSuppress.MarkerStreamDecoder.ZeroSuppress, record_stream).

Definition after_trigger : ZeroSuppress.MarkerStreamDecoder.world :=
  Eval vm_compute in snd (ZeroSuppress.MarkerStreamDecoder.DecodeNextMarker start).

Definition after_first_gate : ZeroSuppress.MarkerStreamDecoder.world :=
  Eval vm_compute in snd (ZeroSuppress.MarkerStreamDecoder.DecodeNextMarker after_trigger).

Definition after_second_gate : ZeroSuppress.MarkerStreamDecoder.world :=
  Eval vm_compute in snd (ZeroSuppress.MarkerStreamDecoder.DecodeNextMarker after_first_gate).
End Sample.

(** * Properties *)

Lemma Ok_inj {A : Type} (a b : A) : Ok a = Ok b -> a = b.
Proof. intros H. congruence. Qed.

(** ** Integer conversions *)

Lemma to_size_t_id (x : Z) : Int.is_size_t x -> Int.to_size_t x = x.
Proof.
  unfold Int.is_size_t, Int.to_size_t, Int.to_uint64. intros H.
  apply Z.mod_small. exact H.
Qed.

Lemma to_int64_id (x : Z) : - 2 ^ 63 <= x < 2 ^ 63 -> Int.to_int64 x = x.
Proof.
  unfold Int.to_int64. intros H. rewrite Z.mod_small; lia.
Qed.

Lemma int64_ok (x : Z) : - 2 ^ 63 <= x < 2 ^ 63 -> Int.int64 x = Ok x.
Proof.
  intros H. unfold Int.int64, Int.in_int64, Int.int64_min, Int.int64_max.
  replace (- 2 ^ 63 <=? x) with true by (symmetry; apply Z.leb_le; lia).
  replace (x <=? 2 ^ 63 - 1) with true by (symmetry; apply Z.leb_le; lia).
  reflexivity.
Qed.

Lemma int32_ok (x : Z) : Int.is_int32 x -> Int.int32 x = Ok x.
Proof.
  unfold Int.is_int32. intros H.
  unfold Int.int32, Int.in_int32, Int.int32_min, Int.int32_max.
  replace (- 2 ^ 31 <=? x) with true by (symmetry; apply Z.leb_le; lia).
  replace (x <=? 2 ^ 31 - 1) with true by (symmetry; apply Z.leb_le; lia).
  reflexivity.
Qed.

(** ** Array segments *)

Section ArraySegmentFacts.
Import ArraySegment.

(** The constructor, given [size_t] arguments whose sum does not wrap,
    accepts exactly the windows inside the vector, and those are well
    formed. *)
Lemma make_wf (data : list Z) (offset count : Z) :
  Int.is_size_t offset -> Int.is_size_t count -> offset + count < 2 ^ 64 ->
  Z.of_nat (length data) < 2 ^ 64 ->
  (offset + count <= Z.of_nat (length data) ->
   make data offset count = Ok (mk data offset count) /\ wf (mk data offset count)) /\
  (Z.of_nat (length data) < offset + count -> failed (make data offset count)).
Proof.
  unfold Int.is_size_t. intros Ho Hc Hsum Hlen. unfold make.
  rewrite to_size_t_id by (unfold Int.is_size_t; lia).
  split; intros H.
  - replace (Z.of_nat (length data) <? offset + count) with false
      by (symmetry; apply Z.ltb_ge; exact H).
    split; [reflexivity |]. unfold wf. cbn [m_data m_offset m_size]. lia.
  - replace (Z.of_nat (length data) <? offset + count) with true
      by (symmetry; apply Z.ltb_lt; exact H).
    eexists. reflexivity.
Qed.

Lemma elements_length (s : t) : wf s -> Z.of_nat (length (elements s)) = m_size s.
Proof.
  intros (Ho & Hs & Hb & _). unfold elements.
  rewrite length_firstn, length_skipn. lia.
Qed.

Lemma subscript_elements (s : t) (i : Z) :
  wf s -> 0 <= i < Size s ->
  exists v, subscript s i = Ok v /\ nth_error (elements s) (Z.to_nat i) = Some v.
Proof.
  intros (Ho & Hs & Hb & Hl) Hi. unfold Size in Hi. unfold subscript, elements.
  rewrite to_size_t_id by (unfold Int.is_size_t; lia).
  rewrite nth_error_firstn.
  replace (Z.to_nat i <? Z.to_nat (m_size s))%nat with true
    by (symmetry; apply Nat.ltb_lt; lia).
  rewrite nth_error_skipn.
  replace (Z.to_nat (m_offset s) + Z.to_nat i)%nat with (Z.to_nat (m_offset s + i)) by lia.
  destruct (nth_error (m_data s) (Z.to_nat (m_offset s + i))) as [v |] eqn:E.
  - exists v. split; reflexivity.
  - apply nth_error_None in E. lia.
Qed.

Lemma PopFront_ok (s : t) (n : Z) :
  n <= Size s ->
  PopFront n s = (Ok tt, mk (m_data s) (Int.to_size_t (m_offset s + n))
                            (Int.to_size_t (m_size s - n))).
Proof.
  intros H. unfold PopFront.
  replace (Size s <? n) with false by (symmetry; apply Z.ltb_ge; exact H).
  reflexivity.
Qed.

Lemma PopFront_throw (s : t) (n : Z) :
  Size s < n ->
  PopFront n s = (Throw (invalid_argument (CannotPopElements n (Size s))), s).
Proof.
  intros H. unfold PopFront.
  replace (Size s <? n) with true by (symmetry; apply Z.ltb_lt; exact H).
  reflexivity.
Qed.

(** Inside a well-formed segment nothing wraps: popping is moving the
    window. *)
Lemma PopFront_wf (s : t) (n : Z) :
  wf s -> 0 <= n <= Size s ->
  PopFront n s = (Ok tt, mk (m_data s) (m_offset s + n) (m_size s - n)) /\
  wf (mk (m_data s) (m_offset s + n) (m_size s - n)) /\
  elements (mk (m_data s) (m_offset s + n) (m_size s - n))
  = skipn (Z.to_nat n) (elements s).
Proof.
  intros (Ho & Hs & Hb & Hl) Hn. unfold Size in Hn.
  rewrite PopFront_ok by (unfold Size; lia).
  rewrite !to_size_t_id by (unfold Int.is_size_t; lia).
  split; [reflexivity |]. split.
  - unfold wf; simpl. lia.
  - unfold elements; simpl.
    rewrite skipn_firstn_comm, skipn_skipn.
    f_equal; [lia |]. f_equal. lia.
Qed.
End ArraySegmentFacts.

(** C5.  For every array segment of size S and every count n, [PopFront n]
    throws if and only if n > S, and then leaves the segment as it was;
    otherwise the segment that results has size S - n, refers to the same
    unchanged vector, and its element i is element i + n of the segment
    before, for every i < S - n (for a well-formed segment both are
    elements of the vector, and the segment stays well formed). *)
Theorem C5_PopFront_spec (s : ArraySegment.t) (n : Z) :
  Int.is_size_t n -> ArraySegment.typed s ->
  (ArraySegment.Size s < n <-> failed (fst (ArraySegment.PopFront n s))) /\
  (ArraySegment.Size s < n -> snd (ArraySegment.PopFront n s) = s) /\
  (n <= ArraySegment.Size s ->
   exists s',
     ArraySegment.PopFront n s = (Ok tt, s') /\
     ArraySegment.Size s' = ArraySegment.Size s - n /\
     ArraySegment.m_data s' = ArraySegment.m_data s /\
     (forall i, 0 <= i < ArraySegment.Size s - n ->
                ArraySegment.subscript s' i = ArraySegment.subscript s (i + n)) /\
     (ArraySegment.wf s ->
      ArraySegment.wf s' /\
      forall i, 0 <= i < ArraySegment.Size s - n ->
                exists v, ArraySegment.subscript s' i = Ok v)).
Proof.
  intros Hn (Ho & Hs). unfold Int.is_size_t in *.
  split; [| split].
  - split.
    + intros H. rewrite PopFront_throw by exact H. eexists. reflexivity.
    + intros (e & He). destruct (Z.lt_ge_cases (ArraySegment.Size s) n) as [Hlt | Hge].
      * exact Hlt.
      * rewrite PopFront_ok in He by exact Hge. discriminate He.
  - intros H. rewrite PopFront_throw by exact H. reflexivity.
  - intros Hle. rewrite PopFront_ok by exact Hle. eexists. split; [reflexivity |].
    unfold ArraySegment.Size in *. cbn [ArraySegment.m_size ArraySegment.m_data].
    assert (Hsz : Int.to_size_t (ArraySegment.m_size s - n) = ArraySegment.m_size s - n)
      by (apply to_size_t_id; unfold Int.is_size_t; lia).
    split; [exact Hsz |]. split; [reflexivity |]. split.
    + intros i Hi. unfold ArraySegment.subscript.
      cbn [ArraySegment.m_offset ArraySegment.m_data].
      unfold Int.to_size_t, Int.to_uint64.
      rewrite Z.add_mod_idemp_l by lia.
      replace (ArraySegment.m_offset s + n + i) with (ArraySegment.m_offset s + (i + n)) by ring.
      reflexivity.
    + intros Hwf.
      destruct (PopFront_wf s n Hwf) as (Heq & Hwf' & _); [unfold ArraySegment.Size; lia |].
      rewrite PopFront_ok in Heq by exact Hle.
      injection Heq as Heq Heq'. rewrite Heq, Heq'. split; [exact Hwf' |].
      intros i Hi.
      destruct (subscript_elements _ i Hwf') as (v & Hv & _).
      * unfold ArraySegment.Size. simpl. lia.
      * exists v. exact Hv.
Qed.

(** C5 at a segment of four elements over a vector of six: popping two. *)
Lemma C5_PopFront_spec_witness :
  exists s',
    ArraySegment.PopFront 2 (ArraySegment.mk [10; 20; 30; 40; 50; 60] 1 4) = (Ok tt, s') /\
    ArraySegment.Size s' = 2 /\
    ArraySegment.subscript s' 1 = Ok 50.
Proof.
  destruct (C5_PopFront_spec (ArraySegment.mk [10; 20; 30; 40; 50; 60] 1 4) 2)
    as (_ & _ & H).
  - unfold Int.is_size_t. lia.
  - unfold ArraySegment.typed, Int.is_size_t. simpl. lia.
  - destruct H as (s' & Hpop & Hsize & _ & Hsub & _).
    + unfold ArraySegment.Size. simpl. lia.
    + exists s'. split; [exact Hpop |]. split; [exact Hsize |].
      rewrite Hsub by (unfold ArraySegment.Size; simpl; lia). reflexivity.
Defined.

(** C8 as stated fails: over the vector [10; 20; 30], the segment of size 1
    at offset 0 (which the constructor accepts) read at index 2 returns 30,
    an element of the vector outside the segment, and reports no error. *)
Lemma C8_subscript_counterexample :
  ArraySegment.make [10; 20; 30] 0 1 = Ok (ArraySegment.mk [10; 20; 30] 0 1) /\
  ArraySegment.Size (ArraySegment.mk [10; 20; 30] 0 1) <= 2 /\
  ArraySegment.subscript (ArraySegment.mk [10; 20; 30] 0 1) 2 = Ok 30 /\
  ~ failed (ArraySegment.subscript (ArraySegment.mk [10; 20; 30] 0 1) 2).
Proof.
  split; [reflexivity |]. split; [unfold ArraySegment.Size; simpl; lia |].
  split; [reflexivity |].
  intros (e & He). discriminate He.
Qed.

(** C8, amended.  [operator[]] is the unchecked vector read
    [m_data[m_offset + index]], the sum taken as [size_t].  Whatever the
    segment and the index, the read is not checked against size() and never
    reports an error: it returns the element of the vector at position
    (m_offset + index) mod 2^64 when the vector has one, and is undefined
    otherwise.  So a read at an index i >= size() returns a value whenever
    that position is inside the vector.  In a segment whose window lies
    inside its vector, a read at index i with 0 <= i < size() returns
    element i of the window. *)
Theorem C8_subscript_unchecked (s : ArraySegment.t) (i : Z) :
  let position := (ArraySegment.m_offset s + i) mod 2 ^ 64 in
  ~ failed (ArraySegment.subscript s i) /\
  (position < Z.of_nat (length (ArraySegment.m_data s)) ->
   exists v, ArraySegment.subscript s i = Ok v /\
             nth_error (ArraySegment.m_data s) (Z.to_nat position) = Some v) /\
  (Z.of_nat (length (ArraySegment.m_data s)) <= position ->
   ArraySegment.subscript s i = Undefined) /\
  (ArraySegment.wf s -> 0 <= i < ArraySegment.Size s ->
   exists v, ArraySegment.subscript s i = Ok v /\
             nth_error (ArraySegment.elements s) (Z.to_nat i) = Some v).
Proof.
  intros position.
  assert (Hpos : 0 <= position) by (apply Z.mod_pos_bound; lia).
  unfold ArraySegment.subscript, Int.to_size_t, Int.to_uint64. fold position.
  split; [| split; [| split]].
  - intros (e & He). destruct (nth_error _ _); discriminate He.
  - intros Hin.
    destruct (nth_error (ArraySegment.m_data s) (Z.to_nat position)) as [v |] eqn:E.
    + exists v. split; reflexivity.
    + apply nth_error_None in E. lia.
  - intros Hout.
    destruct (nth_error (ArraySegment.m_data s) (Z.to_nat position)) as [v |] eqn:E.
    + assert (Hlt : (Z.to_nat position < length (ArraySegment.m_data s))%nat)
        by (apply nth_error_Some; rewrite E; discriminate).
      lia.
    + reflexivity.
  - intros Hwf Hi. apply (subscript_elements s i Hwf Hi).
Qed.

(** C8, amended, at segments over the vector [10; 20; 30].  In the segment
    of the counterexample index 0 is inside, index 2 is outside the segment
    and inside the vector, index 5 is outside both.  In the segment of size
    1 at offset 1 the index 2^64 - 1 wraps round to the front of the
    vector. *)
Lemma C8_subscript_unchecked_witness :
  (exists v, ArraySegment.subscript (ArraySegment.mk [10; 20; 30] 0 1) 0 = Ok v /\
             nth_error (ArraySegment.elements (ArraySegment.mk [10; 20; 30] 0 1)) 0
             = Some v) /\
  (exists v, ArraySegment.subscript (ArraySegment.mk [10; 20; 30] 0 1) 2 = Ok v /\
             nth_error [10; 20; 30] 2 = Some v) /\
  ArraySegment.subscript (ArraySegment.mk [10; 20; 30] 0 1) 5 = Undefined /\
  (exists v, ArraySegment.subscript (ArraySegment.mk [10; 20; 30] 1 1) (2 ^ 64 - 1) = Ok v /\
             nth_error [10; 20; 30] 0 = Some v).
Proof.
  split; [| split; [| split]].
  - destruct (C8_subscript_unchecked (ArraySegment.mk [10; 20; 30] 0 1) 0)
      as (_ & _ & _ & H).
    apply H; [unfold ArraySegment.wf; simpl; lia | unfold ArraySegment.Size; simpl; lia].
  - destruct (C8_subscript_unchecked (ArraySegment.mk [10; 20; 30] 0 1) 2)
      as (_ & H & _).
    apply H. vm_compute. reflexivity.
  - destruct (C8_subscript_unchecked (ArraySegment.mk [10; 20; 30] 0 1) 5)
      as (_ & _ & H & _).
    apply H. vm_compute. discriminate.
  - destruct (C8_subscript_unchecked (ArraySegment.mk [10; 20; 30] 1 1) (2 ^ 64 - 1))
      as (_ & H & _).
    apply H. vm_compute. reflexivity.
Defined.

(** ** The queue of decoded records *)

Section QueueFacts.
Import ZeroSuppress ZeroSuppress.MarkerStreamDecoder.

Lemma Pop_cons (d : t) (r : RecordDescriptor.t) (rest : list RecordDescriptor.t) :
  m_recordQueue d = r :: rest ->
  Pop d = (Ok r, mk rest (m_currentRecord d) (m_mode d) (m_state d)).
Proof. intros H. unfold Pop. rewrite H. reflexivity. Qed.

Lemma Pop_nil (d : t) :
  m_recordQueue d = [] -> Pop d = (Throw (logic_error PopFromEmptyQueue), d).
Proof. intros H. unfold Pop. rewrite H. reflexivity. Qed.

(** The loop of [Take] moves records from the front of the queue to the
    back of the result, one [Pop] at a time. *)
Lemma Take_loop_spec (n : nat) :
  forall (result : list RecordDescriptor.t) (d : t),
    (n <= length (m_recordQueue d))%nat ->
    Take_loop n result d
    = (Ok (result ++ firstn n (m_recordQueue d)),
       mk (skipn n (m_recordQueue d)) (m_currentRecord d) (m_mode d) (m_state d)).
Proof.
  induction n as [| n IH]; intros result d Hn.
  - simpl. unfold ret. rewrite app_nil_r. destruct d; reflexivity.
  - destruct (m_recordQueue d) as [| r rest] eqn:Hq; [simpl in Hn; lia |].
    cbn [Take_loop]. unfold bind. rewrite (Pop_cons d r rest Hq).
    rewrite IH by (simpl in *; lia).
    simpl. rewrite <- app_assoc. reflexivity.
Qed.
End QueueFacts.

(** C6.  For every decoder and every [int] count n: [Take n] throws when
    n <= 0 or n exceeds the number of queued records, and only then, and
    leaves the decoder as it was; otherwise it returns the first n records
    of the queue in queue order and leaves the others queued in order,
    touching nothing else.  [Pop] throws on an empty queue and leaves it
    as it was, and on a non-empty one removes and returns the front record,
    which is what [Take 1] returns as a one-element list. *)
Theorem C6_Take_spec (d : ZeroSuppress.MarkerStreamDecoder.t) (n : Z) :
  Int.is_int32 n ->
  let queue := ZeroSuppress.MarkerStreamDecoder.m_recordQueue d in
  let rest_of (q : list ZeroSuppress.RecordDescriptor.t) :=
    ZeroSuppress.MarkerStreamDecoder.mk q
      (ZeroSuppress.MarkerStreamDecoder.m_currentRecord d)
      (ZeroSuppress.MarkerStreamDecoder.m_mode d)
      (ZeroSuppress.MarkerStreamDecoder.m_state d) in
  (n <= 0 \/ ZeroSuppress.MarkerStreamDecoder.GetAvailableRecordCount d < n ->
   failed (fst (ZeroSuppress.MarkerStreamDecoder.Take n d)) /\
   snd (ZeroSuppress.MarkerStreamDecoder.Take n d) = d) /\
  (0 < n <= ZeroSuppress.MarkerStreamDecoder.GetAvailableRecordCount d ->
   ZeroSuppress.MarkerStreamDecoder.Take n d
   = (Ok (firstn (Z.to_nat n) queue), rest_of (skipn (Z.to_nat n) queue))) /\
  (queue = [] ->
   failed (fst (ZeroSuppress.MarkerStreamDecoder.Pop d)) /\
   snd (ZeroSuppress.MarkerStreamDecoder.Pop d) = d) /\
  (forall r rest, queue = r :: rest ->
   ZeroSuppress.MarkerStreamDecoder.Pop d = (Ok r, rest_of rest) /\
   ZeroSuppress.MarkerStreamDecoder.Take 1 d = (Ok [r], rest_of rest)).
Proof.
  intros Hn queue rest_of. unfold Int.is_int32 in Hn.
  unfold ZeroSuppress.MarkerStreamDecoder.GetAvailableRecordCount.
  fold queue.
  split; [| split; [| split]].
  - intros H. unfold ZeroSuppress.MarkerStreamDecoder.Take.
    destruct (n <=? 0) eqn:E0.
    + split; [eexists; reflexivity | reflexivity].
    + apply Z.leb_gt in E0.
      unfold ZeroSuppress.MarkerStreamDecoder.GetAvailableRecordCount. fold queue.
      rewrite to_size_t_id by (unfold Int.is_size_t; lia).
      replace (Z.of_nat (length queue) <? n) with true
        by (symmetry; apply Z.ltb_lt; lia).
      split; [eexists; reflexivity | reflexivity].
  - intros H. unfold ZeroSuppress.MarkerStreamDecoder.Take.
    replace (n <=? 0) with false by (symmetry; apply Z.leb_gt; lia).
    unfold ZeroSuppress.MarkerStreamDecoder.GetAvailableRecordCount. fold queue.
    rewrite to_size_t_id by (unfold Int.is_size_t; lia).
    replace (Z.of_nat (length queue) <? n) with false
      by (symmetry; apply Z.ltb_ge; lia).
    rewrite Take_loop_spec by (fold queue; lia).
    reflexivity.
  - intros Hq. rewrite Pop_nil by exact Hq.
    split; [eexists; reflexivity | reflexivity].
  - intros r rest Hq. split.
    + apply Pop_cons. exact Hq.
    + unfold ZeroSuppress.MarkerStreamDecoder.Take.
      unfold ZeroSuppress.MarkerStreamDecoder.GetAvailableRecordCount. fold queue.
      rewrite Hq. cbn [Z.leb Z.compare length].
      replace (Z.of_nat (S (length rest)) <? Int.to_size_t 1) with false
        by (symmetry; apply Z.ltb_ge; rewrite to_size_t_id by (unfold Int.is_size_t; lia); lia).
      rewrite Take_loop_spec by (fold queue; rewrite Hq; simpl; lia).
      fold queue. rewrite Hq. reflexivity.
Qed.

(** C6 at a queue of three records, told apart by their record indices:
    taking two returns the first two in order and leaves the third. *)
Lemma C6_Take_spec_witness :
  let r0 := marker_record (Sample.trigger 1 0) in
  let r1 := marker_record (Sample.trigger 1 1) in
  let r2 := marker_record (Sample.trigger 1 2) in
  let d := with_queue [r0; r1; r2]
                      (Sample.decoder ZeroSuppress.MarkerStreamDecoder.Normal) in
  ZeroSuppress.MarkerStreamDecoder.Take 2 d = (Ok [r0; r1], with_queue [r2] d).
Proof.
  cbv zeta.
  refine (proj1 (proj2 (C6_Take_spec
                          (with_queue [marker_record (Sample.trigger 1 0);
                                       marker_record (Sample.trigger 1 1);
                                       marker_record (Sample.trigger 1 2)]
                                      (Sample.decoder ZeroSuppress.MarkerStreamDecoder.Normal))
                          2 _)) _).
  - unfold Int.is_int32. lia.
  - unfold ZeroSuppress.MarkerStreamDecoder.GetAvailableRecordCount. simpl. lia.
Defined.

(** ** Rounding up *)

Lemma CeilDiv_spec (value divider : Z) :
  0 < divider -> - 2 ^ 63 <= value -> value <= 2 ^ 63 - divider ->
  exists q, CeilDiv value divider = Ok q /\
            value <= q * divider < value + divider /\ - 2 ^ 63 <= q < 2 ^ 63.
Proof.
  intros Hd Hlo Hhi. unfold CeilDiv.
  replace (divider <=? 0) with false by (symmetry; apply Z.leb_gt; exact Hd).
  destruct (0 <? value) eqn:Hpos.
  - apply Z.ltb_lt in Hpos.
    unfold Int.sub64, Int.add64, Int.div64, Int.int64_max.
    rewrite int64_ok by lia. cbn [obind].
    rewrite int64_ok by lia. cbn [obind].
    replace (2 ^ 63 - 1 - divider + 1 <? value) with false
      by (symmetry; apply Z.ltb_ge; lia).
    rewrite int64_ok by lia. cbn [obind].
    rewrite int64_ok by lia. cbn [obind].
    pose proof (Z.quot_rem' (value + (divider - 1)) divider) as Hqr.
    pose proof (Z.rem_bound_pos_pos (value + (divider - 1)) divider Hd) as Hr.
    specialize (Hr ltac:(lia)).
    set (q := Z.quot (value + (divider - 1)) divider) in *.
    assert (Hq : 0 <= q <= value + (divider - 1)) by nia.
    rewrite int64_ok by lia.
    exists q. split; [reflexivity |]. split; [nia | lia].
  - apply Z.ltb_ge in Hpos.
    unfold Int.add64, Int.div64. cbn [obind].
    rewrite Z.add_0_r. rewrite int64_ok by lia. cbn [obind].
    pose proof (Z.quot_rem' value divider) as Hqr.
    pose proof (Z.rem_bound_pos_neg value divider Hd Hpos) as Hr.
    set (q := Z.quot value divider) in *.
    assert (Hq : value <= q <= 0) by nia.
    rewrite int64_ok by lia.
    exists q. split; [reflexivity |]. split; [nia | lia].
Qed.

(** [AlignUp] returns the least multiple of [grain] that is not below
    [value], whenever that multiple is an [int64_t]. *)
Lemma AlignUp_spec (value grain : Z) :
  0 < grain < 2 ^ 63 -> - 2 ^ 63 <= value -> value <= 2 ^ 63 - grain ->
  exists n, AlignUp value grain = Ok n /\ (grain | n) /\ value <= n < value + grain.
Proof.
  intros Hg Hlo Hhi. unfold AlignUp, Int.sub64, Int.mul64, Int.int64_max.
  rewrite int64_ok by lia. cbn [obind].
  rewrite int64_ok by lia. cbn [obind].
  replace (2 ^ 63 - 1 - (grain - 1) <? value) with false
    by (symmetry; apply Z.ltb_ge; lia).
  destruct (CeilDiv_spec value grain (proj1 Hg) Hlo Hhi) as (q & Hq & Hb & _).
  rewrite Hq. cbn [obind].
  rewrite int64_ok by lia.
  exists (q * grain). split; [reflexivity |]. split; [| exact Hb].
  exists q. reflexivity.
Qed.

(** ** Stored samples of a gate *)

Section StoredSampleCount.
Import ZeroSuppress.

Lemma land_ones_range (x n : Z) : 0 <= n -> 0 <= Z.land x (Z.ones n) < 2 ^ n.
Proof.
  intros Hn. rewrite Z.land_ones by exact Hn. apply Z.mod_pos_bound. lia.
Qed.

(** A count of blocks times a count of samples per block is an
    [int64_t]. *)
Lemma mul_bound (a b : Z) :
  0 <= a < 2 ^ 32 -> - 2 ^ 31 <= b < 2 ^ 31 ->
  - 2 ^ 63 + 2 ^ 31 <= a * b <= 2 ^ 63 - 2 ^ 32.
Proof.
  intros Ha Hb.
  assert (H1 : a * b <= (2 ^ 32 - 1) * (2 ^ 31 - 1)).
  { destruct (Z.le_gt_cases 0 b) as [Hb0 | Hb0].
    - apply Z.mul_le_mono_nonneg; lia.
    - assert (a * b <= 0) by (apply Z.mul_nonneg_nonpos; lia). lia. }
  assert (H2 : (2 ^ 32 - 1) * (- 2 ^ 31) <= a * b).
  { destruct (Z.le_gt_cases 0 b) as [Hb0 | Hb0].
    - assert (0 <= a * b) by (apply Z.mul_nonneg_nonneg; lia). lia.
    - assert (H : a * (- b) <= (2 ^ 32 - 1) * 2 ^ 31)
        by (apply Z.mul_le_mono_nonneg; lia).
      rewrite Z.mul_opp_r in H. lia. }
  lia.
Qed.

(** A block index read from a marker is a 32-bit quantity. *)
Lemma ExtractPosition_range (element0 element1 : Z) :
  0 <= ExtractPosition element0 element1 < 2 ^ 32.
Proof.
  unfold ExtractPosition.
  pose proof (land_ones_range (Z.shiftr element0 24) 8 ltac:(lia)) as Hlow.
  pose proof (land_ones_range element1 24 ltac:(lia)) as Hhigh.
  change (Z.ones 8) with 0xff in Hlow. change (Z.ones 24) with 0xffffff in Hhigh.
  set (low := Z.land (Z.shiftr element0 24) 0xff) in *.
  set (high := Z.land element1 0xffffff) in *.
  assert (Hsh : Z.shiftl high 8 = high * 2 ^ 8) by (apply Z.shiftl_mul_pow2; lia).
  split.
  - apply Z.lor_nonneg. split; [rewrite Hsh; lia | lia].
  - destruct (Z.eq_dec (Z.lor (Z.shiftl high 8) low) 0) as [E0 | E0]; [rewrite E0; lia |].
    apply Z.log2_lt_cancel. rewrite Z.log2_pow2 by lia.
    rewrite Z.log2_lor by (rewrite ?Hsh; lia).
    apply Z.max_lub_lt.
    + destruct (Z.eq_dec high 0) as [Ez | Ez]; [rewrite Ez; simpl; lia |].
      rewrite Z.log2_shiftl by lia.
      assert (Z.log2 high < 24) by (apply Z.log2_lt_pow2; lia). lia.
    + destruct (Z.eq_dec low 0) as [Ez | Ez]; [rewrite Ez; simpl; lia |].
      assert (Z.log2 low < 8) by (apply Z.log2_lt_pow2; lia). lia.
Qed.

Lemma GateStartMarker_make_valid (element0 element1 : Z) (m : GateStartMarker.t) :
  GateStartMarker.make element0 element1 = Ok m -> GateStartMarker.valid m.
Proof.
  unfold GateStartMarker.make.
  destruct (negb _); [discriminate |].
  destruct (ExtractPosition element0 element1 <? 1) eqn:E; [discriminate |].
  intros H. apply Ok_inj in H. subst m. apply Z.ltb_ge in E.
  pose proof (ExtractPosition_range element0 element1) as Hp.
  pose proof (land_ones_range (Z.shiftr element1 24) 8 ltac:(lia)) as Hs.
  unfold GateStartMarker.valid.
  cbn [GateStartMarker.m_blockIndex GateStartMarker.m_startSampleIndex].
  change (Z.ones 8) with 255 in Hs. lia.
Qed.

Lemma StopMarker_make_valid (element0 element1 : Z) (m : StopMarker.t) :
  StopMarker.make element0 element1 = Ok m -> StopMarker.valid m.
Proof.
  unfold StopMarker.make, Int.to_uint64.
  pose proof (ExtractPosition_range element0 element1) as Hp.
  rewrite (Z.mod_small _ (2 ^ 64)) by lia.
  destruct (ExtractTag element0 =? MarkerTag.GateStopCst) eqn:E1;
    destruct (ExtractTag element0 =? MarkerTag.RecordStop) eqn:E2;
    cbn [negb andb]; try discriminate;
    (destruct (ExtractPosition element0 element1 <? 1) eqn:E; [discriminate |]);
    intros H; apply Ok_inj in H; subst m; apply Z.ltb_ge in E;
    pose proof (land_ones_range (Z.shiftr element1 24) 8 ltac:(lia)) as Hs;
    change (Z.ones 8) with 255 in Hs;
    unfold StopMarker.valid;
    cbn [StopMarker.m_blockIndex StopMarker.m_gateEndIndex StopMarker.m_tag];
    rewrite to_int64_id by lia;
    (split; [lia | split; [lia |]]).
  - left. apply Z.eqb_eq. exact E1.
  - left. apply Z.eqb_eq. exact E1.
  - right. apply Z.eqb_eq. exact E2.
Qed.

Lemma GateMarker_make_valid (start : GateStartMarker.t) (stop : StopMarker.t) (g : GateMarker.t) :
  GateStartMarker.valid start -> StopMarker.valid stop ->
  GateMarker.make start stop = Ok g -> GateMarker.valid g.
Proof.
  intros Hs Hp. unfold GateMarker.make.
  destruct (_ <? _) eqn:E; [discriminate |].
  intros H. apply Ok_inj in H. subst g. apply Z.ltb_ge in E.
  unfold GateMarker.valid. cbn [GateMarker.m_startMarker GateMarker.m_stopMarker].
  unfold StopMarker.GetBlockIndex, GateStartMarker.GetBlockIndex in E. auto.
Qed.

(** The arithmetic of [GetStoredSampleCount] on valid markers: nothing
    leaves its type except, possibly, the [int32_t] sum of the pre-gate
    and post-gate sample counts. *)
Lemma GetStoredSampleCount_defined
      (params : ProcessingParameters) (recordStop : StopMarker.t) (g : GateMarker.t) :
  typed params -> GateMarker.valid g -> StopMarker.valid recordStop ->
  StopMarker.m_blockIndex (GateMarker.m_stopMarker g) <= StopMarker.m_blockIndex recordStop ->
  0 < storageBlockSamples params ->
  Int.is_int32 (preGateSamples params + postGateSamples params) ->
  let s := GateStartMarker.m_blockIndex (GateMarker.m_startMarker g) in
  let p := StopMarker.m_blockIndex (GateMarker.m_stopMarker g) in
  let r := StopMarker.m_blockIndex recordStop in
  let raw := (p - s) * processingBlockSamples params
             + Z.min ((r - p) * processingBlockSamples params)
                     (preGateSamples params + postGateSamples params) in
  GateMarker.GetStoredSampleCount params recordStop g
  = AlignUp raw (storageBlockSamples params) /\
  - 2 ^ 63 <= raw <= 2 ^ 63 - 2 ^ 31.
Proof.
  intros (Hsbs & Hpbs & Hpre & Hpost) ((Hs & _) & (Hp & _) & Hsp) (Hr & _) Hpr Hpos Hsum.
  intros s p r raw. unfold Int.is_int32 in *.
  unfold GateMarker.GetStoredSampleCount, GateMarker.GetStopMarker, GateMarker.GetStartMarker,
    StopMarker.GetBlockIndex, GateStartMarker.GetBlockIndex.
  fold s p r.
  unfold Int.sub64, Int.mul64, Int.add64, Int.add32.
  rewrite (int64_ok (p - s)) by lia. cbn [obind].
  rewrite to_size_t_id by (unfold Int.is_size_t; lia).
  rewrite to_int64_id by lia.
  rewrite (int64_ok (r - p)) by lia. cbn [obind].
  replace (r - p <? 0) with false by (symmetry; apply Z.ltb_ge; lia).
  set (pbs := processingBlockSamples params) in *.
  assert (Hgs : - 2 ^ 63 + 2 ^ 31 <= (p - s) * pbs <= 2 ^ 63 - 2 ^ 32)
    by (apply mul_bound; lia).
  assert (Hrs : - 2 ^ 63 + 2 ^ 31 <= (r - p) * pbs <= 2 ^ 63 - 2 ^ 32)
    by (apply mul_bound; lia).
  assert (Hsr : - 2 ^ 63 + 2 ^ 31 <= (p - s) * pbs + (r - p) * pbs).
  { replace ((p - s) * pbs + (r - p) * pbs) with ((r - s) * pbs) by ring.
    apply mul_bound; lia. }
  rewrite (int64_ok ((p - s) * pbs)) by lia. cbn [obind].
  rewrite (int64_ok ((r - p) * pbs)) by lia. cbn [obind].
  rewrite int32_ok by exact Hsum. cbn [obind].
  assert (Hraw : - 2 ^ 63 <= raw <= 2 ^ 63 - 2 ^ 31) by (unfold raw; lia).
  fold raw. rewrite (int64_ok raw) by lia. cbn [obind].
  split; [reflexivity | exact Hraw].
Qed.
End StoredSampleCount.

(** C1 as stated fails.  Take the gate of the claim's own example (start
    block 2, stop block 5, record stop at block 10, 16 samples per
    processing and per storage block), with markers as the constructors
    build them, and 2^30 pre-gate and 2^30 post-gate samples.  The claim
    promises 48 + min (80, 2^31) = 128.  The code adds the two [int32_t]
    counts as [int32_t] before widening the sum; 2^31 is not an [int32_t],
    the sum has no defined value, and 128 is not what is returned. *)
Lemma C1_GetStoredSampleCount_counterexample :
  let params := ZeroSuppress.mkProcessingParameters 16 16 0 (2 ^ 30) (2 ^ 30) in
  let start := ZeroSuppress.GateStartMarker.mk 2 0 in
  let stop := ZeroSuppress.StopMarker.mk 5 0 MarkerTag.GateStopCst in
  let recordStop := ZeroSuppress.StopMarker.mk 10 0 MarkerTag.RecordStop in
  let g := ZeroSuppress.GateMarker.mk start stop in
  ZeroSuppress.typed params /\
  ZeroSuppress.GateStartMarker.make 0x02000004 0 = Ok start /\
  ZeroSuppress.StopMarker.make 0x05000005 0 = Ok stop /\
  ZeroSuppress.StopMarker.make 0x0a00000a 0 = Ok recordStop /\
  ZeroSuppress.GateMarker.make start stop = Ok g /\
  (5 - 2) * 16 + Z.min ((10 - 5) * 16) (2 ^ 30 + 2 ^ 30) = 128 /\
  ZeroSuppress.GateMarker.GetStoredSampleCount params recordStop g = Undefined /\
  ~ (exists n, ZeroSuppress.GateMarker.GetStoredSampleCount params recordStop g = Ok n /\
               rounded_up 16 128 n).
Proof.
  cbv zeta.
  split; [unfold ZeroSuppress.typed, Int.is_int32; simpl; lia |].
  split; [reflexivity |]. split; [reflexivity |]. split; [reflexivity |].
  split; [reflexivity |]. split; [reflexivity |].
  assert (H : ZeroSuppress.GateMarker.GetStoredSampleCount
                (ZeroSuppress.mkProcessingParameters 16 16 0 (2 ^ 30) (2 ^ 30))
                (ZeroSuppress.StopMarker.mk 10 0 MarkerTag.RecordStop)
                (ZeroSuppress.GateMarker.mk (ZeroSuppress.GateStartMarker.mk 2 0)
                   (ZeroSuppress.StopMarker.mk 5 0 MarkerTag.GateStopCst))
              = Undefined) by (vm_compute; reflexivity).
  split; [exact H |].
  intros (n & Hn & _). rewrite H in Hn. discriminate Hn.
Qed.

(** C1, amended.  For every gate marker with start block s and stop block
    p, every record-stop marker with block r >= p and all processing
    parameters with positive storageBlockSamples whose preGateSamples +
    postGateSamples is a 32-bit signed integer, [GetStoredSampleCount]
    returns (p - s) * processingBlockSamples + min ((r - p) *
    processingBlockSamples, preGateSamples + postGateSamples) rounded up to
    the nearest multiple of storageBlockSamples.  In particular, for start
    2, stop 5, 16 samples per processing block, no pre-gate and post-gate
    samples, 16 samples per storage block and the record stop at block 10,
    it returns 48. *)
Theorem C1_GetStoredSampleCount_spec :
  (forall (params : ZeroSuppress.ProcessingParameters)
          (recordStop : ZeroSuppress.StopMarker.t) (g : ZeroSuppress.GateMarker.t),
     ZeroSuppress.typed params ->
     ZeroSuppress.GateMarker.valid g ->
     ZeroSuppress.StopMarker.valid recordStop ->
     let s := ZeroSuppress.GateStartMarker.m_blockIndex (ZeroSuppress.GateMarker.m_startMarker g) in
     let p := ZeroSuppress.StopMarker.m_blockIndex (ZeroSuppress.GateMarker.m_stopMarker g) in
     let r := ZeroSuppress.StopMarker.m_blockIndex recordStop in
     p <= r ->
     0 < ZeroSuppress.storageBlockSamples params ->
     Int.is_int32 (ZeroSuppress.preGateSamples params + ZeroSuppress.postGateSamples params) ->
     exists n,
       ZeroSuppress.GateMarker.GetStoredSampleCount params recordStop g = Ok n /\
       rounded_up (ZeroSuppress.storageBlockSamples params)
                  ((p - s) * ZeroSuppress.processingBlockSamples params
                   + Z.min ((r - p) * ZeroSuppress.processingBlockSamples params)
                           (ZeroSuppress.preGateSamples params
                            + ZeroSuppress.postGateSamples params))
                  n) /\
  (forall (timestampPeriod : Q) (startSampleIndex gateEndIndex recordGateEndIndex : Z)
          (stopTag recordStopTag : MarkerTag.t),
     ZeroSuppress.GateMarker.GetStoredSampleCount
       (ZeroSuppress.mkProcessingParameters 16 16 timestampPeriod 0 0)
       (ZeroSuppress.StopMarker.mk 10 recordGateEndIndex recordStopTag)
       (ZeroSuppress.GateMarker.mk (ZeroSuppress.GateStartMarker.mk 2 startSampleIndex)
                                   (ZeroSuppress.StopMarker.mk 5 gateEndIndex stopTag))
     = Ok 48).
Proof.
  split.
  - intros params recordStop g Ht Hg Hr s p r Hpr Hpos Hsum.
    destruct (GetStoredSampleCount_defined params recordStop g Ht Hg Hr Hpr Hpos Hsum)
      as (Heq & Hraw).
    fold s p r in Heq, Hraw. rewrite Heq.
    destruct Ht as (Hsbs & _). unfold Int.is_int32 in Hsbs.
    apply AlignUp_spec; lia.
  - intros. reflexivity.
Qed.

(** C1, amended, at the gate of the example with 10 samples per processing
    block, 3 pre-gate and 4 post-gate samples: 30 + min (50, 7) = 37 is
    rounded up to a multiple of 16. *)
Lemma C1_GetStoredSampleCount_spec_witness :
  exists n,
    ZeroSuppress.GateMarker.GetStoredSampleCount
      (ZeroSuppress.mkProcessingParameters 16 10 0 3 4)
      (ZeroSuppress.StopMarker.mk 10 0 MarkerTag.RecordStop)
      (ZeroSuppress.GateMarker.mk (ZeroSuppress.GateStartMarker.mk 2 0)
                                  (ZeroSuppress.StopMarker.mk 5 0 MarkerTag.GateStopCst))
    = Ok n /\
    rounded_up 16 37 n.
Proof.
  apply (proj1 C1_GetStoredSampleCount_spec
           (ZeroSuppress.mkProcessingParameters 16 10 0 3 4)
           (ZeroSuppress.StopMarker.mk 10 0 MarkerTag.RecordStop)
           (ZeroSuppress.GateMarker.mk (ZeroSuppress.GateStartMarker.mk 2 0)
                                       (ZeroSuppress.StopMarker.mk 5 0 MarkerTag.GateStopCst))).
  - unfold ZeroSuppress.typed, Int.is_int32. simpl. lia.
  - unfold ZeroSuppress.GateMarker.valid, ZeroSuppress.GateStartMarker.valid,
      ZeroSuppress.StopMarker.valid. simpl. intuition lia.
  - unfold ZeroSuppress.StopMarker.valid. simpl. intuition lia.
  - simpl. lia.
  - simpl. lia.
  - unfold Int.is_int32. simpl. lia.
Defined.

(** ** Sequencing *)

Lemma bind_Ok {St A B : Type} (m : M St A) (k : A -> M St B) (s s' : St) (a : A) :
  m s = (Ok a, s') -> bind m k s = k a s'.
Proof. intros H. unfold bind. rewrite H. reflexivity. Qed.

Lemma bind_Throw {St A B : Type} (m : M St A) (k : A -> M St B) (s s' : St) (e : exn) :
  m s = (Throw e, s') -> bind m k s = (Throw e, s').
Proof. intros H. unfold bind. rewrite H. reflexivity. Qed.

(** ** Reading and popping through the window *)

Lemma read_in_window (s : ArraySegment.t) (i : Z) (v : Z) :
  ArraySegment.wf s -> 0 <= i ->
  nth_error (ArraySegment.elements s) (Z.to_nat i) = Some v ->
  ArraySegment.read i s = (Ok v, s).
Proof.
  intros Hwf Hi Hnth. unfold ArraySegment.read.
  assert (Hlt : (Z.to_nat i < length (ArraySegment.elements s))%nat)
    by (apply nth_error_Some; rewrite Hnth; discriminate).
  pose proof (elements_length s Hwf) as Hlen.
  destruct (subscript_elements s i Hwf) as (v' & Hv' & Hnth').
  - unfold ArraySegment.Size. lia.
  - rewrite Hv'. congruence.
Qed.

Lemma PopFront_advance (s : ArraySegment.t) (n : Z) :
  ArraySegment.wf s -> 0 <= n <= ArraySegment.Size s ->
  ArraySegment.PopFront n s = (Ok tt, advance n s).
Proof. intros Hwf Hn. apply (PopFront_wf s n Hwf Hn). Qed.

Lemma advance_wf (s : ArraySegment.t) (n : Z) :
  ArraySegment.wf s -> 0 <= n <= ArraySegment.Size s -> ArraySegment.wf (advance n s).
Proof. intros Hwf Hn. apply (PopFront_wf s n Hwf Hn). Qed.

Lemma advance_elements (s : ArraySegment.t) (n : Z) :
  ArraySegment.wf s -> 0 <= n <= ArraySegment.Size s ->
  ArraySegment.elements (advance n s) = skipn (Z.to_nat n) (ArraySegment.elements s).
Proof. intros Hwf Hn. apply (PopFront_wf s n Hwf Hn). Qed.

Lemma advance_Size (s : ArraySegment.t) (n : Z) :
  ArraySegment.Size (advance n s) = ArraySegment.Size s - n.
Proof. reflexivity. Qed.

(** The size of a well-formed segment is the length of its window. *)
Lemma Size_elements (s : ArraySegment.t) :
  ArraySegment.wf s -> ArraySegment.Size s = Z.of_nat (length (ArraySegment.elements s)).
Proof. intros Hwf. symmetry. apply elements_length. exact Hwf. Qed.

(** ** Bytes and bit fields *)

Lemma low_byte (x : Z) : Z.land x 0xff = x mod 2 ^ 8.
Proof. change 0xff with (Z.ones 8). apply Z.land_ones. lia. Qed.

Lemma mod_mod_pow2 (x n m : Z) : 0 <= m <= n -> (x mod 2 ^ n) mod 2 ^ m = x mod 2 ^ m.
Proof.
  intros H. apply Z.mod_mod_divide.
  exists (2 ^ (n - m)). rewrite <- Z.pow_add_r by lia. f_equal. lia.
Qed.

Lemma to_int32_low_byte (x : Z) : Int.to_int32 x mod 2 ^ 8 = x mod 2 ^ 8.
Proof.
  unfold Int.to_int32.
  rewrite Zminus_mod, mod_mod_pow2 by lia.
  rewrite Zplus_mod.
  change (2 ^ 31 mod 2 ^ 8) with 0.
  rewrite Z.add_0_r, Z.sub_0_r, !Z.mod_mod by lia.
  reflexivity.
Qed.

(** The two [ExtractTag] overloads and the cast to [MarkerTag] all take the
    low byte. *)
Lemma ExtractTag_low_byte (x : Z) : ZeroSuppress.ExtractTag x = x mod 2 ^ 8.
Proof.
  unfold ZeroSuppress.ExtractTag, MarkerTag.cast.
  rewrite low_byte. apply Z.mod_mod. lia.
Qed.

Lemma ExtractTag_header (e0 : Z) :
  ZeroSuppress.ExtractTag (Int.to_int32 (Int.to_uint32 e0)) = e0 mod 2 ^ 8.
Proof.
  rewrite ExtractTag_low_byte, to_int32_low_byte.
  unfold Int.to_uint32. apply mod_mod_pow2. lia.
Qed.

Lemma StandardStreaming_ExtractTag_header (e0 : Z) :
  StandardStreaming.ExtractTag (Int.to_uint32 e0) = e0 mod 2 ^ 8.
Proof.
  unfold StandardStreaming.ExtractTag, MarkerTag.cast.
  rewrite low_byte, Z.mod_mod by lia.
  unfold Int.to_uint32. apply mod_mod_pow2. lia.
Qed.

(** Bits 8-31 of a 32-bit word, as the shift and the mask compute them. *)
Lemma bits_8_31 (h : Z) :
  0 <= h < 2 ^ 32 -> Z.land (Z.shiftr h 8) 0xffffff = h / 2 ^ 8.
Proof.
  intros Hh. rewrite Z.shiftr_div_pow2 by lia.
  change 0xffffff with (Z.ones 24). rewrite Z.land_ones by lia.
  apply Z.mod_small. split.
  - apply Z.div_pos; lia.
  - apply Z.div_lt_upper_bound; lia.
Qed.

Lemma div_256_range (h : Z) : 0 <= h < 2 ^ 32 -> 0 <= h / 2 ^ 8 < 2 ^ 24.
Proof.
  intros Hh. split.
  - apply Z.div_pos; lia.
  - apply Z.div_lt_upper_bound; lia.
Qed.

(** A field below 2^24 and a word shifted left by 24 share no bit: joining
    them is adding them. *)
Lemma lor_shifted (high low : Z) :
  0 <= low < 2 ^ 24 -> Z.lor (high * 2 ^ 24) low = low + high * 2 ^ 24.
Proof.
  intros Hl.
  assert (Hland : Z.land (high * 2 ^ 24) low = 0).
  { apply Z.bits_inj'. intros i Hi. rewrite Z.land_spec, Z.bits_0.
    destruct (Z.lt_ge_cases i 24) as [Hlt | Hge].
    - rewrite Z.mul_pow2_bits_low by exact Hlt. reflexivity.
    - rewrite <- (Z.mod_small low (2 ^ 24)) by exact Hl.
      rewrite Z.mod_pow2_bits_high by lia. apply andb_false_r. }
  pose proof (Z.add_lor_land (high * 2 ^ 24) low) as H.
  rewrite Hland in H. lia.
Qed.

(** ** Decoding a trigger marker *)

(** The decoder's private copy is the function of [StandardStreaming]. *)
Lemma DecodeTriggerMarker_same (s : ArraySegment.t) :
  StandardStreaming.DecodeTriggerMarker s
  = ZeroSuppress.MarkerStreamDecoder.DecodeTriggerMarker s.
Proof.
  unfold StandardStreaming.DecodeTriggerMarker,
    ZeroSuppress.MarkerStreamDecoder.DecodeTriggerMarker, bind.
  destruct (ArraySegment.read 0 s) as [[e0 | e | |] s']; try reflexivity.
  rewrite ExtractTag_header, StandardStreaming_ExtractTag_header.
  reflexivity.
Qed.

Lemma trigger_time_exact (low : Z) :
  (- (inject_Z (Z.land (Int.to_uint32 low) 0x000000ff) / 256))%Q
  = Qmake (- (low mod 2 ^ 8)) 256.
Proof.
  rewrite low_byte. unfold Int.to_uint32. rewrite mod_mod_pow2 by lia.
  unfold Qdiv, Qmult, Qinv, Qopp, inject_Z. cbn [Qnum Qden].
  rewrite Z.mul_1_r. reflexivity.
Qed.

Lemma sample_index_exact (e1 e2 : Z) :
  Z.lor (Int.to_uint64 (Z.shiftl (Int.to_uint64 (Int.to_uint32 e2)) 24))
        (Z.land (Int.to_uint32 (Z.shiftr (Int.to_uint32 e1) 8)) 0xffffff)
  = (e1 mod 2 ^ 32) / 2 ^ 8 + (e2 mod 2 ^ 32) * 2 ^ 24.
Proof.
  unfold Int.to_uint32, Int.to_uint64.
  pose proof (Z.mod_pos_bound e1 (2 ^ 32) ltac:(lia)) as H1.
  pose proof (Z.mod_pos_bound e2 (2 ^ 32) ltac:(lia)) as H2.
  pose proof (div_256_range _ H1) as Hd.
  rewrite (Z.mod_small (e2 mod 2 ^ 32) (2 ^ 64)) by lia.
  rewrite Z.shiftl_mul_pow2 by lia.
  rewrite (Z.mod_small (e2 mod 2 ^ 32 * 2 ^ 24) (2 ^ 64)) by lia.
  rewrite Z.shiftr_div_pow2 by lia.
  rewrite (Z.mod_small (e1 mod 2 ^ 32 / 2 ^ 8) (2 ^ 32)) by lia.
  change 0xffffff with (Z.ones 24). rewrite Z.land_ones by lia.
  rewrite (Z.mod_small (e1 mod 2 ^ 32 / 2 ^ 8) (2 ^ 24)) by lia.
  apply lor_shifted. exact Hd.
Qed.

Lemma DecodeTriggerMarker_ok (s : ArraySegment.t) (e0 e1 e2 : Z) (rest : list Z) :
  ArraySegment.wf s ->
  ArraySegment.elements s = e0 :: e1 :: e2 :: rest ->
  16 <= ArraySegment.Size s ->
  ZeroSuppress.MarkerStreamDecoder.IsTriggerMarkerTag (e0 mod 2 ^ 8) = true ->
  ZeroSuppress.MarkerStreamDecoder.DecodeTriggerMarker s
  = (Ok (trigger_fields e0 e1 e2), advance 16 s).
Proof.
  intros Hwf Hel Hsz Htag.
  unfold ZeroSuppress.MarkerStreamDecoder.DecodeTriggerMarker.
  rewrite (bind_Ok _ _ s s e0) by (apply read_in_window; [exact Hwf | lia | rewrite Hel; reflexivity]).
  rewrite ExtractTag_header, Htag. cbn [negb].
  rewrite (bind_Ok _ _ s s e1) by (apply read_in_window; [exact Hwf | lia | rewrite Hel; reflexivity]).
  rewrite (bind_Ok _ _ s s e2) by (apply read_in_window; [exact Hwf | lia | rewrite Hel; reflexivity]).
  cbv zeta.
  rewrite (bind_Ok _ _ s (advance 16 s) tt) by (apply PopFront_advance; [exact Hwf | lia]).
  unfold ret, trigger_fields. 
  rewrite trigger_time_exact, sample_index_exact.
  rewrite bits_8_31 by (unfold Int.to_uint32; apply Z.mod_pos_bound; lia).
  reflexivity.
Qed.

(** C4 as stated fails in its width.  In the 16-element marker whose
    element 0 is 1 (tag TriggerNormal) and whose element 2 is 0x10000, the
    absolute sample index decoded is 2^40, which no 40-bit field holds:
    element 2 enters with all its 32 bits. *)
Lemma C4_DecodeTriggerMarker_counterexample :
  let marker := [1; 0; 0x10000; 0; 0; 0; 0; 0; 0; 0; 0; 0; 0; 0; 0; 0] in
  let s := ArraySegment.mk marker 0 16 in
  ArraySegment.make marker 0 16 = Ok s /\
  StandardStreaming.IsTriggerMarkerTag (StandardStreaming.ExtractTag 1) = true /\
  (exists m s',
     StandardStreaming.DecodeTriggerMarker s = (Ok m, s') /\
     ZeroSuppress.MarkerStreamDecoder.DecodeTriggerMarker s = (Ok m, s') /\
     ArraySegment.Size s' = 0 /\
     TriggerMarker.absoluteSampleIndex m = 2 ^ 40 /\
     ~ TriggerMarker.absoluteSampleIndex m < 2 ^ 40).
Proof.
  cbv zeta. split; [reflexivity |]. split; [reflexivity |].
  eexists. eexists. split; [vm_compute; reflexivity |].
  split; [vm_compute; reflexivity |]. split; [reflexivity |].
  split; [reflexivity |]. cbn [TriggerMarker.absoluteSampleIndex]. lia.
Qed.

(** C4, amended.  For every 16-element trigger marker at the front of a
    stream whose first element carries a trigger tag, both
    [DecodeTriggerMarker] functions consume exactly the 16 elements and
    return the tag; recordIndex equal to bits 8-31 of element 0 (24 bits,
    unchanged by the mask 0x00ffffff); triggerTimeSamples equal to the low
    byte of element 1, negated and divided by 256; and absoluteSampleIndex
    equal to bits 8-31 of element 1 joined with element 2, as a 32-bit
    word, shifted left by 24 bits.  That index is a field of 56 bits; it is
    a 40-bit value exactly when the upper 16 bits of element 2 are zero. *)
Theorem C4_DecodeTriggerMarker_spec
        (s : ArraySegment.t) (e0 e1 e2 : Z) (tail rest : list Z) :
  ArraySegment.wf s ->
  ArraySegment.elements s = e0 :: e1 :: e2 :: tail ++ rest ->
  length tail = 13%nat ->
  StandardStreaming.IsTriggerMarkerTag (e0 mod 2 ^ 8) = true ->
  let m := trigger_fields e0 e1 e2 in
  StandardStreaming.DecodeTriggerMarker s = (Ok m, advance 16 s) /\
  ZeroSuppress.MarkerStreamDecoder.DecodeTriggerMarker s = (Ok m, advance 16 s) /\
  ArraySegment.wf (advance 16 s) /\
  ArraySegment.Size (advance 16 s) = ArraySegment.Size s - 16 /\
  ArraySegment.elements (advance 16 s) = rest /\
  TriggerMarker.tag m = e0 mod 2 ^ 8 /\
  (forall i, 0 <= i ->
     Z.testbit (TriggerMarker.recordIndex m) i = (i <? 24) && Z.testbit e0 (i + 8)) /\
  Z.land (TriggerMarker.recordIndex m) TriggerMarker.RecordIndexMask
  = TriggerMarker.recordIndex m /\
  (TriggerMarker.triggerTimeSamples m == - (inject_Z (e1 mod 2 ^ 8) / 256))%Q /\
  (- (1) < TriggerMarker.triggerTimeSamples m <= 0)%Q /\
  (forall i, 0 <= i ->
     Z.testbit (TriggerMarker.absoluteSampleIndex m) i
     = if i <? 24 then Z.testbit e1 (i + 8) else (i <? 56) && Z.testbit e2 (i - 24)) /\
  0 <= TriggerMarker.absoluteSampleIndex m < 2 ^ 56 /\
  (TriggerMarker.absoluteSampleIndex m < 2 ^ 40 <-> e2 mod 2 ^ 32 < 2 ^ 16).
Proof.
  intros Hwf Hel Hlen Htag m.
  assert (Hsz : 16 <= ArraySegment.Size s).
  { rewrite (Size_elements s Hwf), Hel. cbn [length]. rewrite length_app. lia. }
  assert (Hdec : ZeroSuppress.MarkerStreamDecoder.DecodeTriggerMarker s
                 = (Ok m, advance 16 s))
    by (apply (DecodeTriggerMarker_ok s e0 e1 e2 (tail ++ rest)); assumption).
  pose proof (Z.mod_pos_bound e0 (2 ^ 32) ltac:(lia)) as H0.
  pose proof (Z.mod_pos_bound e1 (2 ^ 32) ltac:(lia)) as H1.
  pose proof (Z.mod_pos_bound e2 (2 ^ 32) ltac:(lia)) as H2.
  pose proof (Z.mod_pos_bound e1 (2 ^ 8) ltac:(lia)) as Hb.
  pose proof (div_256_range _ H0) as Hd0.
  pose proof (div_256_range _ H1) as Hd1.
  split; [rewrite DecodeTriggerMarker_same; exact Hdec |].
  split; [exact Hdec |].
  split; [apply advance_wf; [exact Hwf | lia] |].
  split; [reflexivity |].
  split.
  { rewrite advance_elements by (try exact Hwf; lia). rewrite Hel.
    destruct tail as [| t1 [| t2 [| t3 [| t4 [| t5 [| t6 [| t7 [| t8 [| t9 [| t10
      [| t11 [| t12 [| t13 [| t14 tail]]]]]]]]]]]]]]; try discriminate Hlen.
    reflexivity. }
  split; [reflexivity |].
  unfold m, trigger_fields.
  cbn [TriggerMarker.recordIndex TriggerMarker.triggerTimeSamples
       TriggerMarker.absoluteSampleIndex].
  split.
  { intros i Hi. rewrite Z.div_pow2_bits by lia.
    rewrite Z.testbit_mod_pow2 by lia. f_equal.
    destruct (i <? 24) eqn:E1; destruct (i + 8 <? 32) eqn:E2; try reflexivity;
      rewrite ?Z.ltb_lt, ?Z.ltb_ge in *; lia. }
  split.
  { unfold TriggerMarker.RecordIndexMask. change 0x00ffffff with (Z.ones 24).
    rewrite Z.land_ones by lia. apply Z.mod_small. exact Hd0. }
  split.
  { unfold Qeq, Qdiv, Qmult, Qinv, Qopp, inject_Z. cbn [Qnum Qden]. lia. }
  split.
  { unfold Qlt, Qle. cbn [Qnum Qden Qopp]. lia. }
  split.
  { intros i Hi. rewrite <- lor_shifted by exact Hd1. rewrite Z.lor_spec.
    destruct (i <? 24) eqn:E.
    - apply Z.ltb_lt in E. rewrite Z.mul_pow2_bits_low by exact E.
      rewrite orb_false_l, Z.div_pow2_bits by lia.
      apply Z.mod_pow2_bits_low. lia.
    - apply Z.ltb_ge in E.
      rewrite <- (Z.mod_small (e1 mod 2 ^ 32 / 2 ^ 8) (2 ^ 24)) by exact Hd1.
      rewrite (Z.mod_pow2_bits_high _ 24 i) by lia.
      rewrite orb_false_r, Z.mul_pow2_bits by lia.
      rewrite Z.testbit_mod_pow2 by lia. f_equal.
      destruct (i - 24 <? 32) eqn:E1; destruct (i <? 56) eqn:E2; try reflexivity;
        rewrite ?Z.ltb_lt, ?Z.ltb_ge in *; lia. }
  split; [lia |].
  split; intros H; lia.
Qed.

(** C4, amended, at a marker with tag TriggerAverager, record index 7,
    low byte 0x7f in element 1 and sample index bits in both words. *)
Lemma C4_DecodeTriggerMarker_spec_witness :
  let marker := [0x00000702; 0x1234567f; 0x00000001; 0; 0; 0; 0; 0; 0; 0; 0; 0; 0; 0; 0; 0] in
  let s := ArraySegment.mk (marker ++ [8; 0]) 0 18 in
  ZeroSuppress.MarkerStreamDecoder.DecodeTriggerMarker s
  = (Ok (trigger_fields 0x00000702 0x1234567f 0x00000001), advance 16 s) /\
  ArraySegment.elements (advance 16 s) = [8; 0].
Proof.
  cbv zeta.
  pose proof (C4_DecodeTriggerMarker_spec
                (ArraySegment.mk
                   ([0x00000702; 0x1234567f; 0x00000001; 0; 0; 0; 0; 0; 0; 0; 0; 0; 0; 0; 0; 0]
                      ++ [8; 0]) 0 18)
                0x00000702 0x1234567f 0x00000001
                [0; 0; 0; 0; 0; 0; 0; 0; 0; 0; 0; 0; 0] [8; 0]) as H.
  destruct H as (_ & Hdec & _ & _ & Hel & _).
  - unfold ArraySegment.wf. simpl. lia.
  - reflexivity.
  - reflexivity.
  - reflexivity.
  - split; [exact Hdec | exact Hel].
Defined.

(** ** Decoding gate, stop and dummy markers *)

Section StreamDecoders.
Import ZeroSuppress ZeroSuppress.MarkerStreamDecoder.

Lemma advance_advance (s : ArraySegment.t) (a b : Z) :
  advance b (advance a s) = advance (a + b) s.
Proof.
  unfold advance; cbn [ArraySegment.m_data ArraySegment.m_offset ArraySegment.m_size].
  f_equal; lia.
Qed.

Lemma advance_0 (s : ArraySegment.t) : advance 0 s = s.
Proof.
  unfold advance. destruct s as [data offset size].
  cbn [ArraySegment.m_data ArraySegment.m_offset ArraySegment.m_size].
  f_equal; lia.
Qed.

(** Two elements at the front of a well-formed stream. *)
Lemma two_elements (s : MarkerStream) (e0 e1 : Z) (rest : list Z) :
  ArraySegment.wf s -> ArraySegment.elements s = e0 :: e1 :: rest ->
  ArraySegment.read 0 s = (Ok e0, s) /\ ArraySegment.read 1 s = (Ok e1, s) /\
  2 <= ArraySegment.Size s.
Proof.
  intros Hwf Hel. split; [| split].
  - apply read_in_window; [exact Hwf | lia | rewrite Hel; reflexivity].
  - apply read_in_window; [exact Hwf | lia | rewrite Hel; reflexivity].
  - rewrite (Size_elements s Hwf), Hel. cbn [length]. lia.
Qed.

Lemma WalkthroughDummyMarker_ok (s : MarkerStream) (e0 e1 : Z) (rest : list Z) :
  ArraySegment.wf s -> ArraySegment.elements s = e0 :: e1 :: rest ->
  e0 mod 2 ^ 8 = MarkerTag.DummyGate ->
  WalkthroughDummyMarker s = (Ok tt, advance 2 s).
Proof.
  intros Hwf Hel Htag. destruct (two_elements s e0 e1 rest Hwf Hel) as (H0 & _ & Hsz).
  unfold WalkthroughDummyMarker.
  rewrite (bind_Ok _ _ s s e0 H0), ExtractTag_low_byte, Htag.
  cbn [negb Z.eqb MarkerTag.DummyGate Pos.eqb].
  apply PopFront_advance; [exact Hwf | lia].
Qed.

Lemma DecodeGateStartMarker_ok (s : MarkerStream) (e0 e1 : Z) (rest : list Z)
      (m : GateStartMarker.t) :
  ArraySegment.wf s -> ArraySegment.elements s = e0 :: e1 :: rest ->
  GateStartMarker.make e0 e1 = Ok m ->
  DecodeGateStartMarker s = (Ok m, advance 2 s).
Proof.
  intros Hwf Hel Hm. destruct (two_elements s e0 e1 rest Hwf Hel) as (H0 & H1 & Hsz).
  unfold DecodeGateStartMarker.
  rewrite (bind_Ok _ _ s s e0 H0), (bind_Ok _ _ s s e1 H1).
  rewrite (bind_Ok _ _ s s m) by (unfold pure_call; rewrite Hm; reflexivity).
  rewrite (bind_Ok _ _ s (advance 2 s) tt) by (apply PopFront_advance; [exact Hwf | lia]).
  reflexivity.
Qed.

Lemma DecodeStopMarker_ok (s : MarkerStream) (e0 e1 : Z) (rest : list Z)
      (m : StopMarker.t) :
  ArraySegment.wf s -> ArraySegment.elements s = e0 :: e1 :: rest ->
  StopMarker.make e0 e1 = Ok m ->
  DecodeStopMarker s = (Ok m, advance 2 s).
Proof.
  intros Hwf Hel Hm. destruct (two_elements s e0 e1 rest Hwf Hel) as (H0 & H1 & Hsz).
  unfold DecodeStopMarker.
  rewrite (bind_Ok _ _ s s e0 H0), (bind_Ok _ _ s s e1 H1).
  rewrite (bind_Ok _ _ s s m) by (unfold pure_call; rewrite Hm; reflexivity).
  rewrite (bind_Ok _ _ s (advance 2 s) tt) by (apply PopFront_advance; [exact Hwf | lia]).
  reflexivity.
Qed.

Lemma DecodeGateMarker_ok (s : MarkerStream) (a0 a1 b0 b1 : Z) (rest : list Z)
      (start : GateStartMarker.t) (stop : StopMarker.t) (g : GateMarker.t) :
  ArraySegment.wf s -> ArraySegment.elements s = a0 :: a1 :: b0 :: b1 :: rest ->
  GateStartMarker.make a0 a1 = Ok start ->
  StopMarker.make b0 b1 = Ok stop ->
  GateMarker.make start stop = Ok g ->
  DecodeGateMarker s = (Ok g, advance 4 s).
Proof.
  intros Hwf Hel Hstart Hstop Hg.
  assert (Hsz : 4 <= ArraySegment.Size s)
    by (rewrite (Size_elements s Hwf), Hel; cbn [length]; lia).
  unfold DecodeGateMarker.
  rewrite (bind_Ok _ _ s (advance 2 s) start)
    by (apply (DecodeGateStartMarker_ok s a0 a1 (b0 :: b1 :: rest)); assumption).
  rewrite (bind_Ok _ _ (advance 2 s) (advance 4 s) stop).
  - unfold pure_call. rewrite Hg. reflexivity.
  - replace (advance 4 s) with (advance 2 (advance 2 s))
      by (rewrite advance_advance; reflexivity).
    apply (DecodeStopMarker_ok (advance 2 s) b0 b1 rest).
    + apply advance_wf; [exact Hwf | lia].
    + rewrite advance_elements by (try exact Hwf; lia). rewrite Hel. reflexivity.
    + exact Hstop.
Qed.

(** A constructor that succeeds has seen its tag. *)
Lemma GateStartMarker_make_tag (e0 e1 : Z) (m : GateStartMarker.t) :
  GateStartMarker.make e0 e1 = Ok m -> e0 mod 2 ^ 8 = MarkerTag.GateStartCst.
Proof.
  unfold GateStartMarker.make. rewrite ExtractTag_low_byte.
  destruct (e0 mod 2 ^ 8 =? MarkerTag.GateStartCst) eqn:E; [| discriminate].
  intros _. apply Z.eqb_eq. exact E.
Qed.

Lemma StopMarker_make_tag (e0 e1 : Z) (m : StopMarker.t) :
  StopMarker.make e0 e1 = Ok m -> StopMarker.m_tag m = e0 mod 2 ^ 8.
Proof.
  unfold StopMarker.make. rewrite ExtractTag_low_byte.
  destruct (negb _ && negb _); [discriminate |].
  destruct (_ <? 1); [discriminate |].
  intros H. apply Ok_inj in H. subst m. reflexivity.
Qed.
End StreamDecoders.

(** ** Single calls of the decoder *)

Section DecoderSteps.
Import ZeroSuppress ZeroSuppress.MarkerStreamDecoder.

Lemma Size_zero_elements (s : MarkerStream) :
  ArraySegment.wf s -> (ArraySegment.Size s =? 0) = true -> ArraySegment.elements s = [].
Proof.
  intros Hwf H. apply Z.eqb_eq in H. rewrite (Size_elements s Hwf) in H.
  destruct (ArraySegment.elements s); [reflexivity | simpl in H; lia].
Qed.

(** The loop over the dummy markers: it pops them all, and leaves by
    [return] when nothing follows them and by [break] at the first marker
    that is not a dummy. *)
Lemma walkthrough_dummies (dummies : list (Z * Z)) :
  forall (s : MarkerStream) (fuel : nat) (rest : list Z),
    ArraySegment.wf s ->
    ArraySegment.elements s = marker_elements dummies ++ rest ->
    Forall is_dummy_marker dummies ->
    match rest with [] => True | e0 :: _ => e0 mod 2 ^ 8 <> MarkerTag.DummyGate end ->
    (length (ArraySegment.elements s) <= fuel)%nat ->
    walkthrough_dummy_markers fuel s
    = (Ok (match rest with [] => Returned | _ :: _ => Broke end),
       advance (2 * Z.of_nat (length dummies)) s).
Proof.
  induction dummies as [| [a b] dummies IH]; intros s fuel rest Hwf Hel Hd Hrest Hfuel.
  - cbn [marker_elements flat_map app length Z.of_nat Z.mul] in *.
    rewrite advance_0.
    destruct rest as [| e0 rest].
    + destruct fuel; cbn [walkthrough_dummy_markers];
        rewrite (Size_elements s Hwf), Hel; reflexivity.
    + rewrite Hel in Hfuel. cbn [length] in Hfuel.
      destruct fuel as [| fuel]; [lia |].
      cbn [walkthrough_dummy_markers].
      replace (ArraySegment.Size s =? 0) with false
        by (rewrite (Size_elements s Hwf), Hel; reflexivity).
      rewrite (bind_Ok _ _ s s e0)
        by (apply read_in_window; [exact Hwf | lia | rewrite Hel; reflexivity]).
      rewrite ExtractTag_low_byte.
      replace (e0 mod 2 ^ 8 =? MarkerTag.DummyGate) with false
        by (symmetry; apply Z.eqb_neq; exact Hrest).
      reflexivity.
  - cbn [marker_elements flat_map app fst snd] in Hel.
    fold (marker_elements dummies) in Hel.
    inversion Hd as [| ? ? Ha Hd']; subst. unfold is_dummy_marker in Ha. cbn [fst] in Ha.
    rewrite Hel in Hfuel. cbn [length] in Hfuel.
    destruct fuel as [| fuel]; [lia |].
    assert (Hsz : 2 <= ArraySegment.Size s)
      by (rewrite (Size_elements s Hwf), Hel; cbn [length]; lia).
    cbn [walkthrough_dummy_markers].
    replace (ArraySegment.Size s =? 0) with false by (symmetry; apply Z.eqb_neq; lia).
    rewrite (bind_Ok _ _ s s a)
      by (apply read_in_window; [exact Hwf | lia | rewrite Hel; reflexivity]).
    rewrite ExtractTag_low_byte, Ha. cbn [negb Z.eqb MarkerTag.DummyGate Pos.eqb].
    rewrite (bind_Ok _ _ s (advance 2 s) tt)
      by (apply (WalkthroughDummyMarker_ok s a b (marker_elements dummies ++ rest));
          assumption).
    rewrite (IH (advance 2 s) fuel rest).
    + rewrite advance_advance. do 2 f_equal. cbn [length]. lia.
    + apply advance_wf; [exact Hwf | lia].
    + rewrite advance_elements by (try exact Hwf; lia). rewrite Hel. reflexivity.
    + exact Hd'.
    + exact Hrest.
    + rewrite advance_elements by (try exact Hwf; lia). rewrite Hel.
      change (Z.to_nat 2) with 2%nat. cbn [skipn]. lia.
Qed.

(** Running a stream function, or a record function, inside the decoder. *)
Lemma on_stream_run {A : Type} (m : M MarkerStream A) (d : t) (s s' : MarkerStream)
      (o : outcome A) :
  m s = (o, s') -> on_stream m (d, s) = (o, (d, s')).
Proof. intros H. unfold on_stream. cbn [fst snd]. rewrite H. reflexivity. Qed.

Lemma on_current_run {A : Type} (m : M RecordDescriptor.t A) (d : t) (s : MarkerStream)
      (r' : RecordDescriptor.t) (o : outcome A) :
  m (m_currentRecord d) = (o, r') -> on_current m (d, s) = (o, (with_current r' d, s)).
Proof. intros H. unfold on_current. cbn [fst snd]. rewrite H. reflexivity. Qed.

(** The first call for a record, in zero-suppress mode: any number of
    dummy markers, then the trigger marker. *)
Lemma ZeroSuppress_trigger_step (d : t) (s : MarkerStream) (dummies : list (Z * Z))
      (e0 e1 e2 : Z) (tail rest : list Z) :
  m_mode d = ZeroSuppress ->
  m_state d = ExpectTrigger \/ m_state d = ExpectAlign ->
  ArraySegment.wf s ->
  ArraySegment.elements s = marker_elements dummies ++ (e0 :: e1 :: e2 :: tail) ++ rest ->
  Forall is_dummy_marker dummies ->
  length tail = 13%nat ->
  IsTriggerMarkerTag (e0 mod 2 ^ 8) = true ->
  DecodeNextMarker (d, s)
  = (Ok tt, (mk (m_recordQueue d) (trigger_record e0 e1 e2) ZeroSuppress ExpectGate,
             advance (2 * Z.of_nat (length dummies) + 16) s)).
Proof.
  intros Hmode Hstate Hwf Hel Hd Hlen Htag.
  pose proof (Size_elements s Hwf) as Hsz. rewrite Hel in Hsz.
  rewrite !length_app in Hsz. cbn [length] in Hsz. rewrite Hlen in Hsz.
  assert (Hml : length (marker_elements dummies) = (2 * length dummies)%nat).
  { clear. induction dummies as [| [a b] ds IH]; [reflexivity |].
    cbn [marker_elements flat_map length app]. fold (marker_elements ds). lia. }
  rewrite Hml in Hsz.
  assert (Hnotdummy : e0 mod 2 ^ 8 <> MarkerTag.DummyGate).
  { intros E. rewrite E in Htag. discriminate Htag. }
  unfold DecodeNextMarker. cbn [fst snd].
  replace (ArraySegment.Size s =? 0) with false by (symmetry; apply Z.eqb_neq; lia).
  rewrite Hmode. unfold DecodeNextMarkerZeroSuppressMode.
  rewrite (bind_Ok _ _ (d, s) (d, s) (m_state d)) by reflexivity.
  assert (Hwalk : walkthrough_dummy_markers (Z.to_nat (ArraySegment.Size s)) s
                  = (Ok Broke, advance (2 * Z.of_nat (length dummies)) s)).
  { apply (walkthrough_dummies dummies s _ ((e0 :: e1 :: e2 :: tail) ++ rest));
      try assumption.
    rewrite (Size_elements s Hwf). lia. }
  set (s1 := advance (2 * Z.of_nat (length dummies)) s) in *.
  assert (Hwf1 : ArraySegment.wf s1) by (apply advance_wf; [exact Hwf | lia]).
  assert (Hel1 : ArraySegment.elements s1 = e0 :: e1 :: e2 :: tail ++ rest).
  { unfold s1. rewrite advance_elements by (try exact Hwf; lia). rewrite Hel.
    replace (Z.to_nat (2 * Z.of_nat (length dummies)))
      with (length (marker_elements dummies)) by lia.
    rewrite skipn_app, Nat.sub_diag, skipn_all. reflexivity. }
  assert (Htrig : DecodeTriggerMarker s1 = (Ok (trigger_fields e0 e1 e2), advance 16 s1)).
  { apply (DecodeTriggerMarker_ok s1 e0 e1 e2 (tail ++ rest)); try assumption.
    rewrite (Size_elements s1 Hwf1), Hel1. cbn [length]. rewrite length_app. lia. }
  assert (Hadv : advance 16 s1 = advance (2 * Z.of_nat (length dummies) + 16) s)
    by (unfold s1; apply advance_advance).
  destruct (m_state d) eqn:Hst; [| exfalso; destruct Hstate; discriminate |].
  all: rewrite (bind_Ok _ _ (d, s) (d, s) (ArraySegment.Size s)) by reflexivity.
  all: rewrite (bind_Ok _ _ (d, s) (d, s1) Broke) by (apply on_stream_run; exact Hwalk).
  all: rewrite (bind_Ok _ _ (d, s1) (with_current RecordDescriptor.default d, s1) tt)
    by reflexivity.
  all: rewrite (bind_Ok _ _ _ (with_current RecordDescriptor.default d, advance 16 s1)
                        (trigger_fields e0 e1 e2))
    by (apply on_stream_run; exact Htrig).
  all: rewrite (bind_Ok _ _ _ (with_current (trigger_record e0 e1 e2)
                                 (with_current RecordDescriptor.default d),
                               advance 16 s1) tt)
    by reflexivity.
  all: rewrite Hadv.
  all: unfold set_state, modify, with_current.
  all: cbn [fst snd m_recordQueue m_currentRecord m_mode m_state].
  all: rewrite Hmode; reflexivity.
Qed.

Lemma GateMarker_make_eq (start : GateStartMarker.t) (stop : StopMarker.t) (g : GateMarker.t) :
  GateMarker.make start stop = Ok g -> g = GateMarker.mk start stop.
Proof.
  unfold GateMarker.make. destruct (_ <? _); [discriminate |].
  intros H. apply Ok_inj in H. symmetry. exact H.
Qed.

(** A call in state ExpectGate at a gate marker: the gate joins the record
    in progress; when its stop marker is a record stop, the record gets
    that stop marker, is queued, and the state becomes ExpectAlign. *)
Lemma ZeroSuppress_gate_step (d : t) (s : MarkerStream) (a0 a1 b0 b1 : Z) (rest : list Z)
      (start : GateStartMarker.t) (stop : StopMarker.t) (g : GateMarker.t) :
  m_mode d = ZeroSuppress ->
  m_state d = ExpectGate ->
  ArraySegment.wf s ->
  ArraySegment.elements s = a0 :: a1 :: b0 :: b1 :: rest ->
  GateStartMarker.make a0 a1 = Ok start ->
  StopMarker.make b0 b1 = Ok stop ->
  GateMarker.make start stop = Ok g ->
  let current := m_currentRecord d in
  let gates := RecordDescriptor.m_gateList current ++ [g] in
  DecodeNextMarker (d, s)
  = (Ok tt,
     (if StopMarker.IsRecordStop stop
      then let record := RecordDescriptor.mk (RecordDescriptor.m_trigger current) gates stop in
           mk (m_recordQueue d ++ [record]) record ZeroSuppress ExpectAlign
      else mk (m_recordQueue d)
              (RecordDescriptor.mk (RecordDescriptor.m_trigger current) gates
                                   (RecordDescriptor.m_recordStop current))
              ZeroSuppress ExpectGate,
      advance 4 s)).
Proof.
  intros Hmode Hst Hwf Hel Hstart Hstop Hg current gates.
  pose proof (Size_elements s Hwf) as Hsz. rewrite Hel in Hsz. cbn [length] in Hsz.
  pose proof (GateStartMarker_make_tag a0 a1 start Hstart) as Htag.
  pose proof (GateMarker_make_eq start stop g Hg) as Hgeq.
  unfold DecodeNextMarker. cbn [fst snd].
  replace (ArraySegment.Size s =? 0) with false by (symmetry; apply Z.eqb_neq; lia).
  rewrite Hmode. unfold DecodeNextMarkerZeroSuppressMode.
  rewrite (bind_Ok _ _ (d, s) (d, s) (m_state d)) by reflexivity.
  rewrite Hst.
  rewrite (bind_Ok _ _ (d, s) (d, s) a0)
    by (apply on_stream_run, read_in_window; [exact Hwf | lia | rewrite Hel; reflexivity]).
  rewrite ExtractTag_low_byte, Htag.
  cbn [Z.eqb MarkerTag.GateStartCst Pos.eqb].
  pose proof (DecodeGateMarker_ok s a0 a1 b0 b1 rest start stop g Hwf Hel Hstart Hstop Hg)
    as Hdec.
  subst g.
  destruct (StopMarker.IsRecordStop stop) eqn:Hrs.
  - rewrite (bind_Ok _ _ (d, s)
               (mk (m_recordQueue d)
                   (RecordDescriptor.mk (RecordDescriptor.m_trigger current) gates stop)
                   (m_mode d) (m_state d), advance 4 s) true).
    + unfold bind, gets, push_back, set_state, modify. cbn [fst snd m_recordQueue m_currentRecord m_mode m_state].
      rewrite Hmode. reflexivity.
    + rewrite (bind_Ok _ _ (d, s) (d, advance 4 s) (GateMarker.mk start stop)) by (apply on_stream_run; exact Hdec).
      rewrite (bind_Ok _ _ _ (with_current
                                (RecordDescriptor.mk (RecordDescriptor.m_trigger current)
                                                     gates (RecordDescriptor.m_recordStop current))
                                d, advance 4 s) tt) by reflexivity.
      unfold GateMarker.GetStopMarker. cbn [GateMarker.m_stopMarker].
      rewrite Hrs.
      unfold bind, on_current, RecordDescriptor.SetRecordStopMarker, ret, modify, with_current.
      cbn [fst snd m_recordQueue m_currentRecord m_mode m_state].
      rewrite Hrs. cbn [negb].
      cbn [RecordDescriptor.m_trigger RecordDescriptor.m_gateList].
      reflexivity.
  - rewrite (bind_Ok _ _ (d, s)
               (mk (m_recordQueue d)
                   (RecordDescriptor.mk (RecordDescriptor.m_trigger current) gates
                                        (RecordDescriptor.m_recordStop current))
                   (m_mode d) (m_state d), advance 4 s) false).
    + unfold ret. rewrite Hmode, Hst. reflexivity.
    + rewrite (bind_Ok _ _ (d, s) (d, advance 4 s) (GateMarker.mk start stop)) by (apply on_stream_run; exact Hdec).
      rewrite (bind_Ok _ _ _ (with_current
                                (RecordDescriptor.mk (RecordDescriptor.m_trigger current)
                                                     gates (RecordDescriptor.m_recordStop current))
                                d, advance 4 s) tt) by reflexivity.
      unfold GateMarker.GetStopMarker. cbn [GateMarker.m_stopMarker].
      rewrite Hrs. reflexivity.
Qed.

(** A call in normal mode at a trigger marker. *)
Lemma Normal_step (d : t) (s : MarkerStream) (e0 e1 e2 : Z) (tail rest : list Z) :
  m_mode d = Normal ->
  ArraySegment.wf s ->
  ArraySegment.elements s = (e0 :: e1 :: e2 :: tail) ++ rest ->
  length tail = 13%nat ->
  IsTriggerMarkerTag (e0 mod 2 ^ 8) = true ->
  DecodeNextMarker (d, s)
  = (Ok tt, (with_queue (m_recordQueue d ++ [trigger_record e0 e1 e2]) d, advance 16 s)).
Proof.
  intros Hmode Hwf Hel Hlen Htag.
  pose proof (Size_elements s Hwf) as Hsz. rewrite Hel in Hsz.
  rewrite length_app in Hsz. cbn [length] in Hsz. rewrite Hlen in Hsz.
  unfold DecodeNextMarker. cbn [fst snd].
  replace (ArraySegment.Size s =? 0) with false by (symmetry; apply Z.eqb_neq; lia).
  rewrite Hmode. unfold DecodeNextMarkerNormalMode.
  rewrite (bind_Ok _ _ (d, s) (d, advance 16 s) (trigger_fields e0 e1 e2)).
  - reflexivity.
  - apply on_stream_run. apply (DecodeTriggerMarker_ok s e0 e1 e2 (tail ++ rest)); try assumption.
    lia.
Qed.

(** A call on an empty stream. *)
Lemma DecodeNextMarker_empty (d : t) (s : MarkerStream) :
  ArraySegment.Size s = 0 ->
  DecodeNextMarker (d, s) = (Throw (runtime_error EmptyStream), (d, s)).
Proof.
  intros H. unfold DecodeNextMarker. cbn [fst snd]. rewrite H. reflexivity.
Qed.

(** A call in state ExpectTrigger or ExpectAlign on a stream of dummy
    markers and nothing else returns with the stream empty and the decoder
    as it was. *)
Lemma ZeroSuppress_all_dummies (d : t) (s : MarkerStream) (dummies : list (Z * Z)) :
  m_mode d = ZeroSuppress ->
  m_state d = ExpectTrigger \/ m_state d = ExpectAlign ->
  ArraySegment.wf s ->
  ArraySegment.elements s = marker_elements dummies ->
  dummies <> [] ->
  Forall is_dummy_marker dummies ->
  DecodeNextMarker (d, s) = (Ok tt, (d, advance (ArraySegment.Size s) s)).
Proof.
  intros Hmode Hstate Hwf Hel Hne Hd.
  assert (Hml : length (marker_elements dummies) = (2 * length dummies)%nat).
  { clear. induction dummies as [| [a b] ds IH]; [reflexivity |].
    cbn [marker_elements flat_map length app]. fold (marker_elements ds). lia. }
  pose proof (Size_elements s Hwf) as Hsz. rewrite Hel, Hml in Hsz.
  assert (Hpos : (0 < length dummies)%nat)
    by (destruct dummies; [contradiction | cbn [length]; lia]).
  unfold DecodeNextMarker. cbn [fst snd].
  replace (ArraySegment.Size s =? 0) with false by (symmetry; apply Z.eqb_neq; lia).
  rewrite Hmode. unfold DecodeNextMarkerZeroSuppressMode.
  rewrite (bind_Ok _ _ (d, s) (d, s) (m_state d)) by reflexivity.
  assert (Hwalk : walkthrough_dummy_markers (Z.to_nat (ArraySegment.Size s)) s
                  = (Ok Returned, advance (ArraySegment.Size s) s)).
  { rewrite (walkthrough_dummies dummies s _ []); try assumption.
    - do 2 f_equal. lia.
    - rewrite app_nil_r. exact Hel.
    - exact I.
    - rewrite (Size_elements s Hwf). lia. }
  destruct (m_state d) eqn:Hst; [| exfalso; destruct Hstate; discriminate |].
  all: rewrite (bind_Ok _ _ (d, s) (d, s) (ArraySegment.Size s)) by reflexivity.
  all: rewrite (bind_Ok _ _ (d, s) (d, advance (ArraySegment.Size s) s) Returned)
    by (apply on_stream_run; exact Hwalk).
  all: reflexivity.
Qed.
End DecoderSteps.

(** ** The decode loop in normal mode *)

Section NormalMode.
Import ZeroSuppress ZeroSuppress.MarkerStreamDecoder.

Lemma is_trigger_marker_shape (m : list Z) :
  is_trigger_marker m ->
  exists e0 e1 e2 tail,
    m = e0 :: e1 :: e2 :: tail /\ length tail = 13%nat /\
    IsTriggerMarkerTag (e0 mod 2 ^ 8) = true /\
    marker_record m = trigger_record e0 e1 e2.
Proof.
  intros (Hlen & Htag).
  destruct m as [| e0 [| e1 [| e2 tail]]]; try discriminate Hlen.
  exists e0, e1, e2, tail. cbn [length] in Hlen. cbn [nth] in Htag.
  split; [reflexivity |]. split; [lia |]. split; [exact Htag | reflexivity].
Qed.

Lemma Normal_marker_step (d : t) (s : MarkerStream) (m rest : list Z) :
  m_mode d = Normal ->
  ArraySegment.wf s ->
  ArraySegment.elements s = m ++ rest ->
  is_trigger_marker m ->
  DecodeNextMarker (d, s)
  = (Ok tt, (with_queue (m_recordQueue d ++ [marker_record m]) d, advance 16 s)) /\
  ArraySegment.wf (advance 16 s) /\
  ArraySegment.elements (advance 16 s) = rest.
Proof.
  intros Hmode Hwf Hel Hm.
  pose proof Hm as (Hlen & _).
  destruct (is_trigger_marker_shape m Hm) as (e0 & e1 & e2 & tail & -> & Htl & Htag & ->).
  pose proof (Size_elements s Hwf) as Hsz. rewrite Hel, length_app, Hlen in Hsz.
  split; [apply (Normal_step d s e0 e1 e2 tail rest); assumption |].
  split; [apply advance_wf; [exact Hwf | lia] |].
  rewrite advance_elements by (try exact Hwf; lia). rewrite Hel.
  change (Z.to_nat 16) with 16%nat. rewrite <- Hlen.
  rewrite skipn_app, Nat.sub_diag, skipn_all. reflexivity.
Qed.

(** The decode loop over a stream of trigger markers, in normal mode. *)
Lemma Normal_decode_fetched (markers : list (list Z)) :
  forall (d : t) (s : MarkerStream) (fuel : nat),
    m_mode d = Normal ->
    ArraySegment.wf s ->
    ArraySegment.elements s = concat markers ->
    Forall is_trigger_marker markers ->
    (length markers <= fuel)%nat ->
    decode_fetched fuel (d, s)
    = (Ok tt, (with_queue (m_recordQueue d ++ map marker_record markers) d,
               advance (16 * Z.of_nat (length markers)) s)).
Proof.
  induction markers as [| m markers IH]; intros d s fuel Hmode Hwf Hel Hall Hfuel.
  - cbn [concat] in Hel. cbn [map length Z.of_nat Z.mul]. rewrite advance_0, app_nil_r.
    assert (Hsz : ArraySegment.Size s = 0) by (rewrite (Size_elements s Hwf), Hel; reflexivity).
    destruct fuel; cbn [decode_fetched snd]; rewrite Hsz; cbn [Z.ltb Z.compare];
      destruct d; reflexivity.
  - cbn [concat] in Hel. inversion Hall as [| ? ? Hm Hall']; subst.
    cbn [length] in Hfuel. destruct fuel as [| fuel]; [lia |].
    destruct (Normal_marker_step d s m (concat markers) Hmode Hwf Hel Hm)
      as (Hstep & Hwf' & Hel').
    pose proof Hm as (Hlen & _).
    pose proof (Size_elements s Hwf) as Hsz. rewrite Hel, length_app, Hlen in Hsz.
    cbn [decode_fetched snd].
    replace (0 <? ArraySegment.Size s) with true by (symmetry; apply Z.ltb_lt; lia).
    rewrite (bind_Ok _ _ _ _ tt Hstep).
    rewrite (IH _ (advance 16 s) fuel); try assumption; try lia; try reflexivity.
    rewrite advance_advance.
    unfold with_queue. cbn [m_recordQueue m_currentRecord m_mode m_state map length].
    rewrite <- app_assoc. cbn [app].
    do 3 f_equal. lia.
Qed.
End NormalMode.

(** ** Markers with a wrong tag *)

Section WrongTags.
Import ZeroSuppress ZeroSuppress.MarkerStreamDecoder.

Lemma read_subscript (s : MarkerStream) (i v : Z) :
  ArraySegment.subscript s i = Ok v -> ArraySegment.read i s = (Ok v, s).
Proof. intros H. unfold ArraySegment.read. rewrite H. reflexivity. Qed.

Lemma DecodeTriggerMarker_wrong_tag (s : MarkerStream) (e0 : Z) :
  ArraySegment.subscript s 0 = Ok e0 ->
  IsTriggerMarkerTag (e0 mod 2 ^ 8) = false ->
  DecodeTriggerMarker s
  = (Throw (runtime_error (ExpectedTriggerMarker (e0 mod 2 ^ 8))), s).
Proof.
  intros H0 Htag. unfold DecodeTriggerMarker.
  rewrite (bind_Ok _ _ s s e0 (read_subscript s 0 e0 H0)).
  rewrite ExtractTag_header, Htag. reflexivity.
Qed.

Lemma WalkthroughDummyMarker_wrong_tag (s : MarkerStream) (e0 : Z) :
  ArraySegment.subscript s 0 = Ok e0 ->
  e0 mod 2 ^ 8 <> MarkerTag.DummyGate ->
  WalkthroughDummyMarker s
  = (Throw (logic_error (ExpectedDummyGateMarker (e0 mod 2 ^ 8))), s).
Proof.
  intros H0 Htag. unfold WalkthroughDummyMarker.
  rewrite (bind_Ok _ _ s s e0 (read_subscript s 0 e0 H0)).
  rewrite ExtractTag_low_byte.
  replace (e0 mod 2 ^ 8 =? MarkerTag.DummyGate) with false
    by (symmetry; apply Z.eqb_neq; exact Htag).
  reflexivity.
Qed.

Lemma DecodeGateStartMarker_wrong_tag (s : MarkerStream) (e0 e1 : Z) :
  ArraySegment.subscript s 0 = Ok e0 ->
  ArraySegment.subscript s 1 = Ok e1 ->
  e0 mod 2 ^ 8 <> MarkerTag.GateStartCst ->
  DecodeGateStartMarker s
  = (Throw (invalid_argument (ExpectedGateStartTag (e0 mod 2 ^ 8))), s).
Proof.
  intros H0 H1 Htag. unfold DecodeGateStartMarker.
  rewrite (bind_Ok _ _ s s e0 (read_subscript s 0 e0 H0)).
  rewrite (bind_Ok _ _ s s e1 (read_subscript s 1 e1 H1)).
  apply bind_Throw. unfold pure_call, GateStartMarker.make.
  rewrite ExtractTag_low_byte.
  replace (e0 mod 2 ^ 8 =? MarkerTag.GateStartCst) with false
    by (symmetry; apply Z.eqb_neq; exact Htag).
  reflexivity.
Qed.

Lemma DecodeStopMarker_wrong_tag (s : MarkerStream) (e0 e1 : Z) :
  ArraySegment.subscript s 0 = Ok e0 ->
  ArraySegment.subscript s 1 = Ok e1 ->
  e0 mod 2 ^ 8 <> MarkerTag.GateStopCst ->
  e0 mod 2 ^ 8 <> MarkerTag.RecordStop ->
  DecodeStopMarker s
  = (Throw (invalid_argument (ExpectedStopTag (e0 mod 2 ^ 8))), s).
Proof.
  intros H0 H1 Htag1 Htag2. unfold DecodeStopMarker.
  rewrite (bind_Ok _ _ s s e0 (read_subscript s 0 e0 H0)).
  rewrite (bind_Ok _ _ s s e1 (read_subscript s 1 e1 H1)).
  apply bind_Throw. unfold pure_call, StopMarker.make.
  rewrite ExtractTag_low_byte.
  replace (e0 mod 2 ^ 8 =? MarkerTag.GateStopCst) with false
    by (symmetry; apply Z.eqb_neq; exact Htag1).
  replace (e0 mod 2 ^ 8 =? MarkerTag.RecordStop) with false
    by (symmetry; apply Z.eqb_neq; exact Htag2).
  reflexivity.
Qed.

(** In a gate marker whose stop half has a wrong tag, the start half is
    consumed and the stop half is not. *)
Lemma DecodeGateMarker_wrong_stop_tag (s s1 : MarkerStream) (start : GateStartMarker.t)
      (b0 b1 : Z) :
  DecodeGateStartMarker s = (Ok start, s1) ->
  ArraySegment.subscript s1 0 = Ok b0 ->
  ArraySegment.subscript s1 1 = Ok b1 ->
  b0 mod 2 ^ 8 <> MarkerTag.GateStopCst ->
  b0 mod 2 ^ 8 <> MarkerTag.RecordStop ->
  DecodeGateMarker s
  = (Throw (invalid_argument (ExpectedStopTag (b0 mod 2 ^ 8))), s1).
Proof.
  intros Hstart H0 H1 Htag1 Htag2. unfold DecodeGateMarker.
  rewrite (bind_Ok _ _ s s1 start Hstart).
  apply bind_Throw. apply (DecodeStopMarker_wrong_tag s1 b0 b1); assumption.
Qed.

Lemma Normal_wrong_tag (d : t) (s : MarkerStream) (e0 : Z) :
  m_mode d = Normal ->
  ArraySegment.Size s <> 0 ->
  ArraySegment.subscript s 0 = Ok e0 ->
  IsTriggerMarkerTag (e0 mod 2 ^ 8) = false ->
  DecodeNextMarker (d, s)
  = (Throw (runtime_error (ExpectedTriggerMarker (e0 mod 2 ^ 8))), (d, s)).
Proof.
  intros Hmode Hsz H0 Htag. unfold DecodeNextMarker. cbn [fst snd].
  replace (ArraySegment.Size s =? 0) with false by (symmetry; apply Z.eqb_neq; exact Hsz).
  rewrite Hmode. unfold DecodeNextMarkerNormalMode.
  apply bind_Throw. apply on_stream_run.
  apply DecodeTriggerMarker_wrong_tag; assumption.
Qed.

Lemma ExpectGate_wrong_tag (d : t) (s : MarkerStream) (e0 : Z) :
  m_mode d = ZeroSuppress ->
  m_state d = ExpectGate ->
  ArraySegment.Size s <> 0 ->
  ArraySegment.subscript s 0 = Ok e0 ->
  e0 mod 2 ^ 8 <> MarkerTag.GateStartCst ->
  e0 mod 2 ^ 8 <> MarkerTag.RecordStop ->
  DecodeNextMarker (d, s)
  = (Throw (runtime_error (ExpectedGateMarker (e0 mod 2 ^ 8))), (d, s)).
Proof.
  intros Hmode Hst Hsz H0 Htag1 Htag2. unfold DecodeNextMarker. cbn [fst snd].
  replace (ArraySegment.Size s =? 0) with false by (symmetry; apply Z.eqb_neq; exact Hsz).
  rewrite Hmode. unfold DecodeNextMarkerZeroSuppressMode.
  rewrite (bind_Ok _ _ (d, s) (d, s) (m_state d)) by reflexivity.
  rewrite Hst.
  rewrite (bind_Ok _ _ (d, s) (d, s) e0)
    by (apply on_stream_run, read_subscript; exact H0).
  rewrite ExtractTag_low_byte.
  replace (e0 mod 2 ^ 8 =? MarkerTag.GateStartCst) with false
    by (symmetry; apply Z.eqb_neq; exact Htag1).
  replace (e0 mod 2 ^ 8 =? MarkerTag.RecordStop) with false
    by (symmetry; apply Z.eqb_neq; exact Htag2).
  reflexivity.
Qed.

Lemma ExpectGate_wrong_stop_tag (d : t) (s s1 : MarkerStream) (a0 b0 b1 : Z)
      (start : GateStartMarker.t) :
  m_mode d = ZeroSuppress ->
  m_state d = ExpectGate ->
  ArraySegment.Size s <> 0 ->
  ArraySegment.subscript s 0 = Ok a0 ->
  a0 mod 2 ^ 8 = MarkerTag.GateStartCst ->
  DecodeGateStartMarker s = (Ok start, s1) ->
  ArraySegment.subscript s1 0 = Ok b0 ->
  ArraySegment.subscript s1 1 = Ok b1 ->
  b0 mod 2 ^ 8 <> MarkerTag.GateStopCst ->
  b0 mod 2 ^ 8 <> MarkerTag.RecordStop ->
  DecodeNextMarker (d, s)
  = (Throw (invalid_argument (ExpectedStopTag (b0 mod 2 ^ 8))), (d, s1)).
Proof.
  intros Hmode Hst Hsz Ha Htag Hstart H0 H1 Htag1 Htag2.
  unfold DecodeNextMarker. cbn [fst snd].
  replace (ArraySegment.Size s =? 0) with false by (symmetry; apply Z.eqb_neq; exact Hsz).
  rewrite Hmode. unfold DecodeNextMarkerZeroSuppressMode.
  rewrite (bind_Ok _ _ (d, s) (d, s) (m_state d)) by reflexivity.
  rewrite Hst.
  rewrite (bind_Ok _ _ (d, s) (d, s) a0)
    by (apply on_stream_run, read_subscript; exact Ha).
  rewrite ExtractTag_low_byte, Htag. cbn [Z.eqb MarkerTag.GateStartCst Pos.eqb].
  apply bind_Throw. apply bind_Throw. apply on_stream_run.
  apply (DecodeGateMarker_wrong_stop_tag s s1 start b0 b1); assumption.
Qed.

Lemma ExpectTrigger_wrong_tag (d : t) (s : MarkerStream) (dummies : list (Z * Z))
      (e0 : Z) (rest : list Z) :
  m_mode d = ZeroSuppress ->
  m_state d = ExpectTrigger \/ m_state d = ExpectAlign ->
  ArraySegment.wf s ->
  ArraySegment.elements s = marker_elements dummies ++ e0 :: rest ->
  Forall is_dummy_marker dummies ->
  e0 mod 2 ^ 8 <> MarkerTag.DummyGate ->
  IsTriggerMarkerTag (e0 mod 2 ^ 8) = false ->
  let s1 := advance (2 * Z.of_nat (length dummies)) s in
  DecodeNextMarker (d, s)
  = (Throw (runtime_error (ExpectedTriggerMarker (e0 mod 2 ^ 8))),
     (with_current RecordDescriptor.default d, s1)) /\
  ArraySegment.elements s1 = e0 :: rest.
Proof.
  intros Hmode Hstate Hwf Hel Hd Hnd Htag s1.
  assert (Hml : length (marker_elements dummies) = (2 * length dummies)%nat).
  { clear. induction dummies as [| [a b] ds IH]; [reflexivity |].
    cbn [marker_elements flat_map length app]. fold (marker_elements ds). lia. }
  pose proof (Size_elements s Hwf) as Hsz. rewrite Hel in Hsz.
  rewrite length_app, Hml in Hsz. cbn [length] in Hsz.
  assert (Hwalk : walkthrough_dummy_markers (Z.to_nat (ArraySegment.Size s)) s
                  = (Ok Broke, s1)).
  { apply (walkthrough_dummies dummies s _ (e0 :: rest)); try assumption.
    rewrite (Size_elements s Hwf). lia. }
  assert (Hwf1 : ArraySegment.wf s1) by (apply advance_wf; [exact Hwf | lia]).
  assert (Hel1 : ArraySegment.elements s1 = e0 :: rest).
  { unfold s1. rewrite advance_elements by (try exact Hwf; lia). rewrite Hel.
    replace (Z.to_nat (2 * Z.of_nat (length dummies)))
      with (length (marker_elements dummies)) by lia.
    rewrite skipn_app, Nat.sub_diag, skipn_all. reflexivity. }
  split; [| exact Hel1].
  assert (Hread : ArraySegment.subscript s1 0 = Ok e0).
  { pose proof (read_in_window s1 0 e0 Hwf1 ltac:(lia)) as Hr.
    rewrite Hel1 in Hr. specialize (Hr eq_refl).
    unfold ArraySegment.read in Hr. congruence. }
  unfold DecodeNextMarker. cbn [fst snd].
  replace (ArraySegment.Size s =? 0) with false by (symmetry; apply Z.eqb_neq; lia).
  rewrite Hmode. unfold DecodeNextMarkerZeroSuppressMode.
  rewrite (bind_Ok _ _ (d, s) (d, s) (m_state d)) by reflexivity.
  destruct (m_state d) eqn:Hst; [| exfalso; destruct Hstate; discriminate |].
  all: rewrite (bind_Ok _ _ (d, s) (d, s) (ArraySegment.Size s)) by reflexivity.
  all: rewrite (bind_Ok _ _ (d, s) (d, s1) Broke) by (apply on_stream_run; exact Hwalk).
  all: rewrite (bind_Ok _ _ (d, s1) (with_current RecordDescriptor.default d, s1) tt)
    by reflexivity.
  all: apply bind_Throw; apply on_stream_run.
  all: apply DecodeTriggerMarker_wrong_tag; assumption.
Qed.
End WrongTags.

(** ** A Hoare logic for calls *)

Section Hoare.
Context {St : Type}.

Lemma hoare_bind {A B : Type} (P : St -> Prop) (m : M St A) (Q : A -> St -> Prop)
      (k : A -> M St B) (R : B -> St -> Prop) (E : St -> Prop) :
  hoare P m Q E -> (forall a, hoare (Q a) (k a) R E) -> hoare P (bind m k) R E.
Proof.
  intros Hm Hk s Hs. unfold bind. specialize (Hm s Hs).
  destruct (m s) as [[a | e | |] s']; try exact Hm.
  apply (Hk a s' Hm).
Qed.

Lemma hoare_ret {A : Type} (P : St -> Prop) (a : A) (E : St -> Prop) :
  hoare P (ret a) (fun _ s => P s) E.
Proof. intros s Hs. exact Hs. Qed.

Lemma hoare_throw {A : Type} (P : St -> Prop) (e : exn) (Q : A -> St -> Prop) :
  hoare P (throw e) Q P.
Proof. intros s Hs. exact Hs. Qed.

Lemma hoare_gets {A : Type} (P : St -> Prop) (f : St -> A) (E : St -> Prop) :
  hoare P (gets f) (fun a s => P s /\ a = f s) E.
Proof. intros s Hs. split; [exact Hs | reflexivity]. Qed.

Lemma hoare_gets_same {A : Type} (P : St -> Prop) (f : St -> A) (E : St -> Prop) :
  hoare P (gets f) (fun _ s => P s) E.
Proof. intros s Hs. exact Hs. Qed.

Lemma hoare_modify (P Q : St -> Prop) (f : St -> St) (E : St -> Prop) :
  (forall s, P s -> Q (f s)) -> hoare P (modify f) (fun _ s => Q s) E.
Proof. intros H s Hs. apply H. exact Hs. Qed.

Lemma hoare_weaken {A : Type} (P P' : St -> Prop) (m : M St A)
      (Q Q' : A -> St -> Prop) (E E' : St -> Prop) :
  hoare P' m Q' E' ->
  (forall s, P s -> P' s) -> (forall a s, Q' a s -> Q a s) -> (forall s, E' s -> E s) ->
  hoare P m Q E.
Proof.
  intros Hm HP HQ HE s Hs. specialize (Hm s (HP s Hs)).
  destruct (m s) as [[a | e | |] s']; auto.
Qed.
End Hoare.

(** ** The record-stop invariant *)

Section RecordStopInvariant.
Import ZeroSuppress ZeroSuppress.MarkerStreamDecoder.

(** A stream function leaves the decoder alone. *)
Lemma hoare_on_stream {A : Type} (P : t -> Prop) (m : M MarkerStream A) :
  hoare (fun w => P (fst w)) (on_stream m) (fun _ w => P (fst w)) (fun w => P (fst w)).
Proof.
  intros [d s] Hd. unfold on_stream. cbn [fst snd] in *.
  destruct (m s) as [[a | e | |] s']; exact Hd.
Qed.

Lemma IsRecordStop_tag (stop : StopMarker.t) :
  StopMarker.IsRecordStop stop = true <-> StopMarker.m_tag stop = MarkerTag.RecordStop.
Proof. unfold StopMarker.IsRecordStop. apply Z.eqb_eq. Qed.

(** [SetRecordStopMarker] stores record-stop markers and no others. *)
Lemma SetRecordStopMarker_spec (stop : StopMarker.t) (r : RecordDescriptor.t) :
  (StopMarker.IsRecordStop stop = true ->
   RecordDescriptor.SetRecordStopMarker stop r
   = (Ok tt, RecordDescriptor.mk (RecordDescriptor.m_trigger r)
                                 (RecordDescriptor.m_gateList r) stop)) /\
  (StopMarker.IsRecordStop stop = false ->
   RecordDescriptor.SetRecordStopMarker stop r
   = (Throw (invalid_argument ExpectedRecordStopMarker), r)).
Proof.
  unfold RecordDescriptor.SetRecordStopMarker.
  split; intros H; rewrite H; reflexivity.
Qed.

Lemma hoare_SetRecordStopMarker (stop : StopMarker.t) :
  hoare inv (on_current (RecordDescriptor.SetRecordStopMarker stop)) (fun _ => inv) inv.
Proof.
  intros [d s] (Hq & Hc). unfold on_current. cbn [fst snd].
  destruct (SetRecordStopMarker_spec stop (m_currentRecord d)) as (Hyes & Hno).
  destruct (StopMarker.IsRecordStop stop) eqn:E.
  - rewrite (Hyes eq_refl). split; [exact Hq |].
    apply IsRecordStop_tag. exact E.
  - rewrite (Hno eq_refl). split; [exact Hq |]. destruct d; exact Hc.
Qed.

Lemma hoare_AddGate (gate : GateMarker.t) :
  hoare inv (on_current (RecordDescriptor.AddGate gate)) (fun _ => inv) inv.
Proof. intros [d s] (Hq & Hc). split; [exact Hq | exact Hc]. Qed.

Lemma hoare_SetTriggerMarker (trigger : TriggerMarker.t) :
  hoare inv (on_current (RecordDescriptor.SetTriggerMarker trigger)) (fun _ => inv) inv.
Proof. intros [d s] (Hq & Hc). split; [exact Hq | exact Hc]. Qed.

Lemma hoare_set_current_default :
  hoare inv (set_current RecordDescriptor.default) (fun _ => inv) inv.
Proof. intros [d s] (Hq & Hc). split; [exact Hq | reflexivity]. Qed.

Lemma hoare_set_state (st : State) : hoare inv (set_state st) (fun _ => inv) inv.
Proof. intros [d s] (Hq & Hc). split; [exact Hq | exact Hc]. Qed.

Lemma hoare_push_back (r : RecordDescriptor.t) :
  has_record_stop r -> hoare inv (push_back r) (fun _ => inv) inv.
Proof.
  intros Hr [d s] (Hq & Hc). split; [| exact Hc].
  cbn [fst m_recordQueue]. apply Forall_app. split; [exact Hq |].
  constructor; [exact Hr | constructor].
Qed.

Lemma hoare_Normal : hoare inv DecodeNextMarkerNormalMode (fun _ => inv) inv.
Proof.
  unfold DecodeNextMarkerNormalMode.
  eapply hoare_bind; [apply (hoare_on_stream record_stop_invariant) |].
  intros trigger. cbn beta. apply hoare_push_back. reflexivity.
Qed.

Lemma hoare_ZeroSuppress : hoare inv DecodeNextMarkerZeroSuppressMode (fun _ => inv) inv.
Proof.
  unfold DecodeNextMarkerZeroSuppressMode.
  eapply hoare_bind; [apply hoare_gets_same |].
  intros state.
  assert (Hfirst : hoare inv
    (size <- gets (fun w => ArraySegment.Size (snd w)) ;;
     exit <- on_stream (walkthrough_dummy_markers (Z.to_nat size)) ;;
     match exit with
     | Returned => ret tt
     | Broke =>
       set_current RecordDescriptor.default ;;
       trigger <- on_stream DecodeTriggerMarker ;;
       on_current (RecordDescriptor.SetTriggerMarker trigger) ;;
       set_state ExpectGate
     end) (fun _ => inv) inv).
  { eapply hoare_bind; [apply hoare_gets_same |]. intros size.
    eapply hoare_bind; [apply (hoare_on_stream record_stop_invariant) |].
    intros [|].
    - apply hoare_ret.
    - eapply hoare_bind; [apply hoare_set_current_default |]. intros ?; cbn beta.
      eapply hoare_bind; [apply (hoare_on_stream record_stop_invariant) |].
      intros trigger.
      eapply hoare_bind; [apply hoare_SetTriggerMarker |]. intros ?; cbn beta.
      apply hoare_set_state. }
  destruct state; [exact Hfirst | | exact Hfirst].
  eapply hoare_bind; [apply (hoare_on_stream record_stop_invariant) |].
  intros e0. apply hoare_bind with (Q := fun _ => inv).
  - destruct (ExtractTag e0 =? MarkerTag.GateStartCst).
    + eapply hoare_bind; [apply (hoare_on_stream record_stop_invariant) |].
      intros gate.
      eapply hoare_bind; [apply hoare_AddGate |]. intros ?; cbn beta.
      destruct (StopMarker.IsRecordStop (GateMarker.GetStopMarker gate)).
      * eapply hoare_bind; [apply hoare_SetRecordStopMarker |]. intros ?; cbn beta.
        apply hoare_ret.
      * apply hoare_ret.
    + destruct (ExtractTag e0 =? MarkerTag.RecordStop).
      * eapply hoare_bind; [apply (hoare_on_stream record_stop_invariant) |].
        intros stop.
        eapply hoare_bind; [apply hoare_SetRecordStopMarker |]. intros ?; cbn beta.
        apply hoare_ret.
      * apply hoare_throw.
  - intros [|].
    + eapply hoare_bind; [apply hoare_gets |]. intros current.
      apply hoare_bind with (Q := fun _ => inv).
      * intros w (Hw & ->). apply (hoare_push_back (m_currentRecord (fst w))).
        -- apply Hw.
        -- exact Hw.
      * intros ?; cbn beta. apply hoare_set_state.
    + apply hoare_ret.
Qed.

(** Whatever the stream and however the call ends, [DecodeNextMarker] keeps
    the invariant. *)
Lemma DecodeNextMarker_invariant (d d' : t) (s s' : MarkerStream) (o : outcome unit) :
  record_stop_invariant d ->
  DecodeNextMarker (d, s) = (o, (d', s')) ->
  record_stop_invariant d'.
Proof.
  intros Hinv Hrun. unfold DecodeNextMarker in Hrun. cbn [fst snd] in Hrun.
  destruct (ArraySegment.Size s =? 0).
  - injection Hrun as _ <- _. exact Hinv.
  - destruct (m_mode d).
    + pose proof (hoare_Normal (d, s) Hinv) as H. rewrite Hrun in H.
      destruct o; exact H.
    + pose proof (hoare_ZeroSuppress (d, s) Hinv) as H. rewrite Hrun in H.
      destruct o; exact H.
Qed.
End RecordStopInvariant.

(** ** The invariant along the life of a decoder *)

Section QueueInvariant.
Import ZeroSuppress ZeroSuppress.MarkerStreamDecoder.

Lemma make_invariant (mode : Mode) : record_stop_invariant (make mode).
Proof. split; [constructor | reflexivity]. Qed.

Lemma Pop_invariant (d d' : t) (o : outcome RecordDescriptor.t) :
  record_stop_invariant d -> Pop d = (o, d') ->
  record_stop_invariant d' /\ (forall r, o = Ok r -> has_record_stop r).
Proof.
  intros (Hq & Hc) Hpop. unfold Pop in Hpop.
  destruct (m_recordQueue d) as [| front rest] eqn:E.
  - injection Hpop as <- <-. split; [| discriminate].
    split; [rewrite E; constructor | exact Hc].
  - injection Hpop as <- <-. inversion Hq as [| ? ? Hfront Hrest]; subst.
    split; [split; [exact Hrest | exact Hc] |].
    intros r Hr. apply Ok_inj in Hr. subst r. exact Hfront.
Qed.

Lemma Take_loop_invariant (n : nat) :
  forall (result : list RecordDescriptor.t) (d d' : t)
         (o : outcome (list RecordDescriptor.t)),
    record_stop_invariant d -> Forall has_record_stop result ->
    Take_loop n result d = (o, d') ->
    record_stop_invariant d' /\ (forall rs, o = Ok rs -> Forall has_record_stop rs).
Proof.
  induction n as [| n IH]; intros result d d' o Hinv Hres Hrun.
  - cbn [Take_loop] in Hrun. unfold ret in Hrun. injection Hrun as <- <-.
    split; [exact Hinv |]. intros rs Hrs. apply Ok_inj in Hrs. subst rs. exact Hres.
  - cbn [Take_loop] in Hrun. unfold bind in Hrun.
    destruct (Pop d) as [[r | e | |] d1] eqn:Hpop;
      destruct (Pop_invariant d d1 _ Hinv Hpop) as (Hinv1 & Hr).
    + apply (IH (result ++ [r]) d1 d' o Hinv1); [| exact Hrun].
      apply Forall_app. split; [exact Hres |].
      constructor; [apply Hr; reflexivity | constructor].
    + injection Hrun as <- <-. split; [exact Hinv1 | discriminate].
    + injection Hrun as <- <-. split; [exact Hinv1 | discriminate].
    + injection Hrun as <- <-. split; [exact Hinv1 | discriminate].
Qed.

Lemma Take_invariant (count : Z) (d d' : t) (o : outcome (list RecordDescriptor.t)) :
  record_stop_invariant d -> Take count d = (o, d') ->
  record_stop_invariant d' /\ (forall rs, o = Ok rs -> Forall has_record_stop rs).
Proof.
  intros Hinv Hrun. unfold Take in Hrun.
  destruct (count <=? 0).
  - injection Hrun as <- <-. split; [exact Hinv | discriminate].
  - destruct (_ <? _).
    + injection Hrun as <- <-. split; [exact Hinv | discriminate].
    + apply (Take_loop_invariant (Z.to_nat count) [] d d' o Hinv); [constructor | exact Hrun].
Qed.

Lemma reachable_invariant (d : t) : reachable d -> record_stop_invariant d.
Proof.
  induction 1 as [mode | d s o d' s' _ IH Hrun | d o d' _ IH Hrun | d count o d' _ IH Hrun].
  - apply make_invariant.
  - apply (DecodeNextMarker_invariant d d' s s' o IH Hrun).
  - apply (Pop_invariant d d' o IH Hrun).
  - apply (Take_invariant count d d' o IH Hrun).
Qed.

(** What a call in normal mode that returns has done to the decoder. *)
Lemma Normal_returns (d d' : t) (s s' : MarkerStream) :
  m_mode d = Normal ->
  DecodeNextMarker (d, s) = (Ok tt, (d', s')) ->
  exists trigger,
    DecodeTriggerMarker s = (Ok trigger, s') /\
    d' = with_queue (m_recordQueue d
                     ++ [RecordDescriptor.mk trigger [] StopMarker.default]) d.
Proof.
  intros Hmode Hrun. unfold DecodeNextMarker in Hrun. cbn [fst snd] in Hrun.
  destruct (ArraySegment.Size s =? 0); [discriminate Hrun |].
  rewrite Hmode in Hrun. unfold DecodeNextMarkerNormalMode, bind, on_stream in Hrun.
  cbn [fst snd] in Hrun.
  destruct (DecodeTriggerMarker s) as [[trigger | e | |] s1] eqn:Hdec;
    try discriminate Hrun.
  exists trigger. unfold push_back, modify in Hrun. cbn [fst snd] in Hrun.
  cbn [RecordDescriptor.SetTriggerMarker modify RecordDescriptor.default
       RecordDescriptor.m_gateList RecordDescriptor.m_recordStop] in Hrun.
  injection Hrun as <- <-. split; reflexivity.
Qed.
End QueueInvariant.

(** C3.  In normal mode a call at a 16-element trigger marker consumes
    exactly that marker and appends one record with the marker's trigger,
    no gate and the default stop marker to the queue, changing nothing
    else; a call at a marker whose tag is not a trigger tag throws and
    changes nothing.  Consequently the decode loop over a stream that is
    exactly K well-formed trigger markers returns with the K records
    appended to the queue in the order of arrival and the stream empty. *)
Theorem C3_Normal_mode_spec :
  (forall (d : ZeroSuppress.MarkerStreamDecoder.t) (s : ArraySegment.t) (m rest : list Z),
     ZeroSuppress.MarkerStreamDecoder.m_mode d = ZeroSuppress.MarkerStreamDecoder.Normal ->
     ArraySegment.wf s ->
     ArraySegment.elements s = m ++ rest ->
     is_trigger_marker m ->
     ZeroSuppress.MarkerStreamDecoder.DecodeNextMarker (d, s)
     = (Ok tt,
        (with_queue (ZeroSuppress.MarkerStreamDecoder.m_recordQueue d ++ [marker_record m]) d,
         advance 16 s)) /\
     ArraySegment.elements (advance 16 s) = rest /\
     ZeroSuppress.RecordDescriptor.m_gateList (marker_record m) = []) /\
  (forall (d : ZeroSuppress.MarkerStreamDecoder.t) (s : ArraySegment.t) (e0 : Z),
     ZeroSuppress.MarkerStreamDecoder.m_mode d = ZeroSuppress.MarkerStreamDecoder.Normal ->
     ArraySegment.Size s <> 0 ->
     ArraySegment.subscript s 0 = Ok e0 ->
     StandardStreaming.IsTriggerMarkerTag (e0 mod 2 ^ 8) = false ->
     failed (fst (ZeroSuppress.MarkerStreamDecoder.DecodeNextMarker (d, s))) /\
     snd (ZeroSuppress.MarkerStreamDecoder.DecodeNextMarker (d, s)) = (d, s)) /\
  (forall (d : ZeroSuppress.MarkerStreamDecoder.t) (s : ArraySegment.t)
          (markers : list (list Z)),
     ZeroSuppress.MarkerStreamDecoder.m_mode d = ZeroSuppress.MarkerStreamDecoder.Normal ->
     ArraySegment.wf s ->
     ArraySegment.elements s = concat markers ->
     Forall is_trigger_marker markers ->
     let K := Z.of_nat (length markers) in
     ArraySegment.Size s = 16 * K /\
     ZeroSuppress.MarkerStreamDecoder.DecodeFetchedElements (d, s)
     = (Ok tt,
        (with_queue (ZeroSuppress.MarkerStreamDecoder.m_recordQueue d
                     ++ map marker_record markers) d,
         advance (16 * K) s)) /\
     ArraySegment.Size (advance (16 * K) s) = 0 /\
     length (map marker_record markers) = length markers).
Proof.
  split; [| split].
  - intros d s m rest Hmode Hwf Hel Hm.
    destruct (Normal_marker_step d s m rest Hmode Hwf Hel Hm) as (Hstep & _ & Hrest).
    split; [exact Hstep |]. split; [exact Hrest | reflexivity].
  - intros d s e0 Hmode Hsz H0 Htag.
    pose proof (Normal_wrong_tag d s e0 Hmode Hsz H0 Htag) as Hrun.
    unfold ZeroSuppress.MarkerStreamDecoder.MarkerStream in Hrun. rewrite Hrun.
    split; [eexists; reflexivity | reflexivity].
  - intros d s markers Hmode Hwf Hel Hall K.
    assert (Hlen : length (concat markers) = (16 * length markers)%nat).
    { clear - Hall. induction Hall as [| m ms (Hm & _) _ IH]; [reflexivity |].
      cbn [concat length]. rewrite length_app, Hm, IH. lia. }
    assert (Hsz : ArraySegment.Size s = 16 * K)
      by (rewrite (Size_elements s Hwf), Hel, Hlen; unfold K; lia).
    split; [exact Hsz |]. split; [| split].
    + unfold ZeroSuppress.MarkerStreamDecoder.DecodeFetchedElements. cbn [snd].
      apply Normal_decode_fetched; try assumption.
      rewrite Hsz. unfold K. lia.
    + rewrite advance_Size. lia.
    + apply length_map.
Qed.

(** C3 at three trigger markers with record indices 0, 1 and 2. *)
Lemma C3_Normal_mode_spec_witness :
  ZeroSuppress.MarkerStreamDecoder.DecodeFetchedElements
    (Sample.decoder ZeroSuppress.MarkerStreamDecoder.Normal, Sample.trigger_stream)
  = (Ok tt,
     (with_queue (map marker_record
                      [Sample.trigger 1 0; Sample.trigger 1 1; Sample.trigger 1 2])
                 (Sample.decoder ZeroSuppress.MarkerStreamDecoder.Normal),
      advance 48 Sample.trigger_stream)).
Proof.
  destruct (proj2 (proj2 C3_Normal_mode_spec)
              (Sample.decoder ZeroSuppress.MarkerStreamDecoder.Normal)
              Sample.trigger_stream
              [Sample.trigger 1 0; Sample.trigger 1 1; Sample.trigger 1 2])
    as (_ & Hrun & _).
  - reflexivity.
  - unfold ArraySegment.wf. simpl. lia.
  - reflexivity.
  - repeat constructor.
  - exact Hrun.
Defined.

(** C7.  A decode operation that meets a marker whose tag is not the tag
    required at that position throws, and the stream is left at that
    marker: none of its elements is consumed.  This holds for each
    single-marker decoder (trigger, in both copies; gate start; stop;
    dummy), whose stream is then untouched; for [DecodeGateMarker] when the
    stop half has the wrong tag, where the stream is left just after the
    start half, at the stop half; and for [DecodeNextMarker] in normal mode,
    in state ExpectGate (at the marker itself, or at the stop half of a
    gate marker), and in states ExpectTrigger and ExpectAlign, where the
    stream is left just after the dummy markers skipped, at a marker that
    is neither a dummy nor a trigger. *)
Theorem C7_wrong_tag_not_consumed :
  (forall (s : ArraySegment.t) (e0 : Z),
     ArraySegment.subscript s 0 = Ok e0 ->
     StandardStreaming.IsTriggerMarkerTag (e0 mod 2 ^ 8) = false ->
     StandardStreaming.DecodeTriggerMarker s
     = (Throw (runtime_error (ExpectedTriggerMarker (e0 mod 2 ^ 8))), s) /\
     ZeroSuppress.MarkerStreamDecoder.DecodeTriggerMarker s
     = (Throw (runtime_error (ExpectedTriggerMarker (e0 mod 2 ^ 8))), s)) /\
  (forall (s : ArraySegment.t) (e0 e1 : Z),
     ArraySegment.subscript s 0 = Ok e0 ->
     ArraySegment.subscript s 1 = Ok e1 ->
     e0 mod 2 ^ 8 <> MarkerTag.GateStartCst ->
     ZeroSuppress.MarkerStreamDecoder.DecodeGateStartMarker s
     = (Throw (invalid_argument (ExpectedGateStartTag (e0 mod 2 ^ 8))), s)) /\
  (forall (s : ArraySegment.t) (e0 e1 : Z),
     ArraySegment.subscript s 0 = Ok e0 ->
     ArraySegment.subscript s 1 = Ok e1 ->
     e0 mod 2 ^ 8 <> MarkerTag.GateStopCst ->
     e0 mod 2 ^ 8 <> MarkerTag.RecordStop ->
     ZeroSuppress.MarkerStreamDecoder.DecodeStopMarker s
     = (Throw (invalid_argument (ExpectedStopTag (e0 mod 2 ^ 8))), s)) /\
  (forall (s : ArraySegment.t) (e0 : Z),
     ArraySegment.subscript s 0 = Ok e0 ->
     e0 mod 2 ^ 8 <> MarkerTag.DummyGate ->
     ZeroSuppress.MarkerStreamDecoder.WalkthroughDummyMarker s
     = (Throw (logic_error (ExpectedDummyGateMarker (e0 mod 2 ^ 8))), s)) /\
  (forall (s s1 : ArraySegment.t) (start : ZeroSuppress.GateStartMarker.t) (b0 b1 : Z),
     ZeroSuppress.MarkerStreamDecoder.DecodeGateStartMarker s = (Ok start, s1) ->
     ArraySegment.subscript s1 0 = Ok b0 ->
     ArraySegment.subscript s1 1 = Ok b1 ->
     b0 mod 2 ^ 8 <> MarkerTag.GateStopCst ->
     b0 mod 2 ^ 8 <> MarkerTag.RecordStop ->
     ZeroSuppress.MarkerStreamDecoder.DecodeGateMarker s
     = (Throw (invalid_argument (ExpectedStopTag (b0 mod 2 ^ 8))), s1)) /\
  (forall (d : ZeroSuppress.MarkerStreamDecoder.t) (s : ArraySegment.t) (e0 : Z),
     ZeroSuppress.MarkerStreamDecoder.m_mode d = ZeroSuppress.MarkerStreamDecoder.Normal ->
     ArraySegment.Size s <> 0 ->
     ArraySegment.subscript s 0 = Ok e0 ->
     StandardStreaming.IsTriggerMarkerTag (e0 mod 2 ^ 8) = false ->
     ZeroSuppress.MarkerStreamDecoder.DecodeNextMarker (d, s)
     = (Throw (runtime_error (ExpectedTriggerMarker (e0 mod 2 ^ 8))), (d, s))) /\
  (forall (d : ZeroSuppress.MarkerStreamDecoder.t) (s : ArraySegment.t) (e0 : Z),
     ZeroSuppress.MarkerStreamDecoder.m_mode d
     = ZeroSuppress.MarkerStreamDecoder.ZeroSuppress ->
     ZeroSuppress.MarkerStreamDecoder.m_state d
     = ZeroSuppress.MarkerStreamDecoder.ExpectGate ->
     ArraySegment.Size s <> 0 ->
     ArraySegment.subscript s 0 = Ok e0 ->
     e0 mod 2 ^ 8 <> MarkerTag.GateStartCst ->
     e0 mod 2 ^ 8 <> MarkerTag.RecordStop ->
     ZeroSuppress.MarkerStreamDecoder.DecodeNextMarker (d, s)
     = (Throw (runtime_error (ExpectedGateMarker (e0 mod 2 ^ 8))), (d, s))) /\
  (forall (d : ZeroSuppress.MarkerStreamDecoder.t) (s s1 : ArraySegment.t) (a0 b0 b1 : Z)
          (start : ZeroSuppress.GateStartMarker.t),
     ZeroSuppress.MarkerStreamDecoder.m_mode d
     = ZeroSuppress.MarkerStreamDecoder.ZeroSuppress ->
     ZeroSuppress.MarkerStreamDecoder.m_state d
     = ZeroSuppress.MarkerStreamDecoder.ExpectGate ->
     ArraySegment.Size s <> 0 ->
     ArraySegment.subscript s 0 = Ok a0 ->
     a0 mod 2 ^ 8 = MarkerTag.GateStartCst ->
     ZeroSuppress.MarkerStreamDecoder.DecodeGateStartMarker s = (Ok start, s1) ->
     ArraySegment.subscript s1 0 = Ok b0 ->
     ArraySegment.subscript s1 1 = Ok b1 ->
     b0 mod 2 ^ 8 <> MarkerTag.GateStopCst ->
     b0 mod 2 ^ 8 <> MarkerTag.RecordStop ->
     ZeroSuppress.MarkerStreamDecoder.DecodeNextMarker (d, s)
     = (Throw (invalid_argument (ExpectedStopTag (b0 mod 2 ^ 8))), (d, s1))) /\
  (forall (d : ZeroSuppress.MarkerStreamDecoder.t) (s : ArraySegment.t)
          (dummies : list (Z * Z)) (e0 : Z) (rest : list Z),
     ZeroSuppress.MarkerStreamDecoder.m_mode d
     = ZeroSuppress.MarkerStreamDecoder.ZeroSuppress ->
     ZeroSuppress.MarkerStreamDecoder.m_state d
     = ZeroSuppress.MarkerStreamDecoder.ExpectTrigger \/
     ZeroSuppress.MarkerStreamDecoder.m_state d
     = ZeroSuppress.MarkerStreamDecoder.ExpectAlign ->
     ArraySegment.wf s ->
     ArraySegment.elements s = marker_elements dummies ++ e0 :: rest ->
     Forall is_dummy_marker dummies ->
     e0 mod 2 ^ 8 <> MarkerTag.DummyGate ->
     StandardStreaming.IsTriggerMarkerTag (e0 mod 2 ^ 8) = false ->
     let s1 := advance (2 * Z.of_nat (length dummies)) s in
     ZeroSuppress.MarkerStreamDecoder.DecodeNextMarker (d, s)
     = (Throw (runtime_error (ExpectedTriggerMarker (e0 mod 2 ^ 8))),
        (with_current ZeroSuppress.RecordDescriptor.default d, s1)) /\
     ArraySegment.elements s1 = e0 :: rest).
Proof.
  split; [| split; [| split; [| split; [| split; [| split; [| split; [| split]]]]]]].
  - intros s e0 H0 Htag. split.
    + rewrite DecodeTriggerMarker_same. apply DecodeTriggerMarker_wrong_tag; assumption.
    + apply DecodeTriggerMarker_wrong_tag; assumption.
  - intros s e0 e1 H0 H1 Htag. apply (DecodeGateStartMarker_wrong_tag s e0 e1); assumption.
  - intros s e0 e1 H0 H1 Htag1 Htag2. apply (DecodeStopMarker_wrong_tag s e0 e1); assumption.
  - intros s e0 H0 Htag. apply WalkthroughDummyMarker_wrong_tag; assumption.
  - intros s s1 start b0 b1 Hstart H0 H1 Htag1 Htag2.
    apply (DecodeGateMarker_wrong_stop_tag s s1 start b0 b1); assumption.
  - intros d s e0 Hmode Hsz H0 Htag. apply Normal_wrong_tag; assumption.
  - intros d s e0 Hmode Hst Hsz H0 Htag1 Htag2. apply ExpectGate_wrong_tag; assumption.
  - intros d s s1 a0 b0 b1 start Hmode Hst Hsz Ha Htag Hstart H0 H1 Htag1 Htag2.
    apply (ExpectGate_wrong_stop_tag d s s1 a0 b0 b1 start); assumption.
  - intros d s dummies e0 rest Hmode Hst Hwf Hel Hd Hnd Htag.
    apply (ExpectTrigger_wrong_tag d s dummies e0 rest); assumption.
Qed.

(** C7 at a stream that starts with a gate-stop marker while the decoder,
    in zero-suppress mode, expects a trigger: the call throws and the
    stream still starts with that marker. *)
Lemma C7_wrong_tag_not_consumed_witness :
  ZeroSuppress.MarkerStreamDecoder.DecodeNextMarker
    (Sample.decoder ZeroSuppress.MarkerStreamDecoder.ZeroSuppress, Sample.stop_first_stream)
  = (Throw (runtime_error (ExpectedTriggerMarker MarkerTag.GateStopCst)),
     (Sample.decoder ZeroSuppress.MarkerStreamDecoder.ZeroSuppress,
      Sample.stop_first_stream)).
Proof.
  destruct C7_wrong_tag_not_consumed as (_ & _ & _ & _ & _ & _ & _ & _ & H).
  destruct (H (Sample.decoder ZeroSuppress.MarkerStreamDecoder.ZeroSuppress)
              Sample.stop_first_stream [] 0x05000005 [0; 0x02000004; 0]) as (Hrun & _).
  - reflexivity.
  - left. reflexivity.
  - unfold ArraySegment.wf. simpl. lia.
  - reflexivity.
  - constructor.
  - discriminate.
  - reflexivity.
  - exact Hrun.
Defined.

(** C10.  Every record in the queue of a decoder a program can hold has a
    stop marker tagged RecordStop, and so has every record that [Pop] or
    [Take] returns.  [SetRecordStopMarker] throws on a marker that is not a
    record stop and leaves the record as it was; a record queued in normal
    mode has no gate and carries the default-constructed stop marker, which
    has tag RecordStop, block index 1 and gate-end index 0. *)
Theorem C10_queued_records_have_record_stop :
  (forall d, reachable d ->
     Forall has_record_stop (ZeroSuppress.MarkerStreamDecoder.m_recordQueue d)) /\
  (forall d r d', reachable d ->
     ZeroSuppress.MarkerStreamDecoder.Pop d = (Ok r, d') -> has_record_stop r) /\
  (forall d count records d', reachable d ->
     ZeroSuppress.MarkerStreamDecoder.Take count d = (Ok records, d') ->
     Forall has_record_stop records) /\
  (forall stop r,
     ZeroSuppress.StopMarker.IsRecordStop stop = false ->
     ZeroSuppress.RecordDescriptor.SetRecordStopMarker stop r
     = (Throw (invalid_argument ExpectedRecordStopMarker), r)) /\
  (forall d s d' s',
     ZeroSuppress.MarkerStreamDecoder.m_mode d = ZeroSuppress.MarkerStreamDecoder.Normal ->
     ZeroSuppress.MarkerStreamDecoder.DecodeNextMarker (d, s) = (Ok tt, (d', s')) ->
     exists r,
       ZeroSuppress.MarkerStreamDecoder.m_recordQueue d'
       = ZeroSuppress.MarkerStreamDecoder.m_recordQueue d ++ [r] /\
       ZeroSuppress.RecordDescriptor.m_gateList r = [] /\
       ZeroSuppress.RecordDescriptor.m_recordStop r = ZeroSuppress.StopMarker.default) /\
  ZeroSuppress.StopMarker.m_tag ZeroSuppress.StopMarker.default = MarkerTag.RecordStop /\
  ZeroSuppress.StopMarker.m_blockIndex ZeroSuppress.StopMarker.default = 1 /\
  ZeroSuppress.StopMarker.m_gateEndIndex ZeroSuppress.StopMarker.default = 0.
Proof.
  split; [| split; [| split; [| split; [| split; [| split; [| split]]]]]].
  - intros d Hd. apply (reachable_invariant d Hd).
  - intros d r d' Hd Hpop.
    apply (proj2 (Pop_invariant d d' (Ok r) (reachable_invariant d Hd) Hpop)). reflexivity.
  - intros d count records d' Hd Htake.
    apply (proj2 (Take_invariant count d d' (Ok records) (reachable_invariant d Hd) Htake)).
    reflexivity.
  - intros stop r Hno. apply (proj2 (SetRecordStopMarker_spec stop r) Hno).
  - intros d s d' s' Hmode Hrun.
    destruct (Normal_returns d d' s s' Hmode Hrun) as (trigger & _ & ->).
    eexists. split; [reflexivity |]. split; reflexivity.
  - reflexivity.
  - reflexivity.
  - reflexivity.
Qed.

(** C10 at the decoder that has decoded the sample record in zero-suppress
    mode, in three calls: the record in its queue ends at a record stop. *)
Lemma C10_queued_records_have_record_stop_witness :
  length (ZeroSuppress.MarkerStreamDecoder.m_recordQueue (fst Sample.after_second_gate))
  = 1%nat /\
  Forall has_record_stop
         (ZeroSuppress.MarkerStreamDecoder.m_recordQueue (fst Sample.after_second_gate)).
Proof.
  split; [reflexivity |].
  apply (proj1 C10_queued_records_have_record_stop).
  apply (reachable_DecodeNextMarker (fst Sample.after_first_gate)
           (snd Sample.after_first_gate) (Ok tt)
           (fst Sample.after_second_gate) (snd Sample.after_second_gate));
    [| vm_compute; reflexivity].
  apply (reachable_DecodeNextMarker (fst Sample.after_trigger)
           (snd Sample.after_trigger) (Ok tt)
           (fst Sample.after_first_gate) (snd Sample.after_first_gate));
    [| vm_compute; reflexivity].
  apply (reachable_DecodeNextMarker (fst Sample.start) (snd Sample.start) (Ok tt)
           (fst Sample.after_trigger) (snd Sample.after_trigger));
    [| vm_compute; reflexivity].
  apply reachable_make.
Defined.

(** ** Calls that return without progress *)

Section NoProgress.
Import ZeroSuppress ZeroSuppress.MarkerStreamDecoder.

(** When the loop over the dummy markers leaves by [return], the stream was
    dummy markers and nothing else, and is now empty. *)
Lemma walkthrough_Returned (fuel : nat) :
  forall (s s' : MarkerStream),
    ArraySegment.wf s ->
    walkthrough_dummy_markers fuel s = (Ok Returned, s') ->
    ArraySegment.Size s' = 0 /\
    exists dummies,
      ArraySegment.elements s = marker_elements dummies /\
      Forall is_dummy_marker dummies.
Proof.
  induction fuel as [| fuel IH]; intros s s' Hwf Hrun;
    cbn [walkthrough_dummy_markers] in Hrun;
    destruct (ArraySegment.Size s =? 0) eqn:Hsz.
  - apply pair_equal_spec in Hrun. destruct Hrun as (_ & <-).
    split; [apply Z.eqb_eq; exact Hsz |].
    exists []. split; [apply Size_zero_elements; assumption | constructor].
  - discriminate Hrun.
  - apply pair_equal_spec in Hrun. destruct Hrun as (_ & <-).
    split; [apply Z.eqb_eq; exact Hsz |].
    exists []. split; [apply Size_zero_elements; assumption | constructor].
  - apply Z.eqb_neq in Hsz.
    pose proof (Size_elements s Hwf) as Hlen.
    destruct (ArraySegment.elements s) as [| e0 rest] eqn:Hel; [cbn [length] in Hlen; lia |].
    assert (Hread : ArraySegment.read 0 s = (Ok e0, s))
      by (apply read_in_window; [exact Hwf | lia | rewrite Hel; reflexivity]).
    rewrite (bind_Ok _ _ s s e0 Hread) in Hrun.
    destruct (ExtractTag e0 =? MarkerTag.DummyGate) eqn:Htag; cbn [negb] in Hrun;
      [| discriminate Hrun].
    unfold bind at 1 in Hrun. unfold WalkthroughDummyMarker in Hrun.
    rewrite (bind_Ok _ _ s s e0 Hread), Htag in Hrun. cbn [negb] in Hrun.
    destruct (Z.lt_ge_cases (ArraySegment.Size s) 2) as [Hlt | Hge].
    + rewrite PopFront_throw in Hrun by exact Hlt. discriminate Hrun.
    + rewrite PopFront_advance in Hrun by (try exact Hwf; lia).
      destruct rest as [| e1 rest]; [cbn [length] in Hlen; lia |].
      destruct (IH (advance 2 s) s') as (Hsz' & dummies & Hel' & Hd).
      * apply advance_wf; [exact Hwf | lia].
      * exact Hrun.
      * split; [exact Hsz' |]. exists ((e0, e1) :: dummies). split.
        -- rewrite advance_elements in Hel' by (try exact Hwf; lia).
           rewrite Hel in Hel'. change (Z.to_nat 2) with 2%nat in Hel'.
           cbn [skipn] in Hel'. rewrite Hel'. reflexivity.
        -- constructor; [| exact Hd]. unfold is_dummy_marker. cbn [fst].
           rewrite ExtractTag_low_byte in Htag. apply Z.eqb_eq. exact Htag.
Qed.

Lemma queue_grows (d : t) (r : RecordDescriptor.t) (c : RecordDescriptor.t) (st : State) :
  mk (m_recordQueue d ++ [r]) c (m_mode d) st <> d.
Proof.
  intros H. apply (f_equal m_recordQueue) in H. cbn [m_recordQueue] in H.
  apply (f_equal (@length _)) in H. rewrite length_app in H. cbn [length] in H. lia.
Qed.

Lemma gate_list_grows (d : t) (q : list RecordDescriptor.t) (tr : TriggerMarker.t)
      (g : GateMarker.t) (stop : StopMarker.t) (st : State) :
  mk q (RecordDescriptor.mk tr (RecordDescriptor.m_gateList (m_currentRecord d) ++ [g]) stop)
     (m_mode d) st <> d.
Proof.
  intros H. apply (f_equal (fun x => length (RecordDescriptor.m_gateList (m_currentRecord x)))) in H.
  cbn [m_currentRecord RecordDescriptor.m_gateList] in H.
  rewrite length_app in H. cbn [length] in H. lia.
Qed.

(** A call that returns with the decoder exactly as it was is a call, in
    zero-suppress mode and state ExpectTrigger or ExpectAlign, on a stream
    of dummy markers only, which it leaves empty. *)
Lemma DecodeNextMarker_no_progress (d : t) (s s' : MarkerStream) :
  ArraySegment.wf s ->
  DecodeNextMarker (d, s) = (Ok tt, (d, s')) ->
  m_mode d = ZeroSuppress /\
  (m_state d = ExpectTrigger \/ m_state d = ExpectAlign) /\
  ArraySegment.Size s' = 0 /\
  exists dummies,
    dummies <> [] /\
    ArraySegment.elements s = marker_elements dummies /\
    Forall is_dummy_marker dummies.
Proof.
  intros Hwf Hrun.
  destruct (m_mode d) eqn:Hmode.
  - exfalso. destruct (Normal_returns d d s s' Hmode Hrun) as (trigger & _ & Heq).
    unfold with_queue in Heq. symmetry in Heq.
    apply (queue_grows d _ _ _ Heq).
  - split; [reflexivity |].
    unfold DecodeNextMarker in Hrun. cbn [fst snd] in Hrun.
    destruct (ArraySegment.Size s =? 0) eqn:Hsz; [discriminate Hrun |].
    rewrite Hmode in Hrun. unfold DecodeNextMarkerZeroSuppressMode in Hrun.
    rewrite (bind_Ok _ _ (d, s) (d, s) (m_state d)) in Hrun by reflexivity.
    assert (Hfirst :
      (size <- gets (fun w : world => ArraySegment.Size (snd w)) ;;
       exit <- on_stream (walkthrough_dummy_markers (Z.to_nat size)) ;;
       match exit with
       | Returned => ret tt
       | Broke =>
         set_current RecordDescriptor.default ;;
         trigger <- on_stream DecodeTriggerMarker ;;
         on_current (RecordDescriptor.SetTriggerMarker trigger) ;;
         set_state ExpectGate
       end) (d, s) = (Ok tt, (d, s')) ->
      m_state d <> ExpectGate ->
      ArraySegment.Size s' = 0 /\
      exists dummies,
        dummies <> [] /\
        ArraySegment.elements s = marker_elements dummies /\
        Forall is_dummy_marker dummies).
    { clear Hrun. intros Hrun Hst.
      rewrite (bind_Ok _ _ (d, s) (d, s) (ArraySegment.Size s)) in Hrun by reflexivity.
      unfold bind at 1 in Hrun. unfold on_stream at 1 in Hrun. cbn [fst snd] in Hrun.
      destruct (walkthrough_dummy_markers (Z.to_nat (ArraySegment.Size s)) s)
        as [[[|] | e | |] s1] eqn:Hwalk; try discriminate Hrun.
      - unfold ret in Hrun. apply pair_equal_spec in Hrun. destruct Hrun as (_ & Hrun).
        apply pair_equal_spec in Hrun. destruct Hrun as (_ & ->).
        destruct (walkthrough_Returned _ s s' Hwf Hwalk) as (Hsz' & dummies & Hel & Hd).
        split; [exact Hsz' |]. exists dummies. split; [| split; assumption].
        intros ->. cbn [marker_elements flat_map] in Hel.
        apply Z.eqb_neq in Hsz. rewrite (Size_elements s Hwf), Hel in Hsz.
        apply Hsz. reflexivity.
      - exfalso.
        rewrite (bind_Ok _ _ (d, s1) (with_current RecordDescriptor.default d, s1) tt)
          in Hrun by reflexivity.
        unfold bind at 1 in Hrun. unfold on_stream at 1 in Hrun. cbn [fst snd] in Hrun.
        destruct (DecodeTriggerMarker s1) as [[trigger | e | |] s2]; try discriminate Hrun.
        unfold bind, on_current, set_state, modify, RecordDescriptor.SetTriggerMarker in Hrun.
        cbn [fst snd m_state m_currentRecord m_recordQueue m_mode with_current] in Hrun.
        apply pair_equal_spec in Hrun. destruct Hrun as (_ & Hrun).
        apply pair_equal_spec in Hrun. destruct Hrun as (Hd & _).
        apply (f_equal m_state) in Hd. cbn [m_state] in Hd. congruence. }
    destruct (m_state d) eqn:Hst.
    + split; [left; reflexivity |]. apply Hfirst; [exact Hrun | discriminate].
    + exfalso.
      unfold bind at 1 in Hrun. unfold on_stream at 1 in Hrun. cbn [fst snd] in Hrun.
      unfold ArraySegment.read in Hrun.
      destruct (ArraySegment.subscript s 0) as [e0 | e | |]; try discriminate Hrun.
      destruct (ExtractTag e0 =? MarkerTag.GateStartCst).
      * unfold bind at 1 2 in Hrun. unfold on_stream at 1 in Hrun. cbn [fst snd] in Hrun.
        destruct (DecodeGateMarker s) as [[gate | e | |] s1]; try discriminate Hrun.
        unfold bind at 1 in Hrun.
        unfold on_current at 1 in Hrun. cbn [fst snd] in Hrun.
        unfold RecordDescriptor.AddGate, modify in Hrun.
        cbn [m_recordQueue m_currentRecord m_mode m_state
             RecordDescriptor.m_trigger RecordDescriptor.m_gateList
             RecordDescriptor.m_recordStop] in Hrun.
        destruct (StopMarker.IsRecordStop (GateMarker.GetStopMarker gate)) eqn:Hrs.
        -- unfold bind, on_current, RecordDescriptor.SetRecordStopMarker, ret, gets,
             push_back, set_state, modify in Hrun.
           cbn [fst snd m_recordQueue m_currentRecord m_mode m_state] in Hrun.
           rewrite Hrs in Hrun. cbn [negb] in Hrun.
           cbn [fst snd m_recordQueue m_currentRecord m_mode m_state
                RecordDescriptor.m_trigger RecordDescriptor.m_gateList
                RecordDescriptor.m_recordStop] in Hrun.
           apply pair_equal_spec in Hrun. destruct Hrun as (_ & Hrun).
           apply pair_equal_spec in Hrun. destruct Hrun as (Hd & _).
           apply (gate_list_grows d _ _ _ _ _ Hd).
        -- unfold bind, ret in Hrun.
           apply pair_equal_spec in Hrun. destruct Hrun as (_ & Hrun).
           apply pair_equal_spec in Hrun. destruct Hrun as (Hd & _).
           apply (gate_list_grows d _ _ _ _ _ Hd).
      * destruct (ExtractTag e0 =? MarkerTag.RecordStop).
        -- unfold bind at 1 2 in Hrun. unfold on_stream at 1 in Hrun. cbn [fst snd] in Hrun.
           destruct (DecodeStopMarker s) as [[stop | e | |] s1]; try discriminate Hrun.
           unfold bind at 1 in Hrun.
           unfold on_current at 1 in Hrun. cbn [fst snd] in Hrun.
           unfold RecordDescriptor.SetRecordStopMarker in Hrun.
           destruct (StopMarker.IsRecordStop stop) eqn:Hrs; cbn [negb] in Hrun;
             [| discriminate Hrun].
           unfold bind, ret, gets, push_back, set_state, modify in Hrun.
           cbn [fst snd m_recordQueue m_currentRecord m_mode m_state] in Hrun.
           apply pair_equal_spec in Hrun. destruct Hrun as (_ & Hrun).
           apply pair_equal_spec in Hrun. destruct Hrun as (Hd & _).
           apply (queue_grows d _ _ _ Hd).
        -- discriminate Hrun.
    + split; [right; reflexivity |]. apply Hfirst; [exact Hrun | discriminate].
Qed.
End NoProgress.

(** C9.  A call of [DecodeNextMarker] on a stream of size 0 throws, in
    either mode and in every state, and leaves the decoder (state, record
    in progress, queue) and the stream as they were.  A stream is found
    empty without an error in one situation only: inside a call, in
    zero-suppress mode and state ExpectTrigger or ExpectAlign, that has
    skipped dummy markers up to the end of the stream; that call returns
    with the decoder unchanged, so that decoding resumes when more elements
    arrive, and no other call returns leaving the decoder unchanged. *)
Theorem C9_empty_stream :
  (forall (d : ZeroSuppress.MarkerStreamDecoder.t) (s : ArraySegment.t),
     ArraySegment.Size s = 0 ->
     ZeroSuppress.MarkerStreamDecoder.DecodeNextMarker (d, s)
     = (Throw (runtime_error EmptyStream), (d, s))) /\
  (forall (d : ZeroSuppress.MarkerStreamDecoder.t) (s : ArraySegment.t)
          (dummies : list (Z * Z)),
     ZeroSuppress.MarkerStreamDecoder.m_mode d
     = ZeroSuppress.MarkerStreamDecoder.ZeroSuppress ->
     ZeroSuppress.MarkerStreamDecoder.m_state d
     = ZeroSuppress.MarkerStreamDecoder.ExpectTrigger \/
     ZeroSuppress.MarkerStreamDecoder.m_state d
     = ZeroSuppress.MarkerStreamDecoder.ExpectAlign ->
     ArraySegment.wf s ->
     ArraySegment.elements s = marker_elements dummies ->
     dummies <> [] ->
     Forall is_dummy_marker dummies ->
     ZeroSuppress.MarkerStreamDecoder.DecodeNextMarker (d, s)
     = (Ok tt, (d, advance (ArraySegment.Size s) s)) /\
     ArraySegment.Size (advance (ArraySegment.Size s) s) = 0) /\
  (forall (d : ZeroSuppress.MarkerStreamDecoder.t) (s s' : ArraySegment.t),
     ArraySegment.wf s ->
     ZeroSuppress.MarkerStreamDecoder.DecodeNextMarker (d, s) = (Ok tt, (d, s')) ->
     ZeroSuppress.MarkerStreamDecoder.m_mode d
     = ZeroSuppress.MarkerStreamDecoder.ZeroSuppress /\
     (ZeroSuppress.MarkerStreamDecoder.m_state d
      = ZeroSuppress.MarkerStreamDecoder.ExpectTrigger \/
      ZeroSuppress.MarkerStreamDecoder.m_state d
      = ZeroSuppress.MarkerStreamDecoder.ExpectAlign) /\
     ArraySegment.Size s' = 0 /\
     exists dummies,
       dummies <> [] /\
       ArraySegment.elements s = marker_elements dummies /\
       Forall is_dummy_marker dummies).
Proof.
  split; [| split].
  - intros d s Hsz. apply DecodeNextMarker_empty. exact Hsz.
  - intros d s dummies Hmode Hst Hwf Hel Hne Hd.
    split; [apply (ZeroSuppress_all_dummies d s dummies); assumption |].
    rewrite advance_Size. lia.
  - intros d s s' Hwf Hrun. apply (DecodeNextMarker_no_progress d s s' Hwf Hrun).
Qed.

(** C9 at the decoder that has just queued the sample record, in state
    ExpectAlign: on an empty stream the call throws and the decoder is as
    it was. *)
Lemma C9_empty_stream_witness :
  ArraySegment.Size (snd Sample.after_second_gate) = 0 /\
  ZeroSuppress.MarkerStreamDecoder.m_state (fst Sample.after_second_gate)
  = ZeroSuppress.MarkerStreamDecoder.ExpectAlign /\
  ZeroSuppress.MarkerStreamDecoder.DecodeNextMarker
    (fst Sample.after_second_gate, snd Sample.after_second_gate)
  = (Throw (runtime_error EmptyStream),
     (fst Sample.after_second_gate, snd Sample.after_second_gate)).
Proof.
  split; [reflexivity |]. split; [reflexivity |].
  apply (proj1 C9_empty_stream). reflexivity.
Defined.

(** C2.  In zero-suppress mode, from state ExpectTrigger or ExpectAlign,
    on a stream that starts with a trigger marker (16 elements), a gate
    marker whose stop is tagged GateStopCst and a gate marker whose stop is
    tagged RecordStop (2 elements each half), all accepted by the marker
    constructors: three calls of [DecodeNextMarker] consume these 24
    elements and append to the queue exactly one record, with the trigger,
    exactly these two gates in order and the second stop marker as its
    record stop; the decoder is then in state ExpectAlign; when the stream
    holds nothing else the decode loop makes exactly these calls and
    returns with the stream empty.  The next call, on a stream of any
    number of dummy markers followed by a trigger marker, skips the dummy
    markers and decodes the trigger, starting the next record. *)
Theorem C2_ZeroSuppress_record
        (d : ZeroSuppress.MarkerStreamDecoder.t) (s : ArraySegment.t)
        (e0 e1 e2 : Z) (tail : list Z) (a0 a1 b0 b1 c0 c1 f0 f1 : Z) (rest : list Z)
        (start1 start2 : ZeroSuppress.GateStartMarker.t)
        (stop1 stop2 : ZeroSuppress.StopMarker.t)
        (g1 g2 : ZeroSuppress.GateMarker.t) :
  ZeroSuppress.MarkerStreamDecoder.m_mode d
  = ZeroSuppress.MarkerStreamDecoder.ZeroSuppress ->
  ZeroSuppress.MarkerStreamDecoder.m_state d
  = ZeroSuppress.MarkerStreamDecoder.ExpectTrigger \/
  ZeroSuppress.MarkerStreamDecoder.m_state d
  = ZeroSuppress.MarkerStreamDecoder.ExpectAlign ->
  ArraySegment.wf s ->
  ArraySegment.elements s
  = (e0 :: e1 :: e2 :: tail) ++ [a0; a1; b0; b1; c0; c1; f0; f1] ++ rest ->
  length tail = 13%nat ->
  StandardStreaming.IsTriggerMarkerTag (e0 mod 2 ^ 8) = true ->
  ZeroSuppress.GateStartMarker.make a0 a1 = Ok start1 ->
  ZeroSuppress.StopMarker.make b0 b1 = Ok stop1 ->
  ZeroSuppress.StopMarker.m_tag stop1 = MarkerTag.GateStopCst ->
  ZeroSuppress.GateMarker.make start1 stop1 = Ok g1 ->
  ZeroSuppress.GateStartMarker.make c0 c1 = Ok start2 ->
  ZeroSuppress.StopMarker.make f0 f1 = Ok stop2 ->
  ZeroSuppress.StopMarker.m_tag stop2 = MarkerTag.RecordStop ->
  ZeroSuppress.GateMarker.make start2 stop2 = Ok g2 ->
  let record :=
    ZeroSuppress.RecordDescriptor.mk (trigger_fields e0 e1 e2) [g1; g2] stop2 in
  let d' :=
    ZeroSuppress.MarkerStreamDecoder.mk
      (ZeroSuppress.MarkerStreamDecoder.m_recordQueue d ++ [record]) record
      ZeroSuppress.MarkerStreamDecoder.ZeroSuppress
      ZeroSuppress.MarkerStreamDecoder.ExpectAlign in
  (ZeroSuppress.MarkerStreamDecoder.DecodeNextMarker ;;
   ZeroSuppress.MarkerStreamDecoder.DecodeNextMarker ;;
   ZeroSuppress.MarkerStreamDecoder.DecodeNextMarker) (d, s)
  = (Ok tt, (d', advance 24 s)) /\
  ArraySegment.elements (advance 24 s) = rest /\
  (rest = [] ->
   ZeroSuppress.MarkerStreamDecoder.DecodeFetchedElements (d, s)
   = (Ok tt, (d', advance 24 s)) /\
   ArraySegment.Size (advance 24 s) = 0) /\
  length (ZeroSuppress.RecordDescriptor.m_gateList record) = 2%nat /\
  ZeroSuppress.StopMarker.IsRecordStop (ZeroSuppress.RecordDescriptor.m_recordStop record)
  = true /\
  (forall (s2 : ArraySegment.t) (dummies : list (Z * Z)) (t0 t1 t2 : Z)
          (tail2 rest2 : list Z),
     ArraySegment.wf s2 ->
     ArraySegment.elements s2
     = marker_elements dummies ++ (t0 :: t1 :: t2 :: tail2) ++ rest2 ->
     Forall is_dummy_marker dummies ->
     length tail2 = 13%nat ->
     StandardStreaming.IsTriggerMarkerTag (t0 mod 2 ^ 8) = true ->
     let s2' := advance (2 * Z.of_nat (length dummies) + 16) s2 in
     ZeroSuppress.MarkerStreamDecoder.DecodeNextMarker (d', s2)
     = (Ok tt,
        (ZeroSuppress.MarkerStreamDecoder.mk
           (ZeroSuppress.MarkerStreamDecoder.m_recordQueue d')
           (trigger_record t0 t1 t2)
           ZeroSuppress.MarkerStreamDecoder.ZeroSuppress
           ZeroSuppress.MarkerStreamDecoder.ExpectGate,
         s2')) /\
     ArraySegment.elements s2' = rest2).
Proof.
  intros Hmode Hstate Hwf Hel Hlen Htag Hstart1 Hstop1 Htag1 Hg1
         Hstart2 Hstop2 Htag2 Hg2 record d'.
  pose proof (Size_elements s Hwf) as Hsz.
  rewrite Hel, !length_app in Hsz. cbn [length] in Hsz. rewrite Hlen in Hsz.
  assert (Hrs1 : ZeroSuppress.StopMarker.IsRecordStop stop1 = false)
    by (unfold ZeroSuppress.StopMarker.IsRecordStop; rewrite Htag1; reflexivity).
  assert (Hrs2 : ZeroSuppress.StopMarker.IsRecordStop stop2 = true)
    by (unfold ZeroSuppress.StopMarker.IsRecordStop; rewrite Htag2; reflexivity).
  (* the first call: the trigger marker *)
  set (d1 := ZeroSuppress.MarkerStreamDecoder.mk
               (ZeroSuppress.MarkerStreamDecoder.m_recordQueue d)
               (trigger_record e0 e1 e2)
               ZeroSuppress.MarkerStreamDecoder.ZeroSuppress
               ZeroSuppress.MarkerStreamDecoder.ExpectGate).
  assert (Hcall1 : ZeroSuppress.MarkerStreamDecoder.DecodeNextMarker (d, s)
                   = (Ok tt, (d1, advance 16 s))).
  { apply (ZeroSuppress_trigger_step d s [] e0 e1 e2 tail
             ([a0; a1; b0; b1; c0; c1; f0; f1] ++ rest)); try assumption.
    constructor. }
  assert (Hwf1 : ArraySegment.wf (advance 16 s)) by (apply advance_wf; [exact Hwf | lia]).
  assert (Hel1 : ArraySegment.elements (advance 16 s)
                 = a0 :: a1 :: b0 :: b1 :: [c0; c1; f0; f1] ++ rest).
  { rewrite advance_elements by (try exact Hwf; lia). rewrite Hel.
    change (Z.to_nat 16) with (3 + 13)%nat. rewrite <- Hlen.
    change (e0 :: e1 :: e2 :: tail) with ([e0; e1; e2] ++ tail).
    rewrite <- app_assoc.
    change (3 + length tail)%nat with (length [e0; e1; e2] + length tail)%nat.
    rewrite <- length_app, app_assoc.
    rewrite skipn_app, Nat.sub_diag, skipn_all. reflexivity. }
  (* the second call: the gate that ends at a gate stop *)
  set (d2 := ZeroSuppress.MarkerStreamDecoder.mk
               (ZeroSuppress.MarkerStreamDecoder.m_recordQueue d)
               (ZeroSuppress.RecordDescriptor.mk (trigger_fields e0 e1 e2) [g1]
                                                 ZeroSuppress.StopMarker.default)
               ZeroSuppress.MarkerStreamDecoder.ZeroSuppress
               ZeroSuppress.MarkerStreamDecoder.ExpectGate).
  assert (Hcall2 : ZeroSuppress.MarkerStreamDecoder.DecodeNextMarker (d1, advance 16 s)
                   = (Ok tt, (d2, advance 20 s))).
  { pose proof (ZeroSuppress_gate_step d1 (advance 16 s) a0 a1 b0 b1
                  ([c0; c1; f0; f1] ++ rest) start1 stop1 g1
                  eq_refl eq_refl Hwf1 Hel1 Hstart1 Hstop1 Hg1) as Hstep.
    cbv zeta in Hstep. rewrite Hrs1, advance_advance in Hstep. exact Hstep. }
  assert (Hwf2 : ArraySegment.wf (advance 20 s)) by (apply advance_wf; [exact Hwf | lia]).
  assert (Hel2 : ArraySegment.elements (advance 20 s) = c0 :: c1 :: f0 :: f1 :: rest).
  { replace (advance 20 s) with (advance 4 (advance 16 s))
      by (rewrite advance_advance; reflexivity).
    rewrite advance_elements by (try exact Hwf1; rewrite ?advance_Size; lia).
    rewrite Hel1. reflexivity. }
  (* the third call: the gate that ends at the record stop *)
  assert (Hcall3 : ZeroSuppress.MarkerStreamDecoder.DecodeNextMarker (d2, advance 20 s)
                   = (Ok tt, (d', advance 24 s))).
  { pose proof (ZeroSuppress_gate_step d2 (advance 20 s) c0 c1 f0 f1 rest start2 stop2 g2
                  eq_refl eq_refl Hwf2 Hel2 Hstart2 Hstop2 Hg2) as Hstep.
    cbv zeta in Hstep. rewrite Hrs2, advance_advance in Hstep. exact Hstep. }
  assert (Hel3 : ArraySegment.elements (advance 24 s) = rest).
  { replace (advance 24 s) with (advance 4 (advance 20 s))
      by (rewrite advance_advance; reflexivity).
    rewrite advance_elements by (try exact Hwf2; rewrite ?advance_Size; lia).
    rewrite Hel2. reflexivity. }
  split.
  { rewrite (bind_Ok _ _ _ _ tt Hcall1), (bind_Ok _ _ _ _ tt Hcall2). exact Hcall3. }
  split; [exact Hel3 |].
  split.
  { intros ->. cbn [length] in Hsz.
    split; [| rewrite advance_Size; lia].
    unfold ZeroSuppress.MarkerStreamDecoder.DecodeFetchedElements. cbn [snd].
    replace (Z.to_nat (ArraySegment.Size s)) with (S (S (S 21))) by lia.
    cbn [ZeroSuppress.MarkerStreamDecoder.decode_fetched snd].
    replace (0 <? ArraySegment.Size s) with true by (symmetry; apply Z.ltb_lt; lia).
    rewrite (bind_Ok _ _ _ _ tt Hcall1).
    cbn [ZeroSuppress.MarkerStreamDecoder.decode_fetched snd].
    rewrite advance_Size.
    replace (0 <? ArraySegment.Size s - 16) with true by (symmetry; apply Z.ltb_lt; lia).
    rewrite (bind_Ok _ _ _ _ tt Hcall2).
    cbn [ZeroSuppress.MarkerStreamDecoder.decode_fetched snd].
    rewrite advance_Size.
    replace (0 <? ArraySegment.Size s - 20) with true by (symmetry; apply Z.ltb_lt; lia).
    rewrite (bind_Ok _ _ _ _ tt Hcall3).
    cbn [ZeroSuppress.MarkerStreamDecoder.decode_fetched snd].
    rewrite advance_Size.
    replace (0 <? ArraySegment.Size s - 24) with false by (symmetry; apply Z.ltb_ge; lia).
    reflexivity. }
  split; [reflexivity |].
  split; [exact Hrs2 |].
  intros s2 dummies t0 t1 t2 tail2 rest2 Hwfs2 Hels2 Hd Hlen2 Htag0 s2'.
  split.
  - apply (ZeroSuppress_trigger_step d' s2 dummies t0 t1 t2 tail2 rest2);
      try assumption; try reflexivity.
    right. reflexivity.
  - assert (Hml : length (marker_elements dummies) = (2 * length dummies)%nat).
    { clear. induction dummies as [| [a b] ds IH]; [reflexivity |].
      cbn [marker_elements flat_map length app]. fold (marker_elements ds). lia. }
    pose proof (Size_elements s2 Hwfs2) as Hsz2.
    rewrite Hels2, !length_app, Hml in Hsz2. cbn [length] in Hsz2. rewrite Hlen2 in Hsz2.
    unfold s2'. rewrite advance_elements by (try exact Hwfs2; lia). rewrite Hels2.
    rewrite app_assoc.
    replace (Z.to_nat (2 * Z.of_nat (length dummies) + 16))
      with (length (marker_elements dummies ++ t0 :: t1 :: t2 :: tail2))
      by (rewrite length_app, Hml; cbn [length]; lia).
    rewrite skipn_app, Nat.sub_diag, skipn_all. reflexivity.
Qed.

(** C2 at the sample record: the three calls give the state computed call
    by call, with one record of two gates in the queue and the decoder in
    state ExpectAlign. *)
Lemma C2_ZeroSuppress_record_witness :
  (ZeroSuppress.MarkerStreamDecoder.DecodeNextMarker ;;
   ZeroSuppress.MarkerStreamDecoder.DecodeNextMarker ;;
   ZeroSuppress.MarkerStreamDecoder.DecodeNextMarker) Sample.start
  = (Ok tt, Sample.after_second_gate) /\
  ZeroSuppress.MarkerStreamDecoder.m_state (fst Sample.after_second_gate)
  = ZeroSuppress.MarkerStreamDecoder.ExpectAlign /\
  map (fun r => length (ZeroSuppress.RecordDescriptor.m_gateList r))
      (ZeroSuppress.MarkerStreamDecoder.m_recordQueue (fst Sample.after_second_gate))
  = [2%nat] /\
  ZeroSuppress.MarkerStreamDecoder.DecodeNextMarker
    (fst Sample.after_second_gate, Sample.aligned_stream)
  = (Ok tt,
     (ZeroSuppress.MarkerStreamDecoder.mk
        (ZeroSuppress.MarkerStreamDecoder.m_recordQueue (fst Sample.after_second_gate))
        (marker_record (Sample.trigger 2 8))
        ZeroSuppress.MarkerStreamDecoder.ZeroSuppress
        ZeroSuppress.MarkerStreamDecoder.ExpectGate,
      advance 20 Sample.aligned_stream)).
Proof.
  destruct (C2_ZeroSuppress_record
              (Sample.decoder ZeroSuppress.MarkerStreamDecoder.ZeroSuppress)
              Sample.record_stream
              0x00000702 0x1234567f 0x00000001 [0; 0; 0; 0; 0; 0; 0; 0; 0; 0; 0; 0; 0]
              0x02000004 0 0x05000005 0 0x06000004 0 0x0a00000a 0x11000000 []
              (ZeroSuppress.GateStartMarker.mk 2 0) (ZeroSuppress.GateStartMarker.mk 6 0)
              (ZeroSuppress.StopMarker.mk 5 0 MarkerTag.GateStopCst)
              (ZeroSuppress.StopMarker.mk 10 0x11 MarkerTag.RecordStop)
              (ZeroSuppress.GateMarker.mk
                 (ZeroSuppress.GateStartMarker.mk 2 0)
                 (ZeroSuppress.StopMarker.mk 5 0 MarkerTag.GateStopCst))
              (ZeroSuppress.GateMarker.mk
                 (ZeroSuppress.GateStartMarker.mk 6 0)
                 (ZeroSuppress.StopMarker.mk 10 0x11 MarkerTag.RecordStop)))
    as (Hcalls & _ & _ & _ & _ & Hnext).
  - reflexivity.
  - left. reflexivity.
  - unfold ArraySegment.wf. simpl. lia.
  - reflexivity.
  - reflexivity.
  - reflexivity.
  - reflexivity.
  - reflexivity.
  - reflexivity.
  - reflexivity.
  - reflexivity.
  - reflexivity.
  - reflexivity.
  - reflexivity.
  - split; [exact Hcalls |]. split; [reflexivity |]. split; [reflexivity |].
    destruct (Hnext Sample.aligned_stream [(0x08, 0); (0x08, 0)]
                    0x00000802 0x1234567f 0x00000001
                    [0; 0; 0; 0; 0; 0; 0; 0; 0; 0; 0; 0; 0] []) as (Hcall & _).
    + unfold ArraySegment.wf. simpl. lia.
    + reflexivity.
    + repeat constructor.
    + reflexivity.
    + reflexivity.
    + exact Hcall.
Defined.

(** ** Termination of the loops *)

Section Total.
Context {St : Type}.

Lemma total_bind {A B : Type} (P : St -> Prop) (m : M St A) (Q : A -> St -> Prop)
      (k : A -> M St B) (R : B -> St -> Prop) :
  total P m Q -> (forall a, total (Q a) (k a) R) -> total P (bind m k) R.
Proof.
  intros Hm Hk s Hs. unfold bind. specialize (Hm s Hs).
  destruct (m s) as [[a | e | |] s']; try exact Hm.
  apply (Hk a s' Hm).
Qed.

Lemma total_ret {A : Type} (P : St -> Prop) (a : A) : total P (ret a) (fun _ s => P s).
Proof. intros s Hs. exact Hs. Qed.

Lemma total_throw {A : Type} (P : St -> Prop) (e : exn) (Q : A -> St -> Prop) :
  total P (throw e) Q.
Proof. intros s Hs. exact I. Qed.

Lemma total_gets {A : Type} (P : St -> Prop) (f : St -> A) :
  total P (gets f) (fun _ s => P s).
Proof. intros s Hs. exact Hs. Qed.

Lemma total_modify (P Q : St -> Prop) (f : St -> St) :
  (forall s, P s -> Q (f s)) -> total P (modify f) (fun _ s => Q s).
Proof. intros H s Hs. apply H. exact Hs. Qed.

Lemma total_pure_call {A : Type} (P : St -> Prop) (o : outcome A) :
  o <> OutOfFuel -> total P (pure_call o) (fun _ s => P s).
Proof. intros Ho s Hs. unfold pure_call. destruct o; try exact Hs; try exact I. congruence. Qed.

Lemma total_weaken {A : Type} (P P' : St -> Prop) (m : M St A) (Q Q' : A -> St -> Prop) :
  total P' m Q' -> (forall s, P s -> P' s) -> (forall a s, Q' a s -> Q a s) ->
  total P m Q.
Proof.
  intros Hm HP HQ s Hs. specialize (Hm s (HP s Hs)).
  destruct (m s) as [[a | e | |] s']; auto.
Qed.
End Total.

Section Termination.
Import ZeroSuppress ZeroSuppress.MarkerStreamDecoder.

Lemma total_read (n i : Z) : total (sized n) (ArraySegment.read i) (fun _ => sized n).
Proof.
  intros s Hs. unfold ArraySegment.read, ArraySegment.subscript.
  destruct (nth_error _ _); [exact Hs | exact I].
Qed.

Lemma total_PopFront (n k : Z) :
  0 <= k -> total (sized n) (ArraySegment.PopFront k) (fun _ => sized (n - k)).
Proof.
  intros Hk s (Hsz & Hn). unfold Int.is_size_t in Hn. unfold ArraySegment.PopFront.
  destruct (ArraySegment.Size s <? k) eqn:E; [exact I |].
  apply Z.ltb_ge in E. unfold sized, ArraySegment.Size in *. cbn [ArraySegment.m_size].
  rewrite to_size_t_id by (unfold Int.is_size_t; lia).
  split; [lia | unfold Int.is_size_t; lia].
Qed.

Lemma total_DecodeTriggerMarker (n : Z) :
  total (sized n) DecodeTriggerMarker (fun _ => sized (n - 16)).
Proof.
  unfold DecodeTriggerMarker.
  eapply total_bind; [apply total_read |]. intros e0; cbn beta zeta.
  destruct (negb _); [apply total_throw |].
  eapply total_bind; [apply total_read |]. intros e1; cbn beta.
  eapply total_bind; [apply total_read |]. intros e2; cbn beta.
  eapply total_bind; [apply total_PopFront; lia |]. intros ?; cbn beta.
  apply total_ret.
Qed.

Lemma GateStartMarker_make_fuel (e0 e1 : Z) : GateStartMarker.make e0 e1 <> OutOfFuel.
Proof.
  unfold GateStartMarker.make. destruct (negb _); [discriminate |].
  destruct (_ <? _); discriminate.
Qed.

Lemma StopMarker_make_fuel (e0 e1 : Z) : StopMarker.make e0 e1 <> OutOfFuel.
Proof.
  unfold StopMarker.make. destruct (_ && _); [discriminate |].
  destruct (_ <? _); discriminate.
Qed.

Lemma GateMarker_make_fuel (start : GateStartMarker.t) (stop : StopMarker.t) :
  GateMarker.make start stop <> OutOfFuel.
Proof. unfold GateMarker.make. destruct (_ <? _); discriminate. Qed.

Lemma total_DecodeGateStartMarker (n : Z) :
  total (sized n) DecodeGateStartMarker (fun _ => sized (n - 2)).
Proof.
  unfold DecodeGateStartMarker.
  eapply total_bind; [apply total_read |]. intros e0; cbn beta.
  eapply total_bind; [apply total_read |]. intros e1; cbn beta.
  eapply total_bind; [apply total_pure_call, GateStartMarker_make_fuel |].
  intros m; cbn beta.
  eapply total_bind; [apply total_PopFront; lia |]. intros ?; cbn beta.
  apply total_ret.
Qed.

Lemma total_DecodeStopMarker (n : Z) :
  total (sized n) DecodeStopMarker (fun _ => sized (n - 2)).
Proof.
  unfold DecodeStopMarker.
  eapply total_bind; [apply total_read |]. intros e0; cbn beta.
  eapply total_bind; [apply total_read |]. intros e1; cbn beta.
  eapply total_bind; [apply total_pure_call, StopMarker_make_fuel |].
  intros m; cbn beta.
  eapply total_bind; [apply total_PopFront; lia |]. intros ?; cbn beta.
  apply total_ret.
Qed.

Lemma total_DecodeGateMarker (n : Z) :
  total (sized n) DecodeGateMarker (fun _ => sized (n - 2 - 2)).
Proof.
  unfold DecodeGateMarker.
  eapply total_bind; [apply total_DecodeGateStartMarker |]. intros start; cbn beta.
  eapply total_bind; [apply total_DecodeStopMarker |]. intros stop; cbn beta.
  apply total_pure_call, GateMarker_make_fuel.
Qed.

Lemma total_WalkthroughDummyMarker (n : Z) :
  total (sized n) WalkthroughDummyMarker (fun _ => sized (n - 2)).
Proof.
  unfold WalkthroughDummyMarker.
  eapply total_bind; [apply total_read |]. intros e0; cbn beta zeta.
  destruct (negb _); [apply total_throw | apply total_PopFront; lia].
Qed.

(** The loop over the dummy markers ends within [fuel] turns when [fuel] is
    the size of the stream; a stream it leaves by [return] is empty. *)
Lemma walkthrough_total (fuel : nat) :
  forall n : Z,
    n <= Z.of_nat fuel ->
    total (sized n) (walkthrough_dummy_markers fuel)
          (fun exit s' => exists n', sized n' s' /\ n' <= n /\ (exit = Returned -> n' = 0)).
Proof.
  induction fuel as [| fuel IH]; intros n Hfuel s Hs; pose proof Hs as (Hsz & Hn);
    unfold Int.is_size_t in Hn; cbn [walkthrough_dummy_markers];
    destruct (ArraySegment.Size s =? 0) eqn:E.
  - exists n. apply Z.eqb_eq in E. split; [exact Hs |]. split; [lia |]. intros _. lia.
  - apply Z.eqb_neq in E. lia.
  - exists n. apply Z.eqb_eq in E. split; [exact Hs |]. split; [lia |]. intros _. lia.
  - apply Z.eqb_neq in E.
    refine (total_bind (sized n) _ (fun _ => sized n) _ _ (total_read n 0) _ s Hs).
    intros e0; cbn beta zeta.
    destruct (negb _).
    + intros s1 Hs1. exists n. split; [exact Hs1 |]. split; [lia | discriminate].
    + eapply total_bind; [apply total_WalkthroughDummyMarker |]. intros ?; cbn beta.
      eapply total_weaken; [apply (IH (n - 2)) | |].
      * pose proof Hs as (Hsz' & _). lia.
      * intros s1 Hs1. exact Hs1.
      * intros exit s1 (n' & Hs1 & Hle & Hret). exists n'.
        split; [exact Hs1 |]. split; [lia | exact Hret].
Qed.

(** A stream function inside the decoder, on the size of the stream. *)
Lemma total_on_stream {A : Type} (P : MarkerStream -> Prop) (m : M MarkerStream A)
      (Q : A -> MarkerStream -> Prop) :
  total P m Q -> total (fun w : world => P (snd w)) (on_stream m) (fun a w => Q a (snd w)).
Proof.
  intros Hm [d s] Hs. unfold on_stream. cbn [fst snd] in *. specialize (Hm s Hs).
  destruct (m s) as [[a | e | |] s']; exact Hm.
Qed.

(** A record function inside the decoder leaves the stream alone. *)
Lemma total_on_current {A : Type} (P : MarkerStream -> Prop) (m : M RecordDescriptor.t A) :
  (forall r, fst (m r) <> OutOfFuel) ->
  total (fun w : world => P (snd w)) (on_current m) (fun _ w => P (snd w)).
Proof.
  intros Hm [d s] Hs. unfold on_current. cbn [fst snd] in *.
  specialize (Hm (m_currentRecord d)).
  destruct (m (m_currentRecord d)) as [[a | e | |] r']; cbn [fst] in Hm; try exact Hs;
    try exact I. congruence.
Qed.

(** The assignments to the decoder's members leave the stream alone. *)
Lemma total_set_current (n : Z) (r : RecordDescriptor.t) :
  total (stream_sized n) (set_current r) (fun _ => stream_sized n).
Proof. intros w Hw. exact Hw. Qed.

Lemma total_set_state (n : Z) (st : State) :
  total (stream_sized n) (set_state st) (fun _ => stream_sized n).
Proof. intros w Hw. exact Hw. Qed.

Lemma total_push_back (n : Z) (r : RecordDescriptor.t) :
  total (stream_sized n) (push_back r) (fun _ => stream_sized n).
Proof. intros w Hw. exact Hw. Qed.

Lemma SetRecordStopMarker_fuel (stop : StopMarker.t) (r : RecordDescriptor.t) :
  fst (RecordDescriptor.SetRecordStopMarker stop r) <> OutOfFuel.
Proof.
  unfold RecordDescriptor.SetRecordStopMarker. destruct (negb _); discriminate.
Qed.

Lemma total_Normal (n : Z) :
  total (stream_sized n) DecodeNextMarkerNormalMode (fun _ => stream_sized (n - 16)).
Proof.
  unfold DecodeNextMarkerNormalMode.
  eapply total_bind; [apply (total_on_stream _ _ _ (total_DecodeTriggerMarker n)) |].
  intros trigger; cbn beta. apply total_push_back.
Qed.

Lemma total_ZeroSuppress (n : Z) :
  0 < n ->
  total (stream_sized n) DecodeNextMarkerZeroSuppressMode
        (fun _ w' => exists n', stream_sized n' w' /\ n' < n).
Proof.
  intros Hpos. unfold DecodeNextMarkerZeroSuppressMode.
  eapply total_bind; [apply total_gets |]. intros state; cbn beta.
  assert (Hfirst : total (stream_sized n)
    (size <- gets (fun w : world => ArraySegment.Size (snd w)) ;;
     exit <- on_stream (walkthrough_dummy_markers (Z.to_nat size)) ;;
     match exit with
     | Returned => ret tt
     | Broke =>
       set_current RecordDescriptor.default ;;
       trigger <- on_stream DecodeTriggerMarker ;;
       on_current (RecordDescriptor.SetTriggerMarker trigger) ;;
       set_state ExpectGate
     end) (fun _ w' => exists n', stream_sized n' w' /\ n' < n)).
  { eapply total_bind with (Q := fun size w => stream_sized n w /\ size = n).
    - intros w Hw. split; [exact Hw | apply Hw].
    - intros size.
      eapply total_bind
        with (Q := fun exit w' =>
                     exists n', stream_sized n' w' /\ n' <= n /\ (exit = Returned -> n' = 0)).
      + intros w (Hw & ->).
        apply (total_on_stream _ _ _ (walkthrough_total (Z.to_nat n) n ltac:(lia)) w Hw).
      + intros [|]; cbn beta.
        * intros w (n' & Hw & Hle & Hret). exists n'. split; [exact Hw |].
          specialize (Hret eq_refl). lia.
        * intros w (n' & Hw & Hle & _). revert w Hw.
          change (total (stream_sized n')
                        (set_current RecordDescriptor.default ;;
                         trigger <- on_stream DecodeTriggerMarker ;;
                         on_current (RecordDescriptor.SetTriggerMarker trigger) ;;
                         set_state ExpectGate)
                        (fun _ w' => exists n'0, stream_sized n'0 w' /\ n'0 < n)).
          eapply total_bind; [apply total_set_current |].
          intros ?; cbn beta.
          eapply total_bind;
            [apply (total_on_stream _ _ _ (total_DecodeTriggerMarker n')) |].
          intros trigger; cbn beta.
          eapply total_bind;
            [apply (total_on_current (sized (n' - 16))); intros r; discriminate |].
          intros ?; cbn beta.
          intros w Hw. exists (n' - 16). split; [exact Hw | lia]. }
  destruct state; [exact Hfirst | | exact Hfirst].
  eapply total_bind; [apply (total_on_stream _ _ _ (total_read n 0)) |].
  intros e0; cbn beta zeta.
  eapply total_bind with (Q := fun _ w' => exists n', stream_sized n' w' /\ n' < n).
  - destruct (ExtractTag e0 =? MarkerTag.GateStartCst).
    + eapply total_bind; [apply (total_on_stream _ _ _ (total_DecodeGateMarker n)) |].
      intros gate; cbn beta.
      eapply total_bind;
        [apply (total_on_current (sized (n - 2 - 2))); intros r; discriminate |].
      intros ?; cbn beta.
      destruct (StopMarker.IsRecordStop _).
      * eapply total_bind;
          [apply (total_on_current (sized (n - 2 - 2))); apply SetRecordStopMarker_fuel |].
        intros ?; cbn beta. intros w Hw. exists (n - 2 - 2). split; [exact Hw | lia].
      * intros w Hw. exists (n - 2 - 2). split; [exact Hw | lia].
    + destruct (ExtractTag e0 =? MarkerTag.RecordStop).
      * eapply total_bind; [apply (total_on_stream _ _ _ (total_DecodeStopMarker n)) |].
        intros stop; cbn beta.
        eapply total_bind;
          [apply (total_on_current (sized (n - 2))); apply SetRecordStopMarker_fuel |].
        intros ?; cbn beta. intros w Hw. exists (n - 2). split; [exact Hw | lia].
      * apply total_throw.
  - intros [|]; cbn beta.
    + eapply total_bind; [apply total_gets |]. intros current; cbn beta.
      intros w (n' & Hw & Hlt). exists n'. split; [exact Hw | exact Hlt].
    + apply total_ret.
Qed.

(** A call of [DecodeNextMarker] that returns has shortened the stream. *)
Lemma DecodeNextMarker_total (n : Z) :
  total (stream_sized n) DecodeNextMarker (fun _ w' => exists n', stream_sized n' w' /\ n' < n).
Proof.
  intros [d s] Hs. pose proof Hs as (Hsz & Hn). cbn [snd] in Hsz.
  unfold Int.is_size_t in Hn.
  unfold DecodeNextMarker. cbn [fst snd].
  destruct (ArraySegment.Size s =? 0) eqn:E; [exact I |].
  apply Z.eqb_neq in E.
  destruct (m_mode d).
  - pose proof (total_Normal n (d, s) Hs) as H.
    destruct (DecodeNextMarkerNormalMode (d, s)) as [[a | e | |] w']; try exact H.
    exists (n - 16). split; [exact H | lia].
  - apply (total_ZeroSuppress n ltac:(lia) (d, s) Hs).
Qed.

(** The decode loop of the example ends within [fuel] turns when [fuel] is
    the size of the stream: it returns with the stream empty, or it ends
    with what a call of [DecodeNextMarker] ended with. *)
Lemma decode_fetched_total (fuel : nat) :
  forall n : Z,
    n <= Z.of_nat fuel ->
    total (stream_sized n) (decode_fetched fuel) (fun _ => stream_sized 0).
Proof.
  induction fuel as [| fuel IH]; intros n Hfuel [d s] Hs; pose proof Hs as (Hsz & Hn);
    cbn [snd] in Hsz; unfold Int.is_size_t in Hn; cbn [decode_fetched snd];
    destruct (0 <? ArraySegment.Size s) eqn:E.
  - apply Z.ltb_lt in E. lia.
  - apply Z.ltb_ge in E. split; [cbn [snd]; lia | unfold Int.is_size_t; lia].
  - refine (total_bind (stream_sized n) _ _ _ _ (DecodeNextMarker_total n) _ (d, s) Hs).
    intros ?; cbn beta. intros w (n' & Hw & Hlt).
    apply (IH n' ltac:(lia) w Hw).
  - apply Z.ltb_ge in E. split; [cbn [snd]; lia | unfold Int.is_size_t; lia].
Qed.

Lemma DecodeFetchedElements_total (n : Z) :
  total (stream_sized n) DecodeFetchedElements (fun _ => stream_sized 0).
Proof.
  intros [d s] Hs. unfold DecodeFetchedElements. cbn [snd].
  apply (decode_fetched_total _ n); [| exact Hs].
  destruct Hs as (Hsz & Hn). cbn [snd] in Hsz. unfold Int.is_size_t in Hn. lia.
Qed.
End Termination.

(** * Further properties *)

(** ** Rounding up, case by case *)

Lemma CeilDiv_overflow (value divider : Z) :
  0 < divider < 2 ^ 63 -> 2 ^ 63 - divider < value ->
  CeilDiv value divider = Throw (overflow_error IntegerOverflowInCeilDiv).
Proof.
  intros Hd Hv. unfold CeilDiv.
  replace (divider <=? 0) with false by (symmetry; apply Z.leb_gt; lia).
  replace (0 <? value) with true by (symmetry; apply Z.ltb_lt; lia).
  unfold Int.sub64, Int.add64, Int.int64_max.
  rewrite int64_ok by lia. cbn [obind].
  rewrite int64_ok by lia. cbn [obind].
  replace (2 ^ 63 - 1 - divider + 1 <? value) with true
    by (symmetry; apply Z.ltb_lt; lia).
  reflexivity.
Qed.

Lemma CeilDiv_not_positive (value divider : Z) :
  divider <= 0 ->
  CeilDiv value divider = Throw (invalid_argument (DividerMustBePositive divider)).
Proof.
  intros Hd. unfold CeilDiv.
  replace (divider <=? 0) with true by (symmetry; apply Z.leb_le; exact Hd).
  reflexivity.
Qed.

(** X1.  On [int64_t] arguments [CeilDiv] has a defined outcome in every
    case: it throws [std::invalid_argument] exactly when the divider is not
    positive, [std::overflow_error] exactly when the divider is positive and
    [value + divider - 1] would leave [int64_t], and otherwise returns the
    quotient rounded up, the least [q] with [value <= q * divider]. *)
Theorem CeilDiv_cases (value divider : Z) :
  - 2 ^ 63 <= value < 2 ^ 63 -> - 2 ^ 63 <= divider < 2 ^ 63 ->
  match CeilDiv value divider with
  | Ok q =>
    0 < divider /\ value <= 2 ^ 63 - divider /\
    (q - 1) * divider < value <= q * divider
  | Throw (invalid_argument (DividerMustBePositive d)) => d = divider /\ divider <= 0
  | Throw (overflow_error IntegerOverflowInCeilDiv) =>
    0 < divider /\ 2 ^ 63 - divider < value
  | _ => False
  end.
Proof.
  intros Hv Hd.
  destruct (Z_le_gt_dec divider 0) as [Hneg | Hpos].
  - rewrite CeilDiv_not_positive by exact Hneg. split; [reflexivity | exact Hneg].
  - destruct (Z_le_gt_dec value (2 ^ 63 - divider)) as [Hfit | Hover].
    + destruct (CeilDiv_spec value divider) as (q & Hq & Hb & _); try lia.
      rewrite Hq. split; [lia |]. split; [exact Hfit | lia].
    + rewrite CeilDiv_overflow by lia. split; lia.
Qed.

Lemma CeilDiv_cases_witness :
  match CeilDiv 7 2 with
  | Ok q => 0 < 2 /\ 7 <= 2 ^ 63 - 2 /\ (q - 1) * 2 < 7 <= q * 2
  | Throw (invalid_argument (DividerMustBePositive d)) => d = 2 /\ 2 <= 0
  | Throw (overflow_error IntegerOverflowInCeilDiv) => 0 < 2 /\ 2 ^ 63 - 2 < 7
  | _ => False
  end.
Proof. apply (CeilDiv_cases 7 2); lia. Defined.

Lemma AlignUp_exceeds (value grain : Z) :
  0 < grain < 2 ^ 63 -> 2 ^ 63 - grain < value ->
  AlignUp value grain = Throw (logic_error AlignedUpValueExceedsLimit).
Proof.
  intros Hg Hv. unfold AlignUp, Int.sub64, Int.int64_max.
  rewrite int64_ok by lia. cbn [obind].
  rewrite int64_ok by lia. cbn [obind].
  replace (2 ^ 63 - 1 - (grain - 1) <? value) with true
    by (symmetry; apply Z.ltb_lt; lia).
  reflexivity.
Qed.

Lemma int64_out (x : Z) : 2 ^ 63 <= x \/ x < - 2 ^ 63 -> Int.int64 x = Undefined.
Proof.
  intros H. unfold Int.int64, Int.in_int64, Int.int64_min, Int.int64_max.
  destruct H as [H | H].
  - replace (x <=? 2 ^ 63 - 1) with false by (symmetry; apply Z.leb_gt; lia).
    rewrite andb_false_r. reflexivity.
  - replace (- 2 ^ 63 <=? x) with false by (symmetry; apply Z.leb_gt; lia).
    reflexivity.
Qed.

Lemma AlignUp_not_positive (value grain : Z) :
  - 2 ^ 63 <= grain <= 0 -> AlignUp value grain = Undefined.
Proof.
  intros Hg. unfold AlignUp, Int.sub64, Int.int64_max.
  destruct (Z.eq_dec grain (- 2 ^ 63)) as [Hmin | Hmin].
  - rewrite int64_out by lia. reflexivity.
  - rewrite int64_ok by lia. cbn [obind].
    rewrite int64_out by lia. reflexivity.
Qed.

(** What a returned value tells. *)
Lemma AlignUp_Ok (value grain n : Z) :
  - 2 ^ 63 <= value < 2 ^ 63 -> - 2 ^ 63 <= grain < 2 ^ 63 ->
  AlignUp value grain = Ok n ->
  0 < grain /\ value <= 2 ^ 63 - grain /\ rounded_up grain value n.
Proof.
  intros Hv Hg H.
  destruct (Z_le_gt_dec grain 0) as [Hneg | Hpos].
  - rewrite AlignUp_not_positive in H by lia. discriminate.
  - destruct (Z_le_gt_dec value (2 ^ 63 - grain)) as [Hfit | Hover].
    + destruct (AlignUp_spec value grain) as (n' & Hn' & Hdiv & Hb); try lia.
      rewrite Hn' in H. apply Ok_inj in H. subst n'.
      split; [lia |]. split; [exact Hfit |]. split; assumption.
    + rewrite AlignUp_exceeds in H by lia. discriminate.
Qed.

(** X2.  On [int64_t] arguments with a positive grain, [AlignUp] either
    returns [value] rounded up to the next multiple of [grain], or throws
    [std::logic_error], and it throws exactly when [value + grain - 1] would
    leave [int64_t]; the overflow check of the [CeilDiv] it calls never
    fires.  With a grain that is not positive it has no defined result: its
    own limit [max - (grain - 1)] leaves [int64_t] before [CeilDiv] could
    reject the grain. *)
Theorem AlignUp_cases (value grain : Z) :
  - 2 ^ 63 <= value < 2 ^ 63 -> - 2 ^ 63 <= grain < 2 ^ 63 ->
  (0 < grain ->
   match AlignUp value grain with
   | Ok n => value <= 2 ^ 63 - grain /\ rounded_up grain value n
   | Throw (logic_error AlignedUpValueExceedsLimit) => 2 ^ 63 - grain < value
   | _ => False
   end) /\
  (grain <= 0 -> AlignUp value grain = Undefined).
Proof.
  intros Hv Hg. split.
  - intros Hpos.
    destruct (Z_le_gt_dec value (2 ^ 63 - grain)) as [Hfit | Hover].
    + destruct (AlignUp_spec value grain) as (n & Hn & Hdiv & Hb); try lia.
      rewrite Hn. split; [exact Hfit |]. split; assumption.
    + rewrite AlignUp_exceeds by lia. lia.
  - intros Hneg. apply AlignUp_not_positive. lia.
Qed.

Lemma AlignUp_cases_witness :
  match AlignUp 37 16 with
  | Ok n => 37 <= 2 ^ 63 - 16 /\ rounded_up 16 37 n
  | Throw (logic_error AlignedUpValueExceedsLimit) => 2 ^ 63 - 16 < 37
  | _ => False
  end /\
  AlignUp 37 0 = Undefined.
Proof.
  destruct (AlignUp_cases 37 16) as [Hpos _]; try lia.
  destruct (AlignUp_cases 37 0) as [_ Hneg]; try lia.
  split; [apply Hpos; lia | apply Hneg; lia].
Defined.

Lemma rounded_up_unique (grain value n n' : Z) :
  0 < grain -> rounded_up grain value n -> rounded_up grain value n' -> n = n'.
Proof.
  intros Hg [[k Hk] Hb] [[k' Hk'] Hb']. subst n n'.
  assert (k = k') by nia. subst k'. reflexivity.
Qed.

Lemma rounded_up_mono (grain v1 v2 n1 n2 : Z) :
  0 < grain -> v1 <= v2 -> rounded_up grain v1 n1 -> rounded_up grain v2 n2 -> n1 <= n2.
Proof.
  intros Hg Hle [[k1 Hk1] Hb1] [[k2 Hk2] Hb2]. subst n1 n2.
  assert (k1 <= k2) by nia. nia.
Qed.

(** X3.  [AlignUp] leaves a multiple of the grain as it is, so aligning
    twice is aligning once; and it is monotone: a larger value never aligns
    to a smaller multiple. *)
Theorem AlignUp_idempotent_monotone (grain : Z) :
  0 < grain < 2 ^ 63 ->
  (forall value, - 2 ^ 63 <= value <= 2 ^ 63 - grain -> (grain | value) ->
     AlignUp value grain = Ok value) /\
  (forall value n, - 2 ^ 63 <= value < 2 ^ 63 ->
     AlignUp value grain = Ok n -> n <= 2 ^ 63 - grain ->
     AlignUp n grain = Ok n) /\
  (forall v1 v2 n1 n2, - 2 ^ 63 <= v1 -> v1 <= v2 -> v2 < 2 ^ 63 ->
     AlignUp v1 grain = Ok n1 -> AlignUp v2 grain = Ok n2 -> n1 <= n2).
Proof.
  intros Hg.
  assert (Hfix : forall value, - 2 ^ 63 <= value <= 2 ^ 63 - grain -> (grain | value) ->
                               AlignUp value grain = Ok value).
  { intros value Hv Hdiv.
    destruct (AlignUp_spec value grain) as (n & Hn & Hndiv & Hb); try lia.
    rewrite Hn. f_equal.
    apply (rounded_up_unique grain value); [lia | split; assumption |].
    split; [exact Hdiv | lia]. }
  split; [exact Hfix |]. split.
  - intros value n Hv Hn Hfit.
    apply AlignUp_Ok in Hn; try lia.
    destruct Hn as (_ & _ & Hdiv & Hb).
    apply Hfix; [lia | exact Hdiv].
  - intros v1 v2 n1 n2 Hlo Hle Hhi H1 H2.
    apply AlignUp_Ok in H1; try lia. apply AlignUp_Ok in H2; try lia.
    destruct H1 as (_ & _ & Hr1). destruct H2 as (_ & _ & Hr2).
    apply (rounded_up_mono grain v1 v2); try assumption. lia.
Qed.

Lemma AlignUp_idempotent_monotone_witness :
  AlignUp 48 16 = Ok 48 /\
  (AlignUp 33 16 = Ok 48 -> AlignUp 48 16 = Ok 48) /\
  (forall n1 n2, AlignUp 33 16 = Ok n1 -> AlignUp 50 16 = Ok n2 -> n1 <= n2).
Proof.
  destruct (AlignUp_idempotent_monotone 16) as (Hfix & Htwice & Hmono); [lia |].
  split; [apply Hfix; [lia | exists 3; reflexivity] |].
  split.
  - intros H. apply (Htwice 33 48); [lia | exact H | lia].
  - intros n1 n2 H1 H2. apply (Hmono 33 50 n1 n2); [lia | lia | lia | exact H1 | exact H2].
Defined.

(** ** Sign expansion *)

Lemma pow2_split (n : Z) : 1 <= n -> 2 ^ n = 2 * 2 ^ (n - 1) /\ 0 < 2 ^ (n - 1).
Proof.
  intros Hn. split.
  - replace n with (Z.succ (n - 1)) at 1 by lia. apply Z.pow_succ_r. lia.
  - apply Z.pow_pos_nonneg; lia.
Qed.

Lemma in_int32_true (x : Z) : Int.is_int32 x -> Int.in_int32 x = true.
Proof.
  unfold Int.is_int32, Int.in_int32, Int.int32_min, Int.int32_max. intros H.
  apply andb_true_iff. split; apply Z.leb_le; lia.
Qed.

Lemma in_int64_true (x : Z) : - 2 ^ 63 <= x < 2 ^ 63 -> Int.in_int64 x = true.
Proof.
  unfold Int.in_int64, Int.int64_min, Int.int64_max. intros H.
  apply andb_true_iff. split; apply Z.leb_le; lia.
Qed.

(** The value with the given low bits in the signed range of the width. *)
Lemma signed_of_bits (n value : Z) :
  1 <= n -> 0 <= value < 2 ^ n ->
  let r := if 2 ^ (n - 1) <=? value then value - 2 ^ n else value in
  - 2 ^ (n - 1) <= r < 2 ^ (n - 1) /\ r mod 2 ^ n = value.
Proof.
  intros Hn Hv r. destruct (pow2_split n Hn) as [Hp Hpos].
  subst r. destruct (Z.leb_spec (2 ^ (n - 1)) value) as [Hge | Hlt].
  - split; [lia |].
    replace (value - 2 ^ n) with (value + (-1) * 2 ^ n) by ring.
    rewrite Z_mod_plus_full. apply Z.mod_small. lia.
  - split; [lia |]. apply Z.mod_small. lia.
Qed.

Lemma ExpandSign32_bits (nbrBits value : Z) :
  1 <= nbrBits <= 30 -> 0 <= value < 2 ^ nbrBits ->
  ExpandSign32 value nbrBits
  = Returns (if 2 ^ (nbrBits - 1) <=? value then value - 2 ^ nbrBits else value).
Proof.
  intros Hn Hv. unfold ExpandSign32.
  replace (nbrBits <=? 0) with false by (symmetry; apply Z.leb_gt; lia).
  replace (32 <=? nbrBits) with false by (symmetry; apply Z.leb_gt; lia).
  cbn [orb]. rewrite !Z.shiftl_1_l.
  destruct (Z.leb_spec (2 ^ (nbrBits - 1)) value) as [Hge | Hlt]; [| reflexivity].
  cbv zeta.
  assert (Hle : 2 ^ nbrBits <= 2 ^ 30) by (apply Z.pow_le_mono_r; lia).
  rewrite !in_int32_true by (unfold Int.is_int32; lia).
  reflexivity.
Qed.

Lemma ExpandSign64_bits (nbrBits value : Z) :
  1 <= nbrBits <= 62 -> 0 <= value < 2 ^ nbrBits ->
  ExpandSign64 value nbrBits
  = Returns (if 2 ^ (nbrBits - 1) <=? value then value - 2 ^ nbrBits else value).
Proof.
  intros Hn Hv. unfold ExpandSign64.
  replace (nbrBits <=? 0) with false by (symmetry; apply Z.leb_gt; lia).
  replace (64 <=? nbrBits) with false by (symmetry; apply Z.leb_gt; lia).
  cbn [orb]. rewrite !Z.shiftl_1_l.
  destruct (Z.leb_spec (2 ^ (nbrBits - 1)) value) as [Hge | Hlt]; [| reflexivity].
  cbv zeta.
  assert (Hle : 2 ^ nbrBits <= 2 ^ 62) by (apply Z.pow_le_mono_r; lia).
  rewrite !in_int64_true by lia.
  reflexivity.
Qed.

(** X4.  Both overloads of [ExpandSign] read a field of [nbrBits] bits as a
    two's-complement number: for a field of 1 to 30 bits (1 to 62 for the
    64-bit overload) the result is the one value in
    [-2^(nbrBits-1), 2^(nbrBits-1)) whose low [nbrBits] bits are the field.
    At the widest width the guard admits (31, resp. 63) a field with its
    sign bit set has no defined result: [1 << nbrBits] leaves the type, and
    so would the subtraction were the shift taken for the least value of
    the type. *)
Theorem ExpandSign_twos_complement (nbrBits value : Z) :
  0 <= value < 2 ^ nbrBits ->
  (1 <= nbrBits <= 30 ->
   exists r, ExpandSign32 value nbrBits = Returns r /\
             - 2 ^ (nbrBits - 1) <= r < 2 ^ (nbrBits - 1) /\
             r mod 2 ^ nbrBits = value) /\
  (1 <= nbrBits <= 62 ->
   exists r, ExpandSign64 value nbrBits = Returns r /\
             - 2 ^ (nbrBits - 1) <= r < 2 ^ (nbrBits - 1) /\
             r mod 2 ^ nbrBits = value) /\
  (nbrBits = 31 -> 2 ^ 30 <= value -> ExpandSign32 value nbrBits = NoResult) /\
  (nbrBits = 63 -> 2 ^ 62 <= value -> ExpandSign64 value nbrBits = NoResult).
Proof.
  intros Hv. split; [| split; [| split]].
  - intros Hn. rewrite ExpandSign32_bits by lia.
    eexists. split; [reflexivity |]. apply signed_of_bits; lia.
  - intros Hn. rewrite ExpandSign64_bits by lia.
    eexists. split; [reflexivity |]. apply signed_of_bits; lia.
  - intros -> Hsign. unfold ExpandSign32. cbn [Z.leb Z.compare orb].
    replace (Z.shiftl 1 (31 - 1) <=? value) with true
      by (symmetry; apply Z.leb_le; exact Hsign).
    reflexivity.
  - intros -> Hsign. unfold ExpandSign64. cbn [Z.leb Z.compare orb].
    replace (Z.shiftl 1 (63 - 1) <=? value) with true
      by (symmetry; apply Z.leb_le; exact Hsign).
    reflexivity.
Qed.

Lemma ExpandSign_twos_complement_witness :
  (exists r, ExpandSign32 0xfff 12 = Returns r /\ - 2 ^ 11 <= r < 2 ^ 11 /\
             r mod 2 ^ 12 = 0xfff) /\
  (exists r, ExpandSign64 (2 ^ 47) 48 = Returns r /\ - 2 ^ 47 <= r < 2 ^ 47 /\
             r mod 2 ^ 48 = 2 ^ 47) /\
  ExpandSign32 (2 ^ 30) 31 = NoResult.
Proof.
  destruct (ExpandSign_twos_complement 12 0xfff) as (H32 & _); [lia |].
  destruct (ExpandSign_twos_complement 48 (2 ^ 47)) as (_ & H64 & _); [lia |].
  destruct (ExpandSign_twos_complement 31 (2 ^ 30)) as (_ & _ & Hwide & _); [lia |].
  split; [apply H32; lia |]. split; [apply H64; lia |]. apply Hwide; [reflexivity | lia].
Defined.

(** ** Fixed point *)

Lemma Qscale (e p : Z) :
  0 < p -> (inject_Z e * (1 / inject_Z p) * inject_Z p == inject_Z e)%Q.
Proof.
  intros Hp. field. unfold Qeq, inject_Z. cbn [Qnum Qden]. lia.
Qed.

Lemma Qscale_le (e p b : Z) :
  0 < p -> b * p <= e -> (inject_Z b <= inject_Z e * (1 / inject_Z p))%Q.
Proof.
  intros Hp H.
  apply Qmult_le_r with (z := inject_Z p).
  - unfold Qlt, inject_Z. cbn [Qnum Qden]. lia.
  - rewrite Qscale by exact Hp. rewrite <- inject_Z_mult.
    rewrite <- Zle_Qle. exact H.
Qed.

Lemma Qscale_lt (e p b : Z) :
  0 < p -> e < b * p -> (inject_Z e * (1 / inject_Z p) < inject_Z b)%Q.
Proof.
  intros Hp H.
  apply Qmult_lt_r with (z := inject_Z p).
  - unfold Qlt, inject_Z. cbn [Qnum Qden]. lia.
  - rewrite Qscale by exact Hp. rewrite <- inject_Z_mult.
    rewrite <- Zlt_Qlt. exact H.
Qed.

(** X5.  [ScaleSigned] reads a field of [nbrIntegerBits + nbrFractionBits]
    bits (at most 30) as a signed fixed-point number: the result times
    [2^nbrFractionBits] is the sign-expanded field, exactly, and the result
    lies in [-2^(nbrIntegerBits-1), 2^(nbrIntegerBits-1)). *)
Theorem ScaleSigned_fixed_point (value nbrIntegerBits nbrFractionBits : Z) :
  1 <= nbrIntegerBits -> 0 <= nbrFractionBits ->
  nbrIntegerBits + nbrFractionBits <= 30 ->
  0 <= value < 2 ^ (nbrIntegerBits + nbrFractionBits) ->
  exists e q,
    ExpandSign32 value (nbrIntegerBits + nbrFractionBits) = Returns e /\
    ScaleSigned value nbrIntegerBits nbrFractionBits = Returns q /\
    (q * inject_Z (2 ^ nbrFractionBits) == inject_Z e)%Q /\
    (inject_Z (- 2 ^ (nbrIntegerBits - 1)) <= q)%Q /\
    (q < inject_Z (2 ^ (nbrIntegerBits - 1)))%Q.
Proof.
  intros Hi Hf Hsum Hv.
  set (n := nbrIntegerBits + nbrFractionBits) in *.
  pose proof (ExpandSign32_bits n value ltac:(lia) Hv) as He.
  pose proof (signed_of_bits n value ltac:(lia) Hv) as [Hr _]. cbv zeta in Hr.
  set (e := if 2 ^ (n - 1) <=? value then value - 2 ^ n else value) in *.
  assert (Hp : 0 < 2 ^ nbrFractionBits) by (apply Z.pow_pos_nonneg; lia).
  assert (Hp30 : 2 ^ nbrFractionBits <= 2 ^ 30) by (apply Z.pow_le_mono_r; lia).
  assert (Hsplit : 2 ^ (n - 1) = 2 ^ (nbrIntegerBits - 1) * 2 ^ nbrFractionBits).
  { rewrite <- Z.pow_add_r by lia. f_equal. lia. }
  exists e, (inject_Z e * (1 / inject_Z (2 ^ nbrFractionBits)))%Q.
  split; [exact He |]. split.
  - unfold ScaleSigned. fold n. rewrite He. rewrite Z.shiftl_1_l.
    replace (0 <=? nbrFractionBits) with true by (symmetry; apply Z.leb_le; lia).
    replace (nbrFractionBits <? 32) with true by (symmetry; apply Z.ltb_lt; lia).
    rewrite !in_int32_true by (unfold Int.is_int32; lia).
    reflexivity.
  - split; [apply Qscale; exact Hp |]. split.
    + apply Qscale_le; [exact Hp | lia].
    + apply Qscale_lt; [exact Hp | lia].
Qed.

Lemma ScaleSigned_fixed_point_witness :
  exists e q,
    ExpandSign32 0xfffff (17 + 3) = Returns e /\
    ScaleSigned 0xfffff 17 3 = Returns q /\
    (q * inject_Z (2 ^ 3) == inject_Z e)%Q /\
    (inject_Z (- 2 ^ (17 - 1)) <= q)%Q /\
    (q < inject_Z (2 ^ (17 - 1)))%Q.
Proof. apply (ScaleSigned_fixed_point 0xfffff 17 3); lia. Defined.

(** ** Bit fields *)

(** [n] bits of [x] from bit [k]. *)
Lemma bit_field (x k n : Z) :
  0 <= k -> 0 <= n ->
  Z.land (Z.shiftr x k) (Z.ones n) = (x mod 2 ^ (k + n)) / 2 ^ k.
Proof.
  intros Hk Hn. rewrite Z.shiftr_div_pow2 by exact Hk.
  rewrite Z.land_ones by exact Hn.
  assert (Hpk : 0 < 2 ^ k) by (apply Z.pow_pos_nonneg; lia).
  assert (Hpn : 0 < 2 ^ n) by (apply Z.pow_pos_nonneg; lia).
  rewrite Z.pow_add_r by assumption.
  rewrite Z.rem_mul_r by lia.
  rewrite (Z.mul_comm (2 ^ k)), Z.div_add by lia.
  rewrite (Z.div_small (x mod 2 ^ k)) by (apply Z.mod_pos_bound; exact Hpk).
  reflexivity.
Qed.

Lemma bit_field_range (x k n : Z) :
  0 <= k -> 0 <= n -> 0 <= (x mod 2 ^ (k + n)) / 2 ^ k < 2 ^ n.
Proof.
  intros Hk Hn.
  assert (Hpk : 0 < 2 ^ k) by (apply Z.pow_pos_nonneg; lia).
  pose proof (Z.mod_pos_bound x (2 ^ (k + n)) ltac:(apply Z.pow_pos_nonneg; lia)) as H.
  rewrite Z.pow_add_r in * by assumption.
  assert (Hpn : 0 < 2 ^ n) by (apply Z.pow_pos_nonneg; lia). split.
  - apply Z.div_pos; lia.
  - apply Z.div_lt_upper_bound; [exact Hpk | lia].
Qed.

(** A field below bit [k] and a word shifted left by [k] share no bit:
    joining them is adding them. *)
Lemma join_fields (low high k : Z) :
  0 <= k -> 0 <= low < 2 ^ k -> Z.lor low (Z.shiftl high k) = low + high * 2 ^ k.
Proof.
  intros Hk Hl. rewrite Z.shiftl_mul_pow2 by exact Hk.
  assert (Hland : Z.land low (high * 2 ^ k) = 0).
  { apply Z.bits_inj'. intros i Hi. rewrite Z.land_spec, Z.bits_0.
    destruct (Z.lt_ge_cases i k) as [Hlt | Hge].
    - rewrite Z.mul_pow2_bits_low by exact Hlt. apply andb_false_r.
    - rewrite <- (Z.mod_small low (2 ^ k)) by exact Hl.
      rewrite Z.mod_pow2_bits_high by lia. reflexivity. }
  pose proof (Z.add_lor_land low (high * 2 ^ k)) as H.
  rewrite Hland in H. lia.
Qed.


(** ** The constructor of a segment *)

(** X6.  When [offset + count] does not wrap, the constructor of
    [ArraySegment] accepts the window exactly when it lies inside the
    vector, and throws [std::logic_error] with the three sizes otherwise.
    An accepted window is well formed, has [count] elements, and every
    index below [count] reads the element of the vector at
    [offset + index]. *)
Theorem make_window (data : list Z) (offset count : Z) :
  Int.is_size_t offset -> Int.is_size_t count -> offset + count < 2 ^ 64 ->
  Z.of_nat (length data) < 2 ^ 64 ->
  match ArraySegment.make data offset count with
  | Ok s =>
    offset + count <= Z.of_nat (length data) /\
    s = ArraySegment.mk data offset count /\
    ArraySegment.wf s /\
    ArraySegment.Size s = count /\
    forall i, 0 <= i < count ->
      exists v, ArraySegment.subscript s i = Ok v /\
                nth_error data (Z.to_nat (offset + i)) = Some v
  | Throw (logic_error (SegmentExceedsArray o c n)) =>
    Z.of_nat (length data) < offset + count /\
    o = offset /\ c = count /\ n = Z.of_nat (length data)
  | _ => False
  end.
Proof.
  intros Ho Hc Hsum Hlen. unfold ArraySegment.make.
  rewrite to_size_t_id by (unfold Int.is_size_t in *; lia).
  destruct (Z.ltb_spec (Z.of_nat (length data)) (offset + count)) as [Hout | Hin].
  - split; [exact Hout |]. repeat split.
  - split; [exact Hin |]. split; [reflexivity |].
    assert (Hwf : ArraySegment.wf (ArraySegment.mk data offset count)).
    { unfold ArraySegment.wf, Int.is_size_t in *.
      cbn [ArraySegment.m_offset ArraySegment.m_size ArraySegment.m_data]. lia. }
    split; [exact Hwf |]. split; [reflexivity |].
    intros i Hi. unfold ArraySegment.subscript.
    cbn [ArraySegment.m_offset ArraySegment.m_data].
    rewrite to_size_t_id by (unfold Int.is_size_t in *; lia).
    destruct (nth_error data (Z.to_nat (offset + i))) as [v |] eqn:E.
    + exists v. split; reflexivity.
    + apply nth_error_None in E. unfold Int.is_size_t in *. lia.
Qed.

Lemma make_window_witness :
  match ArraySegment.make [10; 20; 30; 40; 50; 60] 1 4 with
  | Ok s =>
    1 + 4 <= Z.of_nat (length [10; 20; 30; 40; 50; 60]) /\
    s = ArraySegment.mk [10; 20; 30; 40; 50; 60] 1 4 /\
    ArraySegment.wf s /\
    ArraySegment.Size s = 4 /\
    forall i, 0 <= i < 4 ->
      exists v, ArraySegment.subscript s i = Ok v /\
                nth_error [10; 20; 30; 40; 50; 60] (Z.to_nat (1 + i)) = Some v
  | Throw (logic_error (SegmentExceedsArray o c n)) =>
    Z.of_nat (length [10; 20; 30; 40; 50; 60]) < 1 + 4 /\
    o = 1 /\ c = 4 /\ n = Z.of_nat (length [10; 20; 30; 40; 50; 60])
  | _ => False
  end.
Proof.
  apply (make_window [10; 20; 30; 40; 50; 60] 1 4);
    unfold Int.is_size_t; cbn [length]; lia.
Defined.

(** X7.  The bound check of the constructor adds [offset] and [count] as
    [size_t]: when the sum wraps round to a value within the vector, the
    constructor accepts a window that is not inside the vector, and some
    index below its size reads outside the vector. *)
Theorem make_wraps (data : list Z) (offset count : Z) :
  Int.is_size_t offset -> Int.is_size_t count ->
  Z.of_nat (length data) < 2 ^ 64 ->
  2 ^ 64 <= offset + count ->
  offset + count - 2 ^ 64 <= Z.of_nat (length data) ->
  ArraySegment.make data offset count = Ok (ArraySegment.mk data offset count) /\
  ~ ArraySegment.wf (ArraySegment.mk data offset count) /\
  exists i, 0 <= i < ArraySegment.Size (ArraySegment.mk data offset count) /\
            ArraySegment.subscript (ArraySegment.mk data offset count) i = Undefined.
Proof.
  intros Ho Hc Hlen Hwrap Hfit. unfold Int.is_size_t in *.
  split; [| split].
  - unfold ArraySegment.make, Int.to_size_t, Int.to_uint64.
    replace ((offset + count) mod 2 ^ 64) with (offset + count - 2 ^ 64).
    + replace (Z.of_nat (length data) <? offset + count - 2 ^ 64) with false
        by (symmetry; apply Z.ltb_ge; lia).
      reflexivity.
    + apply Z.mod_unique with (q := 1); lia.
  - unfold ArraySegment.wf.
    cbn [ArraySegment.m_offset ArraySegment.m_size ArraySegment.m_data]. lia.
  - exists (Z.max 0 (Z.of_nat (length data) - offset)).
    unfold ArraySegment.Size, ArraySegment.subscript.
    cbn [ArraySegment.m_offset ArraySegment.m_size ArraySegment.m_data].
    split; [lia |].
    rewrite to_size_t_id by (unfold Int.is_size_t; lia).
    destruct (nth_error data _) as [v |] eqn:E; [| reflexivity].
    assert (Hlt : (Z.to_nat (offset + Z.max 0 (Z.of_nat (length data) - offset))
                   < length data)%nat).
    { apply nth_error_Some. rewrite E. discriminate. }
    lia.
Qed.

Lemma make_wraps_witness :
  ArraySegment.make [10; 20; 30] (2 ^ 64 - 1) 2
  = Ok (ArraySegment.mk [10; 20; 30] (2 ^ 64 - 1) 2) /\
  ~ ArraySegment.wf (ArraySegment.mk [10; 20; 30] (2 ^ 64 - 1) 2) /\
  exists i, 0 <= i < ArraySegment.Size (ArraySegment.mk [10; 20; 30] (2 ^ 64 - 1) 2) /\
            ArraySegment.subscript (ArraySegment.mk [10; 20; 30] (2 ^ 64 - 1) 2) i
            = Undefined.
Proof.
  apply (make_wraps [10; 20; 30] (2 ^ 64 - 1) 2);
    unfold Int.is_size_t; cbn [length]; lia.
Defined.

(** ** Popping twice *)

Lemma advance_Size_0 (s : ArraySegment.t) :
  ArraySegment.wf s ->
  ArraySegment.elements (advance (ArraySegment.Size s) s) = [].
Proof.
  intros Hwf.
  assert (Hwf' : ArraySegment.wf (advance (ArraySegment.Size s) s)).
  { apply advance_wf; [exact Hwf |]. destruct Hwf as (_ & H & _).
    unfold ArraySegment.Size. lia. }
  pose proof (elements_length _ Hwf') as Hlen.
  change (ArraySegment.m_size (advance (ArraySegment.Size s) s))
    with (ArraySegment.Size (advance (ArraySegment.Size s) s)) in Hlen.
  rewrite advance_Size in Hlen.
  destruct (ArraySegment.elements _); [reflexivity | cbn [length] in Hlen; lia].
Qed.

(** X8.  Popping twice, for counts [a] and [b] of type [size_t] on a
    well-formed segment.  When [a + b <= Size()], popping [a] and then [b]
    elements is popping [a + b] at once.  When [Size() < a + b], the two
    calls in a row end in an exception, and so does the single call as
    long as the [size_t] sum does not wrap; when it wraps, the single call
    is [PopFront(a + b - 2^64)], which pops that many elements when the
    segment has them and throws when it has not.  Popping nothing leaves
    the segment as it is, and popping [Size()] elements leaves it empty. *)
Theorem PopFront_twice (s : ArraySegment.t) (a b : Z) :
  ArraySegment.wf s -> Int.is_size_t a -> Int.is_size_t b ->
  let sum := Int.to_size_t (a + b) in
  (a + b <= ArraySegment.Size s ->
   (ArraySegment.PopFront a ;; ArraySegment.PopFront b) s = ArraySegment.PopFront sum s) /\
  (ArraySegment.Size s < a + b ->
   failed (fst ((ArraySegment.PopFront a ;; ArraySegment.PopFront b) s))) /\
  (ArraySegment.Size s < a + b < 2 ^ 64 -> failed (fst (ArraySegment.PopFront sum s))) /\
  (2 ^ 64 <= a + b ->
   sum = a + b - 2 ^ 64 /\
   (sum <= ArraySegment.Size s -> ArraySegment.PopFront sum s = (Ok tt, advance sum s)) /\
   (ArraySegment.Size s < sum -> failed (fst (ArraySegment.PopFront sum s)))) /\
  ArraySegment.PopFront 0 s = (Ok tt, s) /\
  (exists s', ArraySegment.PopFront (ArraySegment.Size s) s = (Ok tt, s') /\
              ArraySegment.Size s' = 0 /\ ArraySegment.elements s' = []).
Proof.
  intros Hwf Ha Hb sum. unfold Int.is_size_t in Ha, Hb.
  assert (Hsize : 0 <= ArraySegment.Size s < 2 ^ 64).
  { destruct Hwf as (Ho & Hs & Hin & Hlen). unfold ArraySegment.Size. lia. }
  assert (Hsmall : a + b < 2 ^ 64 -> sum = a + b).
  { intros H. apply to_size_t_id. unfold Int.is_size_t. lia. }
  assert (Hwrap : 2 ^ 64 <= a + b -> sum = a + b - 2 ^ 64).
  { intros H. unfold sum, Int.to_size_t, Int.to_uint64.
    symmetry. apply (Z.mod_unique (a + b) (2 ^ 64) 1); lia. }
  split; [| split; [| split; [| split; [| split]]]].
  - intros Hfit. rewrite Hsmall by lia.
    rewrite (bind_Ok _ _ s (advance a s) tt) by (apply PopFront_advance; [exact Hwf | lia]).
    rewrite PopFront_advance.
    + rewrite PopFront_advance by (try exact Hwf; lia).
      rewrite advance_advance. reflexivity.
    + apply advance_wf; [exact Hwf | lia].
    + rewrite advance_Size. lia.
  - intros Hover.
    destruct (Z_lt_le_dec (ArraySegment.Size s) a) as [Hfirst | Hfirst].
    + rewrite (bind_Throw _ _ s s (invalid_argument (CannotPopElements a (ArraySegment.Size s))))
        by (apply PopFront_throw; exact Hfirst).
      eexists. reflexivity.
    + rewrite (bind_Ok _ _ s (advance a s) tt)
        by (apply PopFront_advance; [exact Hwf | lia]).
      rewrite PopFront_throw by (rewrite advance_Size; lia).
      eexists. reflexivity.
  - intros Hover. rewrite PopFront_throw by (rewrite Hsmall; lia).
    eexists. reflexivity.
  - intros Hover. split; [apply Hwrap; exact Hover |]. split.
    + intros Hfit. apply PopFront_advance; [exact Hwf |]. rewrite Hwrap in * by lia. lia.
    + intros Hmore. rewrite PopFront_throw by exact Hmore. eexists. reflexivity.
  - rewrite PopFront_advance by (try exact Hwf; lia). rewrite advance_0. reflexivity.
  - exists (advance (ArraySegment.Size s) s).
    split; [apply PopFront_advance; [exact Hwf | lia] |].
    split; [rewrite advance_Size; lia | apply advance_Size_0; exact Hwf].
Qed.

(** X8 on a segment of four elements: 2 and 1 in a row are 3 at once;
    2^63 and 2^63 in a row throw, and at once pop nothing. *)
Lemma PopFront_twice_witness :
  let s := ArraySegment.mk [10; 20; 30; 40; 50; 60] 1 4 in
  (ArraySegment.PopFront 2 ;; ArraySegment.PopFront 1) s
  = ArraySegment.PopFront (Int.to_size_t (2 + 1)) s /\
  failed (fst ((ArraySegment.PopFront (2 ^ 63) ;; ArraySegment.PopFront (2 ^ 63)) s)) /\
  ArraySegment.PopFront (Int.to_size_t (2 ^ 63 + 2 ^ 63)) s = (Ok tt, s).
Proof.
  intros s.
  assert (Hwf : ArraySegment.wf s).
  { unfold ArraySegment.wf.
    cbn [s ArraySegment.m_offset ArraySegment.m_size ArraySegment.m_data length]. lia. }
  split; [| split].
  - destruct (PopFront_twice s 2 1) as (H & _);
      [exact Hwf | unfold Int.is_size_t; lia | unfold Int.is_size_t; lia |].
    apply H. unfold ArraySegment.Size. cbn [s ArraySegment.m_size]. lia.
  - destruct (PopFront_twice s (2 ^ 63) (2 ^ 63)) as (_ & H & _);
      [exact Hwf | unfold Int.is_size_t; lia | unfold Int.is_size_t; lia |].
    apply H. unfold ArraySegment.Size. cbn [s ArraySegment.m_size]. lia.
  - destruct (PopFront_twice s (2 ^ 63) (2 ^ 63)) as (_ & _ & _ & H & _);
      [exact Hwf | unfold Int.is_size_t; lia | unfold Int.is_size_t; lia |].
    destruct H as (_ & H & _); [lia |].
    rewrite H by (vm_compute; discriminate).
    vm_compute. reflexivity.
Defined.

(** ** The words of a gate marker *)

Section MarkerWords.
Import ZeroSuppress.

Lemma high_byte (x : Z) : Z.land (Z.shiftr x 24) 0xff = (x mod 2 ^ 32) / 2 ^ 24.
Proof. change 0xff with (Z.ones 8). rewrite bit_field by lia. reflexivity. Qed.

Lemma high_byte_range (x : Z) : 0 <= (x mod 2 ^ 32) / 2 ^ 24 < 2 ^ 8.
Proof. apply (bit_field_range x 24 8); lia. Qed.

Lemma ExtractPosition_words (element0 element1 : Z) :
  ExtractPosition element0 element1
  = (element0 mod 2 ^ 32) / 2 ^ 24 + (element1 mod 2 ^ 24) * 2 ^ 8.
Proof.
  unfold ExtractPosition. cbv zeta.
  rewrite high_byte.
  change 0xffffff with (Z.ones 24). rewrite Z.land_ones by lia.
  rewrite Z.lor_comm. apply join_fields; [lia | apply high_byte_range].
Qed.

(** X9.  The words of a gate marker.  The block index is bits 24-31 of
    the first element below bits 0-23 of the second, a value below 2^32;
    the sample index is bits 24-31 of the second element.  The constructor
    of [GateStartMarker] returns exactly when the tag is GateStartCst and
    the block index is not 0, that of [StopMarker] exactly when the tag is
    GateStopCst or RecordStop and the block index is not 0; the markers
    they build hold these fields, and in every other case they throw
    [std::invalid_argument]. *)
Theorem gate_marker_words (element0 element1 : Z) :
  let tag := element0 mod 2 ^ 8 in
  let blockIndex := (element0 mod 2 ^ 32) / 2 ^ 24 + (element1 mod 2 ^ 24) * 2 ^ 8 in
  let sampleIndex := (element1 mod 2 ^ 32) / 2 ^ 24 in
  0 <= blockIndex < 2 ^ 32 /\ 0 <= sampleIndex < 2 ^ 8 /\
  ExtractPosition element0 element1 = blockIndex /\
  (forall m, GateStartMarker.make element0 element1 = Ok m <->
             tag = MarkerTag.GateStartCst /\ blockIndex <> 0 /\
             m = GateStartMarker.mk blockIndex sampleIndex) /\
  (forall m, StopMarker.make element0 element1 = Ok m <->
             (tag = MarkerTag.GateStopCst \/ tag = MarkerTag.RecordStop) /\
             blockIndex <> 0 /\
             m = StopMarker.mk blockIndex sampleIndex tag) /\
  (tag <> MarkerTag.GateStartCst \/ blockIndex = 0 ->
   exists w, GateStartMarker.make element0 element1 = Throw (invalid_argument w)) /\
  (tag <> MarkerTag.GateStopCst /\ tag <> MarkerTag.RecordStop \/ blockIndex = 0 ->
   exists w, StopMarker.make element0 element1 = Throw (invalid_argument w)).
Proof.
  intros tag blockIndex sampleIndex.
  pose proof (ExtractPosition_words element0 element1) as Hpos. fold blockIndex in Hpos.
  pose proof (ExtractPosition_range element0 element1) as Hrange. rewrite Hpos in Hrange.
  assert (Hsample : 0 <= sampleIndex < 2 ^ 8).
  { apply high_byte_range. }
  split; [exact Hrange |]. split; [exact Hsample |]. split; [exact Hpos |].
  assert (Hstart : GateStartMarker.make element0 element1
                   = if negb (tag =? MarkerTag.GateStartCst)
                     then Throw (invalid_argument (ExpectedGateStartTag tag))
                     else if blockIndex <? 1
                          then Throw (invalid_argument
                                        (BlockIndexNotPositive blockIndex element0 element1))
                          else Ok (GateStartMarker.mk blockIndex sampleIndex)).
  { unfold GateStartMarker.make. cbv zeta.
    rewrite ExtractTag_low_byte, Hpos, high_byte. reflexivity. }
  assert (Hstop : StopMarker.make element0 element1
                  = if negb (tag =? MarkerTag.GateStopCst) && negb (tag =? MarkerTag.RecordStop)
                    then Throw (invalid_argument (ExpectedStopTag tag))
                    else if blockIndex <? 1
                         then Throw (invalid_argument
                                       (BlockIndexNotPositive blockIndex element0 element1))
                         else Ok (StopMarker.mk blockIndex sampleIndex tag)).
  { unfold StopMarker.make. cbv zeta.
    rewrite ExtractTag_low_byte, Hpos, high_byte.
    unfold Int.to_uint64. rewrite (Z.mod_small blockIndex (2 ^ 64)) by lia.
    rewrite to_int64_id by lia. reflexivity. }
  rewrite Hstart, Hstop.
  split; [| split; [| split]].
  - intros m.
    destruct (Z.eqb_spec tag MarkerTag.GateStartCst) as [Htag | Htag]; cbn [negb].
    + destruct (Z.ltb_spec blockIndex 1) as [Hzero | Hone].
      * split; [discriminate | intros (_ & H & _); lia].
      * split.
        -- intros H. apply Ok_inj in H. subst m. split; [exact Htag |].
           split; [lia | reflexivity].
        -- intros (_ & _ & ->). reflexivity.
    + split; [discriminate | intros (H & _); contradiction].
  - intros m.
    destruct (Z.eqb_spec tag MarkerTag.GateStopCst) as [Htag | Htag];
      destruct (Z.eqb_spec tag MarkerTag.RecordStop) as [Htag' | Htag']; cbn [negb andb];
      try (destruct (Z.ltb_spec blockIndex 1) as [Hzero | Hone];
           [split; [discriminate | intros (_ & H & _); lia]
           | split;
             [intros H; apply Ok_inj in H; subst m;
              split; [tauto | split; [lia | reflexivity]]
             | intros (_ & _ & ->); reflexivity]]).
    split; [discriminate | intros ([H | H] & _); contradiction].
  - intros [Htag | Hzero].
    + destruct (Z.eqb_spec tag MarkerTag.GateStartCst) as [E | E]; [contradiction |].
      cbn [negb]. eexists. reflexivity.
    + destruct (negb _); [eexists; reflexivity |].
      replace (blockIndex <? 1) with true by (symmetry; apply Z.ltb_lt; lia).
      eexists. reflexivity.
  - intros [(Htag & Htag') | Hzero].
    + destruct (Z.eqb_spec tag MarkerTag.GateStopCst) as [E | E]; [contradiction |].
      destruct (Z.eqb_spec tag MarkerTag.RecordStop) as [E' | E']; [contradiction |].
      cbn [negb andb]. eexists. reflexivity.
    + destruct (_ && _); [eexists; reflexivity |].
      replace (blockIndex <? 1) with true by (symmetry; apply Z.ltb_lt; lia).
      eexists. reflexivity.
Qed.

Lemma gate_marker_words_witness :
  GateStartMarker.make 0x02000004 0x11000000 = Ok (GateStartMarker.mk 2 17) /\
  exists w, StopMarker.make 0x0000000a 0 = Throw (invalid_argument w).
Proof.
  split.
  - destruct (gate_marker_words 0x02000004 0x11000000) as (_ & _ & _ & Hstart & _).
    apply Hstart.
    split; [reflexivity | split; [intros H; vm_compute in H; discriminate H | reflexivity]].
  - destruct (gate_marker_words 0x0000000a 0) as (_ & _ & _ & _ & _ & _ & Hstop).
    apply Hstop. right. reflexivity.
Defined.
End MarkerWords.

(** ** Where the samples of a gate are *)

Section GateSamples.
Import ZeroSuppress.

Lemma gate_samples_range (params : ProcessingParameters) (recordStop : StopMarker.t)
      (g : GateMarker.t) :
  sane_parameters params -> GateMarker.valid g -> StopMarker.valid recordStop ->
  StopMarker.m_blockIndex (GateMarker.m_stopMarker g) <= StopMarker.m_blockIndex recordStop ->
  (StopMarker.m_blockIndex (GateMarker.m_stopMarker g)
   - GateStartMarker.m_blockIndex (GateMarker.m_startMarker g)) * processingBlockSamples params
  <= gate_samples params recordStop g <= 2 ^ 63 - 2 ^ 31 /\
  0 <= (StopMarker.m_blockIndex (GateMarker.m_stopMarker g)
        - GateStartMarker.m_blockIndex (GateMarker.m_startMarker g))
       * processingBlockSamples params.
Proof.
  intros (Htyped & Hsbs & Hpbs & Hsum) Hg Hr Hpr.
  destruct (GetStoredSampleCount_defined params recordStop g Htyped Hg Hr Hpr Hsbs)
    as (_ & Hraw).
  { unfold Int.is_int32. lia. }
  cbv zeta in Hraw. fold (gate_samples params recordStop g) in Hraw.
  destruct Hg as (_ & _ & Hsp).
  assert (H1 : 0 <= (StopMarker.m_blockIndex (GateMarker.m_stopMarker g)
                     - GateStartMarker.m_blockIndex (GateMarker.m_startMarker g))
                    * processingBlockSamples params)
    by (apply Z.mul_nonneg_nonneg; lia).
  assert (H2 : 0 <= (StopMarker.m_blockIndex recordStop
                     - StopMarker.m_blockIndex (GateMarker.m_stopMarker g))
                    * processingBlockSamples params)
    by (apply Z.mul_nonneg_nonneg; lia).
  split; [| exact H1]. split; [| lia].
  unfold gate_samples. cbv zeta. lia.
Qed.

(** The count of a gate, as [AlignUp] returns it. *)
Lemma gate_stored_count (params : ProcessingParameters) (recordStop : StopMarker.t)
      (g : GateMarker.t) :
  sane_parameters params -> GateMarker.valid g -> StopMarker.valid recordStop ->
  StopMarker.m_blockIndex (GateMarker.m_stopMarker g) <= StopMarker.m_blockIndex recordStop ->
  exists n, GateMarker.GetStoredSampleCount params recordStop g = Ok n /\
            rounded_up (storageBlockSamples params) (gate_samples params recordStop g) n.
Proof.
  intros Hsane Hg Hr Hpr.
  pose proof (gate_samples_range params recordStop g Hsane Hg Hr Hpr) as (Hrange & Hnn).
  destruct Hsane as (Htyped & Hsbs & Hpbs & Hsum).
  destruct (GetStoredSampleCount_defined params recordStop g Htyped Hg Hr Hpr Hsbs)
    as (Heq & _).
  { unfold Int.is_int32. lia. }
  cbv zeta in Heq. fold (gate_samples params recordStop g) in Heq.
  destruct Htyped as (Hs32 & _). unfold Int.is_int32 in Hs32.
  destruct (AlignUp_spec (gate_samples params recordStop g) (storageBlockSamples params))
    as (n & Hn & Hdiv & Hb); try lia.
  exists n. rewrite Heq. split; [exact Hn |]. split; assumption.
Qed.

(** X10.  Where the samples of a gate are.  Take parameters of type
    [int32_t] with a positive storage block size, a processing block size
    that is not negative and [0 <= preGateSamples + postGateSamples < 2^31],
    and a gate whose markers the constructors accepted.  Then the three
    index functions return: the gate starts at
    [(startBlock - 1) * processingBlockSamples + startSampleIndex]; the
    trailing suppressed samples are [processingBlockSamples - onePast],
    where [onePast] is the gate-end index of the stop marker, plus 1 for a
    record stop; the gate stops that many samples before
    [(stopBlock - 1) * processingBlockSamples]; so the leading suppressed
    samples and the samples of the gate together are the blocks of the
    gate less the trailing samples.  When the record stop marker is a
    valid one no earlier than the stop of the gate,
    [GateMarker::GetStoredSampleCount] returns a count that is at least the
    blocks of the gate; and when [onePast <= processingBlockSamples], the
    trailing count is not negative and the leading samples with the samples
    of the gate fit in that count. *)
Theorem gate_samples_are_stored
        (params : ProcessingParameters) (recordStop : StopMarker.t) (g : GateMarker.t) :
  sane_parameters params -> GateMarker.valid g ->
  let start := GateMarker.GetStartMarker g in
  let stop := GateMarker.GetStopMarker g in
  let onePast := StopMarker.m_gateEndIndex stop
                 + (if StopMarker.IsRecordStop stop then 1 else 0) in
  let blocks := (StopMarker.GetBlockIndex stop - GateStartMarker.GetBlockIndex start)
                * processingBlockSamples params in
  exists first last trailing,
    GateStartMarker.GetStartSampleIndex params start = Ok first /\
    StopMarker.GetSuppressedSampleCount params stop = Ok trailing /\
    StopMarker.GetStopSampleIndex params stop = Ok last /\
    first = (GateStartMarker.GetBlockIndex start - 1) * processingBlockSamples params
            + GateStartMarker.GetSuppressedSampleCount params start /\
    trailing = processingBlockSamples params - onePast /\
    last = (StopMarker.GetBlockIndex stop - 1) * processingBlockSamples params - trailing /\
    GateStartMarker.GetSuppressedSampleCount params start + (last - first)
    = blocks - trailing /\
    (StopMarker.valid recordStop ->
     StopMarker.GetBlockIndex stop <= StopMarker.GetBlockIndex recordStop ->
     exists n,
       GateMarker.GetStoredSampleCount params recordStop g = Ok n /\
       blocks <= n /\
       (onePast <= processingBlockSamples params ->
        0 <= trailing /\
        GateStartMarker.GetSuppressedSampleCount params start + (last - first) <= n)).
Proof.
  intros Hsane Hg start stop onePast blocks.
  unfold GateMarker.GetStartMarker in start. unfold GateMarker.GetStopMarker in stop.
  pose proof Hsane as ((_ & Hpbs32 & _) & _ & Hpbs & _). unfold Int.is_int32 in Hpbs32.
  pose proof Hg as ((Hs & Hssi) & (Hp & Hgei & _) & Hsp).
  fold start in Hs, Hssi, Hsp. fold stop in Hp, Hgei, Hsp.
  unfold GateStartMarker.GetBlockIndex, StopMarker.GetBlockIndex in blocks.
  set (pbs := processingBlockSamples params) in *.
  set (s := GateStartMarker.m_blockIndex start) in *.
  set (p := StopMarker.m_blockIndex stop) in *.
  set (ssi := GateStartMarker.m_startSampleIndex start) in *.
  assert (Hrs : 0 <= (if StopMarker.IsRecordStop stop then 1 else 0) <= 1)
    by (destruct (StopMarker.IsRecordStop stop); lia).
  assert (Hsb : - 2 ^ 63 + 2 ^ 31 <= (s - 1) * pbs <= 2 ^ 63 - 2 ^ 32)
    by (apply mul_bound; lia).
  assert (Hpb : - 2 ^ 63 + 2 ^ 31 <= (p - 1) * pbs <= 2 ^ 63 - 2 ^ 32)
    by (apply mul_bound; lia).
  assert (Hs0 : 0 <= (s - 1) * pbs) by (apply Z.mul_nonneg_nonneg; lia).
  assert (Hp0 : 0 <= (p - 1) * pbs) by (apply Z.mul_nonneg_nonneg; lia).
  exists ((s - 1) * pbs + ssi), ((p - 1) * pbs - (pbs - onePast)), (pbs - onePast).
  split; [| split; [| split]].
  - unfold GateStartMarker.GetStartSampleIndex, GateStartMarker.GetSuppressedSampleCount,
      Int.sub64, Int.mul64, Int.add64.
    fold s ssi pbs.
    rewrite (int64_ok (s - 1)) by lia. cbn [obind].
    rewrite (int64_ok ((s - 1) * pbs)) by lia. cbn [obind].
    apply int64_ok. lia.
  - unfold StopMarker.GetSuppressedSampleCount. fold pbs.
    rewrite int32_ok by (unfold Int.is_int32; lia). cbn [obind].
    rewrite int32_ok by (unfold Int.is_int32; lia).
    f_equal. unfold onePast. lia.
  - unfold StopMarker.GetStopSampleIndex, StopMarker.GetSuppressedSampleCount,
      Int.sub64, Int.mul64.
    fold p pbs.
    rewrite (int64_ok (p - 1)) by lia. cbn [obind].
    rewrite (int64_ok ((p - 1) * pbs)) by lia. cbn [obind].
    rewrite int32_ok by (unfold Int.is_int32; lia). cbn [obind].
    rewrite int32_ok by (unfold Int.is_int32; lia). cbn [obind].
    rewrite int64_ok by lia. f_equal. unfold onePast. lia.
  - unfold GateStartMarker.GetBlockIndex, GateStartMarker.GetSuppressedSampleCount,
      StopMarker.GetBlockIndex.
    fold s p ssi.
    split; [reflexivity |]. split; [reflexivity |]. split; [reflexivity |].
    split; [unfold blocks; ring |].
    intros Hr Hpr.
    destruct (gate_stored_count params recordStop g Hsane Hg Hr Hpr)
      as (n & Hn & _ & Hge & _).
    pose proof (gate_samples_range params recordStop g Hsane Hg Hr Hpr)
      as ((Hlow & _) & Hnn).
    fold start stop in Hlow. fold s p pbs in Hlow. fold blocks in Hlow.
    exists n. split; [exact Hn |]. split; [lia |].
    intros Hend. split; [lia |].
    replace ((p - 1) * pbs - (pbs - onePast) - ((s - 1) * pbs + ssi))
      with (blocks - (pbs - onePast) - ssi) by (unfold blocks; ring).
    lia.
Qed.

(** X10 at a gate from block 2 to block 5 in blocks of 32 samples, and at a
    gate inside block 2 whose gate-end index 255 lies beyond a block of 16
    samples: there the trailing count is negative and the stored count 0
    is below the 239 samples the index functions give. *)
Lemma gate_samples_are_stored_witness :
  (let params := mkProcessingParameters 32 32 0 0 0 in
   let recordStop := StopMarker.mk 10 7 MarkerTag.RecordStop in
   let g := GateMarker.mk (GateStartMarker.mk 2 5)
                          (StopMarker.mk 5 9 MarkerTag.GateStopCst) in
   exists first last trailing n,
     GateStartMarker.GetStartSampleIndex params (GateMarker.GetStartMarker g) = Ok first /\
     StopMarker.GetSuppressedSampleCount params (GateMarker.GetStopMarker g) = Ok trailing /\
     StopMarker.GetStopSampleIndex params (GateMarker.GetStopMarker g) = Ok last /\
     GateMarker.GetStoredSampleCount params recordStop g = Ok n /\
     first = 37 /\ trailing = 23 /\ last = 105 /\ n = 96 /\ 5 + (last - first) <= n) /\
  (let params := mkProcessingParameters 16 16 0 0 0 in
   let g := GateMarker.mk (GateStartMarker.mk 2 0)
                          (StopMarker.mk 2 255 MarkerTag.GateStopCst) in
   exists first last trailing,
     GateStartMarker.GetStartSampleIndex params (GateMarker.GetStartMarker g) = Ok first /\
     StopMarker.GetSuppressedSampleCount params (GateMarker.GetStopMarker g) = Ok trailing /\
     StopMarker.GetStopSampleIndex params (GateMarker.GetStopMarker g) = Ok last /\
     trailing = - 239 /\ 0 + (last - first) = 239).
Proof.
  split.
  - intros params recordStop g.
    destruct (gate_samples_are_stored params recordStop g)
      as (first & last & trailing & H1 & H2 & H3 & H5 & H6 & H7 & _ & Hstored).
    + unfold sane_parameters, typed, Int.is_int32. cbn. lia.
    + unfold GateMarker.valid, GateStartMarker.valid, StopMarker.valid. cbn.
      repeat split; lia.
    + destruct Hstored as (n & H4 & _ & Hfit).
      * unfold StopMarker.valid. cbn. repeat split; lia.
      * cbn. lia.
      * destruct Hfit as (_ & Hfit); [cbn; lia |].
        exists first, last, trailing, n.
        split; [exact H1 |]. split; [exact H2 |]. split; [exact H3 |].
        split; [exact H4 |].
        assert (E5 : first = 37) by (rewrite H5; reflexivity).
        assert (E6 : trailing = 23) by (rewrite H6; reflexivity).
        assert (E7 : last = 105) by (rewrite H7, E6; reflexivity).
        split; [exact E5 |]. split; [exact E6 |]. split; [exact E7 |].
        split; [vm_compute in H4; apply Ok_inj in H4; symmetry; exact H4 |].
        exact Hfit.
  - intros params g.
    destruct (gate_samples_are_stored params StopMarker.default g)
      as (first & last & trailing & H1 & H2 & H3 & _ & H6 & _ & Hsum & _).
    + unfold sane_parameters, typed, Int.is_int32. cbn. lia.
    + unfold GateMarker.valid, GateStartMarker.valid, StopMarker.valid. cbn.
      repeat split; lia.
    + exists first, last, trailing.
      split; [exact H1 |]. split; [exact H2 |]. split; [exact H3 |].
      assert (E6 : trailing = - 239) by (rewrite H6; reflexivity).
      split; [exact E6 |].
      rewrite E6 in Hsum. exact Hsum.
Defined.
End GateSamples.

(** ** Sums of stored samples *)

Section StoredSums.
Import ZeroSuppress.

Lemma sum_app (l1 l2 : list Z) : sum_of (l1 ++ l2) = sum_of l1 + sum_of l2.
Proof.
  induction l1 as [| x l1 IH]; cbn [sum_of app fold_right] in *; [reflexivity |].
  fold (sum_of (l1 ++ l2)). fold (sum_of l1). rewrite IH. ring.
Qed.

Lemma obind_Ok {A B : Type} (a : A) (k : A -> outcome B) : obind (Ok a) k = k a.
Proof. reflexivity. Qed.

(** [std::accumulate] over counts that are defined and not negative adds
    them up, as long as the sum is an [int64_t]. *)
Lemma accumulate_sum {A : Type} (f : A -> outcome Z) (l : list A) :
  forall (counts : list Z) (init : Z),
    Forall2 (fun x n => f x = Ok n /\ 0 <= n) l counts ->
    0 <= init -> init + sum_of counts < 2 ^ 63 ->
    accumulate (fun size x => n <~ f x ;; Int.add64 size n) l init
    = Ok (init + sum_of counts).
Proof.
  induction l as [| x l IH]; intros counts init Hall Hinit Hsum.
  - inversion Hall; subst. cbn [accumulate sum_of fold_right]. f_equal. lia.
  - inversion Hall as [| ? n ? counts' (Hx & Hn) Hrest]; subst.
    cbn [sum_of fold_right] in Hsum. fold (sum_of counts') in Hsum.
    assert (Hnn : 0 <= sum_of counts').
    { clear - Hrest. induction Hrest as [| ? ? ? ? (_ & H) _ IH'];
        cbn [sum_of fold_right]; [lia |]. fold (sum_of l'). lia. }
    cbn [accumulate]. rewrite Hx, obind_Ok.
    unfold Int.add64 at 1. rewrite int64_ok, obind_Ok by lia.
    rewrite (IH counts' (init + n) Hrest) by lia.
    f_equal. cbn [sum_of fold_right]. fold (sum_of counts'). ring.
Qed.

Lemma gate_counts (params : ProcessingParameters) (recordStop : StopMarker.t)
      (gates : list GateMarker.t) :
  sane_parameters params -> StopMarker.valid recordStop ->
  Forall (fun g => GateMarker.valid g /\
                   StopMarker.m_blockIndex (GateMarker.m_stopMarker g)
                   <= StopMarker.m_blockIndex recordStop) gates ->
  exists counts,
    Forall2 (fun g n => GateMarker.GetStoredSampleCount params recordStop g = Ok n /\ 0 <= n)
            gates counts /\
    (storageBlockSamples params | sum_of counts) /\
    sum_of (map (gate_samples params recordStop) gates) <= sum_of counts /\
    sum_of counts <= sum_of (map (gate_samples params recordStop) gates)
                  + Z.of_nat (length gates) * (storageBlockSamples params - 1).
Proof.
  intros Hsane Hr Hall. induction Hall as [| g gates (Hg & Hpr) _ IH].
  - exists []. split; [constructor |]. cbn [sum_of map fold_right length].
    split; [apply Z.divide_0_r | lia].
  - destruct IH as (counts & Hcounts & Hdiv & Hlo & Hhi).
    destruct (gate_stored_count params recordStop g Hsane Hg Hr Hpr)
      as (n & Hn & Hndiv & Hnb).
    pose proof (gate_samples_range params recordStop g Hsane Hg Hr Hpr) as ((Hlow & _) & Hnn).
    exists (n :: counts).
    split; [constructor; [split; [exact Hn | lia] | exact Hcounts] |].
    cbn [sum_of map fold_right length].
    fold (sum_of counts). fold (sum_of (map (gate_samples params recordStop) gates)).
    split; [apply Z.divide_add_r; assumption |].
    rewrite Nat2Z.inj_succ. lia.
Qed.

(** [std::accumulate] returns no value when the count of one element is
    none. *)
Lemma accumulate_stuck {A : Type} (f : A -> outcome Z) (l : list A) (x : A) :
  In x l -> (forall n, f x <> Ok n) ->
  forall init n, accumulate (fun size y => c <~ f y ;; Int.add64 size c) l init <> Ok n.
Proof.
  intros Hin Hx. induction l as [| y l IH]; [contradiction |].
  intros init n. cbn [accumulate].
  destruct Hin as [-> | Hin].
  - destruct (f x) as [c | e | |] eqn:E; cbn [obind]; try discriminate.
    exfalso. apply (Hx c). reflexivity.
  - destruct (f y) as [c | e | |]; cbn [obind]; try discriminate.
    destruct (Int.add64 init c) as [v | e | |]; cbn [obind]; try discriminate.
    apply (IH Hin).
Qed.

(** The count of a gate that stops after the record. *)
Lemma gate_beyond_record (params : ProcessingParameters) (recordStop : StopMarker.t)
      (g : GateMarker.t) :
  StopMarker.GetBlockIndex recordStop < StopMarker.GetBlockIndex (GateMarker.GetStopMarker g) ->
  (forall n, GateMarker.GetStoredSampleCount params recordStop g <> Ok n) /\
  (GateMarker.valid g -> StopMarker.valid recordStop ->
   GateMarker.GetStoredSampleCount params recordStop g
   = Throw (invalid_argument
              (RecordStopBelowGateStop
                 (StopMarker.GetBlockIndex recordStop)
                 (StopMarker.GetBlockIndex (GateMarker.GetStopMarker g))))).
Proof.
  intros Hlate. unfold GateMarker.GetStoredSampleCount. cbv zeta.
  set (p := StopMarker.GetBlockIndex (GateMarker.GetStopMarker g)) in *.
  set (s := GateStartMarker.GetBlockIndex (GateMarker.GetStartMarker g)).
  set (r := StopMarker.GetBlockIndex recordStop) in *.
  assert (Hneg : (r - p <? 0) = true) by (apply Z.ltb_lt; lia).
  split.
  - intros n. unfold Int.sub64, Int.int64.
    destruct (Int.in_int64 (p - s)); cbn [obind]; [| discriminate].
    destruct (Int.in_int64 (r - p)); cbn [obind]; [| discriminate].
    rewrite Hneg. discriminate.
  - intros ((Hs & _) & (Hp & _) & _) (Hr & _).
    unfold GateMarker.GetStartMarker, GateMarker.GetStopMarker,
      GateStartMarker.GetBlockIndex, StopMarker.GetBlockIndex in p, s, r.
    fold s in Hs. fold p in Hp. fold r in Hr.
    unfold Int.sub64.
    rewrite (int64_ok (p - s)) by lia. cbn [obind].
    rewrite (int64_ok (r - p)) by lia. cbn [obind].
    rewrite Hneg. reflexivity.
Qed.

(** X11.  [RecordDescriptor::GetStoredSampleCount] adds up the counts of
    the gates of the record.  With parameters of type [int32_t] that have a
    positive storage block size, a processing block size that is not
    negative and [0 <= preGateSamples + postGateSamples < 2^31], and a
    record of valid markers whose gates all stop no later than its record
    stop marker, it returns a multiple of the storage block size that is at
    least the samples of the gates and at most [storageBlockSamples - 1]
    per gate above them, as long as that bound is below 2^63; for such a
    record without gates it returns 0.  With any parameters, when a gate of
    the record stops at a later block than the record stop marker, the
    call returns no value; and when the markers of the record are valid,
    the count of that gate throws [std::invalid_argument]. *)
Theorem record_stored_samples (params : ProcessingParameters) (r : RecordDescriptor.t) :
  let gates := Z.of_nat (length (RecordDescriptor.GetGateList r)) in
  (sane_parameters params -> gates_within r ->
   record_samples params r + gates * (storageBlockSamples params - 1) < 2 ^ 63 ->
   exists n,
     RecordDescriptor.GetStoredSampleCount params r = Ok n /\
     (storageBlockSamples params | n) /\
     record_samples params r <= n
     <= record_samples params r + gates * (storageBlockSamples params - 1) /\
     (RecordDescriptor.GetGateList r = [] -> n = 0)) /\
  (forall g, In g (RecordDescriptor.GetGateList r) ->
     StopMarker.GetBlockIndex (RecordDescriptor.GetRecordStopMarker r)
     < StopMarker.GetBlockIndex (GateMarker.GetStopMarker g) ->
     (forall n, RecordDescriptor.GetStoredSampleCount params r <> Ok n) /\
     (valid_record r ->
      GateMarker.GetStoredSampleCount params (RecordDescriptor.GetRecordStopMarker r) g
      = Throw (invalid_argument
                 (RecordStopBelowGateStop
                    (StopMarker.GetBlockIndex (RecordDescriptor.GetRecordStopMarker r))
                    (StopMarker.GetBlockIndex (GateMarker.GetStopMarker g)))))).
Proof.
  intros gates. split.
  - intros Hsane (Hr & Hall) Hfit. unfold RecordDescriptor.GetGateList in *.
    destruct (gate_counts params (RecordDescriptor.m_recordStop r)
                          (RecordDescriptor.m_gateList r) Hsane Hr Hall)
      as (counts & Hcounts & Hdiv & Hlo & Hhi).
    fold (record_samples params r) in Hlo, Hhi. fold gates in Hhi.
    exists (sum_of counts).
    split; [| split; [exact Hdiv | split; [lia |]]].
    + unfold RecordDescriptor.GetStoredSampleCount.
      rewrite (accumulate_sum _ _ counts 0 Hcounts) by lia. f_equal.
    + intros Hnil. rewrite Hnil in Hcounts. inversion Hcounts. reflexivity.
  - intros g Hin Hlate.
    unfold RecordDescriptor.GetGateList in Hin.
    unfold RecordDescriptor.GetRecordStopMarker in *.
    destruct (gate_beyond_record params (RecordDescriptor.m_recordStop r) g Hlate)
      as (Hnone & Hthrows).
    split.
    + intros n. unfold RecordDescriptor.GetStoredSampleCount.
      apply (accumulate_stuck _ _ g Hin Hnone).
    + intros (Hgates & Hstop). apply Hthrows; [| exact Hstop].
      rewrite Forall_forall in Hgates. apply Hgates. exact Hin.
Qed.

(** X11 at a record of two gates in blocks of 32 samples, and at the record
    the decoder queues when the record stop marker (block 3) comes after a
    gate that stops at block 5. *)
Lemma record_stored_samples_witness :
  (let params := mkProcessingParameters 32 32 0 0 0 in
   let stop := StopMarker.mk 10 7 MarkerTag.RecordStop in
   let r := RecordDescriptor.mk TriggerMarker.default
              [GateMarker.mk (GateStartMarker.mk 2 5)
                             (StopMarker.mk 5 9 MarkerTag.GateStopCst);
               GateMarker.mk (GateStartMarker.mk 6 0) stop]
              stop in
   exists n, RecordDescriptor.GetStoredSampleCount params r = Ok n /\ (32 | n) /\
             224 <= n <= 224 + 2 * 31) /\
  (let params := mkProcessingParameters 32 32 0 0 0 in
   let w := MarkerStreamDecoder.DecodeNextMarker
              (fst Sample.after_first_gate, ArraySegment.mk [0x0300000a; 0] 0 2) in
   fst w = Ok tt /\
   forall r, In r (MarkerStreamDecoder.m_recordQueue (fst (snd w))) ->
             forall n, RecordDescriptor.GetStoredSampleCount params r <> Ok n).
Proof.
  split.
  - intros params stop r.
    destruct (record_stored_samples params r) as (Hreturns & _).
    destruct Hreturns as (n & Hn & Hdiv & Hb & _).
    + unfold sane_parameters, typed, Int.is_int32. cbn. lia.
    + unfold gates_within, GateMarker.valid, GateStartMarker.valid, StopMarker.valid. cbn.
      split; [lia |]. repeat constructor; cbn; lia.
    + vm_compute. reflexivity.
    + exists n. split; [exact Hn |]. split; [exact Hdiv | exact Hb].
  - intros params w. split; [vm_compute; reflexivity |].
    intros r Hin.
    assert (Hr : r = RecordDescriptor.mk
                       (RecordDescriptor.m_trigger
                          (MarkerStreamDecoder.m_currentRecord (fst Sample.after_first_gate)))
                       [GateMarker.mk (GateStartMarker.mk 2 0)
                                      (StopMarker.mk 5 0 MarkerTag.GateStopCst)]
                       (StopMarker.mk 3 0 MarkerTag.RecordStop)).
    { vm_compute in Hin. destruct Hin as [Hin | []]. symmetry. exact Hin. }
    destruct (record_stored_samples params r) as (_ & Hlate).
    destruct (Hlate (GateMarker.mk (GateStartMarker.mk 2 0)
                                   (StopMarker.mk 5 0 MarkerTag.GateStopCst)))
      as (Hnone & _).
    + rewrite Hr. left. reflexivity.
    + rewrite Hr. cbn. lia.
    + exact Hnone.
Defined.

Lemma sum_nonneg (l : list Z) : Forall (fun x => 0 <= x) l -> 0 <= sum_of l.
Proof.
  induction 1 as [| x l Hx _ IH]; cbn [sum_of fold_right]; [lia |]. fold (sum_of l). lia.
Qed.

Lemma record_samples_nonneg (params : ProcessingParameters) (r : RecordDescriptor.t) :
  sane_parameters params -> gates_within r -> 0 <= record_samples params r.
Proof.
  intros Hsane (Hr & Hall). unfold record_samples. apply sum_nonneg.
  apply Forall_map. revert Hall. apply Forall_impl.
  intros g (Hg & Hpr).
  pose proof (gate_samples_range params _ g Hsane Hg Hr Hpr) as ((Hlow & _) & Hnn). lia.
Qed.

Lemma gate_count_nonneg (records : list RecordDescriptor.t) : 0 <= gate_count records.
Proof.
  unfold gate_count. apply sum_nonneg. apply Forall_map. apply Forall_forall.
  intros r _. lia.
Qed.

Lemma record_counts (params : ProcessingParameters) (records : list RecordDescriptor.t) :
  sane_parameters params -> Forall gates_within records ->
  sum_of (map (record_samples params) records)
  + gate_count records * (storageBlockSamples params - 1) < 2 ^ 63 ->
  exists counts,
    Forall2 (fun r n => RecordDescriptor.GetStoredSampleCount params r = Ok n /\ 0 <= n)
            records counts /\
    (storageBlockSamples params | sum_of counts) /\
    sum_of (map (record_samples params) records) <= sum_of counts /\
    sum_of counts <= sum_of (map (record_samples params) records)
                  + gate_count records * (storageBlockSamples params - 1).
Proof.
  intros Hsane Hall. pose proof Hsane as (_ & Hsbs & _).
  induction Hall as [| r records Hr Hrest IH]; intros Hfit.
  - exists []. split; [constructor |]. unfold gate_count. cbn [sum_of map fold_right].
    split; [apply Z.divide_0_r | lia].
  - pose proof (gate_count_nonneg records) as HrestGates.
    assert (Hrest0 : 0 <= sum_of (map (record_samples params) records)).
    { apply sum_nonneg. apply Forall_map.
      revert Hrest. apply Forall_impl.
      intros r' Hr'. apply record_samples_nonneg; assumption. }
    pose proof (record_samples_nonneg params r Hsane Hr) as Hr0.
    unfold gate_count in *. cbn [sum_of map fold_right] in *.
    fold (sum_of (map (record_samples params) records)) in *.
    fold (sum_of (map (fun r => Z.of_nat (length (RecordDescriptor.m_gateList r))) records)) in *.
    set (rest := sum_of (map (record_samples params) records)) in *.
    set (restGates :=
           sum_of (map (fun r => Z.of_nat (length (RecordDescriptor.m_gateList r))) records)) in *.
    pose proof Hr as (Hstop & Hgates).
    destruct (gate_counts params _ _ Hsane Hstop Hgates) as (cs & Hcs & Hcsdiv & Hlo1 & Hhi1).
    fold (record_samples params r) in Hlo1, Hhi1.
    assert (Hmul1 : 0 <= Z.of_nat (length (RecordDescriptor.m_gateList r))
                         * (storageBlockSamples params - 1))
      by (apply Z.mul_nonneg_nonneg; lia).
    assert (Hmul2 : 0 <= restGates * (storageBlockSamples params - 1))
      by (apply Z.mul_nonneg_nonneg; lia).
    destruct IH as (counts & Hcounts & Hdiv & Hlo & Hhi); [lia |].
    assert (Hn : RecordDescriptor.GetStoredSampleCount params r = Ok (sum_of cs)).
    { unfold RecordDescriptor.GetStoredSampleCount.
      rewrite (accumulate_sum _ _ cs 0 Hcs) by lia. f_equal. }
    exists (sum_of cs :: counts).
    split; [constructor; [split; [exact Hn | lia] | exact Hcounts] |].
    cbn [sum_of fold_right]. fold (sum_of counts).
    split; [apply Z.divide_add_r; assumption |]. lia.
Qed.

(** X12.  [GetStoredSampleCountForRecords] adds up what
    [RecordDescriptor::GetStoredSampleCount] returns for the records of the
    list.  With parameters of type [int32_t] that have a positive storage
    block size, a processing block size that is not negative and
    [0 <= preGateSamples + postGateSamples < 2^31], and records of valid
    markers whose gates all stop no later than the record stop marker of
    their record, every record has a count that is not negative and the
    call returns their sum: a multiple of the storage block size, at least
    the samples of all gates and at most [storageBlockSamples - 1] per
    gate above them, as long as that bound is below 2^63.  With any
    parameters, when a gate of a record of the list stops at a later block
    than the record stop marker of that record, the call returns no
    value. *)
Theorem records_stored_samples
        (params : ProcessingParameters) (records : list RecordDescriptor.t) :
  (sane_parameters params -> Forall gates_within records ->
   sum_of (map (record_samples params) records)
   + gate_count records * (storageBlockSamples params - 1) < 2 ^ 63 ->
   exists counts n,
     Forall2 (fun r c => RecordDescriptor.GetStoredSampleCount params r = Ok c /\ 0 <= c)
             records counts /\
     GetStoredSampleCountForRecords records params = Ok n /\
     n = sum_of counts /\
     (storageBlockSamples params | n) /\
     sum_of (map (record_samples params) records) <= n
     <= sum_of (map (record_samples params) records)
        + gate_count records * (storageBlockSamples params - 1)) /\
  (forall r g, In r records -> In g (RecordDescriptor.GetGateList r) ->
     StopMarker.GetBlockIndex (RecordDescriptor.GetRecordStopMarker r)
     < StopMarker.GetBlockIndex (GateMarker.GetStopMarker g) ->
     forall n, GetStoredSampleCountForRecords records params <> Ok n).
Proof.
  split.
  - intros Hsane Hall Hfit.
    destruct (record_counts params records Hsane Hall Hfit)
      as (counts & Hcounts & Hdiv & Hlo & Hhi).
    exists counts, (sum_of counts).
    split; [exact Hcounts |]. split; [| split; [reflexivity | split; [exact Hdiv | lia]]].
    unfold GetStoredSampleCountForRecords.
    rewrite (accumulate_sum _ _ counts 0 Hcounts) by lia. f_equal.
  - intros r g Hr Hg Hlate n.
    unfold RecordDescriptor.GetGateList in Hg.
    unfold RecordDescriptor.GetRecordStopMarker in Hlate.
    unfold GetStoredSampleCountForRecords.
    apply (accumulate_stuck _ _ r Hr).
    intros c. unfold RecordDescriptor.GetStoredSampleCount.
    apply (accumulate_stuck _ _ g Hg).
    apply (gate_beyond_record params (RecordDescriptor.m_recordStop r) g Hlate).
Qed.

(** X12 at three records, one of them without gates, and at a list that
    holds the record the decoder queues when the record stop marker
    (block 3) comes after a gate that stops at block 5. *)
Lemma records_stored_samples_witness :
  (let params := mkProcessingParameters 32 32 0 0 0 in
   let stop := StopMarker.mk 10 7 MarkerTag.RecordStop in
   let r := RecordDescriptor.mk TriggerMarker.default
              [GateMarker.mk (GateStartMarker.mk 2 5)
                             (StopMarker.mk 5 9 MarkerTag.GateStopCst);
               GateMarker.mk (GateStartMarker.mk 6 0) stop]
              stop in
   exists n, GetStoredSampleCountForRecords [r; RecordDescriptor.default; r] params = Ok n /\
             (32 | n) /\ 448 <= n <= 448 + 4 * 31) /\
  (let params := mkProcessingParameters 32 32 0 0 0 in
   let w := MarkerStreamDecoder.DecodeNextMarker
              (fst Sample.after_first_gate, ArraySegment.mk [0x0300000a; 0] 0 2) in
   fst w = Ok tt /\
   forall n, GetStoredSampleCountForRecords
               (RecordDescriptor.default :: MarkerStreamDecoder.m_recordQueue (fst (snd w)))
               params <> Ok n).
Proof.
  split.
  - intros params stop r.
    destruct (records_stored_samples params [r; RecordDescriptor.default; r])
      as (Hreturns & _).
    destruct Hreturns as (counts & n & _ & Hn & _ & Hdiv & Hb).
    + unfold sane_parameters, typed, Int.is_int32. cbn. lia.
    + assert (Hr : gates_within r).
      { unfold gates_within, GateMarker.valid, GateStartMarker.valid, StopMarker.valid. cbn.
        split; [lia |]. repeat constructor; cbn; lia. }
      constructor; [exact Hr |]. constructor; [| constructor; [exact Hr | constructor]].
      unfold gates_within, StopMarker.valid. cbn. split; [lia | constructor].
    + vm_compute. reflexivity.
    + exists n. split; [exact Hn |]. split; [exact Hdiv | exact Hb].
  - intros params w. split; [vm_compute; reflexivity |].
    destruct (records_stored_samples
                params
                (RecordDescriptor.default :: MarkerStreamDecoder.m_recordQueue (fst (snd w))))
      as (_ & Hlate).
    apply (Hlate (RecordDescriptor.mk
                    (RecordDescriptor.m_trigger
                       (MarkerStreamDecoder.m_currentRecord (fst Sample.after_first_gate)))
                    [GateMarker.mk (GateStartMarker.mk 2 0)
                                   (StopMarker.mk 5 0 MarkerTag.GateStopCst)]
                    (StopMarker.mk 3 0 MarkerTag.RecordStop))
                 (GateMarker.mk (GateStartMarker.mk 2 0)
                                (StopMarker.mk 5 0 MarkerTag.GateStopCst))).
    + right. vm_compute. left. reflexivity.
    + left. reflexivity.
    + cbn. lia.
Defined.
End StoredSums.

(** ** A record stop on its own *)

Section RecordStopAlone.
Import ZeroSuppress ZeroSuppress.MarkerStreamDecoder.

Lemma DecodeStopMarker_throws (s : MarkerStream) (e0 e1 : Z) (rest : list Z) (e : exn) :
  ArraySegment.wf s -> ArraySegment.elements s = e0 :: e1 :: rest ->
  StopMarker.make e0 e1 = Throw e ->
  DecodeStopMarker s = (Throw e, s).
Proof.
  intros Hwf Hel Hm. destruct (two_elements s e0 e1 rest Hwf Hel) as (H0 & H1 & Hsz).
  unfold DecodeStopMarker.
  rewrite (bind_Ok _ _ s s e0 H0), (bind_Ok _ _ s s e1 H1).
  apply bind_Throw. unfold pure_call. rewrite Hm. reflexivity.
Qed.

(** X13.  A record stop on its own.  In state ExpectGate, a marker tagged
    RecordStop that the constructor of [StopMarker] accepts completes the
    record without adding a gate: the record in progress gets the marker
    as its stop marker and is queued, the state becomes ExpectAlign and
    two elements are consumed.  When the constructor throws, the call
    throws the same exception and leaves decoder and stream as they
    were. *)
Theorem ExpectGate_record_stop (d : t) (s : MarkerStream) (e0 e1 : Z) (rest : list Z) :
  m_mode d = ZeroSuppress ->
  m_state d = ExpectGate ->
  ArraySegment.wf s ->
  ArraySegment.elements s = e0 :: e1 :: rest ->
  e0 mod 2 ^ 8 = MarkerTag.RecordStop ->
  (forall stop, StopMarker.make e0 e1 = Ok stop ->
     let current := m_currentRecord d in
     let record := RecordDescriptor.mk (RecordDescriptor.m_trigger current)
                                       (RecordDescriptor.m_gateList current) stop in
     DecodeNextMarker (d, s)
     = (Ok tt, (mk (m_recordQueue d ++ [record]) record ZeroSuppress ExpectAlign,
                advance 2 s)) /\
     StopMarker.IsRecordStop stop = true /\
     ArraySegment.elements (advance 2 s) = rest) /\
  (forall e, StopMarker.make e0 e1 = Throw e ->
     DecodeNextMarker (d, s) = (Throw e, (d, s))).
Proof.
  intros Hmode Hst Hwf Hel Htag.
  pose proof (Size_elements s Hwf) as Hsz. rewrite Hel in Hsz. cbn [length] in Hsz.
  assert (Hhead : DecodeNextMarker (d, s)
                  = (isRecordStop <-
                       (stop <- on_stream DecodeStopMarker ;;
                        on_current (RecordDescriptor.SetRecordStopMarker stop) ;;
                        ret (StopMarker.IsRecordStop stop)) ;;
                     if (isRecordStop : bool)
                     then current <- gets (fun w => m_currentRecord (fst w)) ;;
                          push_back current ;;
                          set_state ExpectAlign
                     else ret tt) (d, s)).
  { unfold DecodeNextMarker. cbn [fst snd].
    replace (ArraySegment.Size s =? 0) with false by (symmetry; apply Z.eqb_neq; lia).
    rewrite Hmode. unfold DecodeNextMarkerZeroSuppressMode.
    rewrite (bind_Ok _ _ (d, s) (d, s) (m_state d)) by reflexivity.
    rewrite Hst.
    rewrite (bind_Ok _ _ (d, s) (d, s) e0)
      by (apply on_stream_run, read_in_window; [exact Hwf | lia | rewrite Hel; reflexivity]).
    rewrite ExtractTag_low_byte, Htag. reflexivity. }
  rewrite Hhead. split.
  - intros stop Hstop current record.
    pose proof (StopMarker_make_tag e0 e1 stop Hstop) as Hstoptag. rewrite Htag in Hstoptag.
    assert (Hrs : StopMarker.IsRecordStop stop = true)
      by (apply IsRecordStop_tag; exact Hstoptag).
    split; [| split; [exact Hrs |]].
    + rewrite (bind_Ok _ _ (d, s)
                 (mk (m_recordQueue d) record (m_mode d) (m_state d), advance 2 s) true).
      * unfold bind, gets, push_back, set_state, modify.
        cbn [fst snd m_recordQueue m_currentRecord m_mode m_state].
        rewrite Hmode. reflexivity.
      * rewrite (bind_Ok _ _ (d, s) (d, advance 2 s) stop)
          by (apply on_stream_run, (DecodeStopMarker_ok s e0 e1 rest); assumption).
        unfold bind, on_current, RecordDescriptor.SetRecordStopMarker, ret, modify.
        cbn [fst snd]. rewrite Hrs. cbn [negb]. reflexivity.
    + rewrite advance_elements by (try exact Hwf; lia). rewrite Hel. reflexivity.
  - intros e Hthrow. apply bind_Throw. apply bind_Throw. apply on_stream_run.
    apply (DecodeStopMarker_throws s e0 e1 rest); assumption.
Qed.

Lemma ExpectGate_record_stop_witness :
  let words := ArraySegment.mk [0x0a00000a; 0x11000000] 0 2 in
  let record := RecordDescriptor.mk
                  (RecordDescriptor.m_trigger (m_currentRecord (fst Sample.after_trigger)))
                  [] (StopMarker.mk 10 17 MarkerTag.RecordStop) in
  DecodeNextMarker (fst Sample.after_trigger, words)
  = (Ok tt, (mk [record] record ZeroSuppress ExpectAlign, advance 2 words)).
Proof.
  intros words record.
  destruct (ExpectGate_record_stop (fst Sample.after_trigger) words
              0x0a00000a 0x11000000 [])
    as (Hok & _);
    [reflexivity | reflexivity | unfold ArraySegment.wf; cbn; lia
     | reflexivity | reflexivity |].
  destruct (Hok (StopMarker.mk 10 17 MarkerTag.RecordStop)) as (Hrun & _);
    [reflexivity | exact Hrun].
Defined.
End RecordStopAlone.

(** ** Markers cut short *)

Section CutShort.
Import ZeroSuppress ZeroSuppress.MarkerStreamDecoder.

Lemma DecodeTriggerMarker_short (s : MarkerStream) :
  ArraySegment.Size s < 16 ->
  snd (DecodeTriggerMarker s) = s /\ forall m, fst (DecodeTriggerMarker s) <> Ok m.
Proof.
  intros Hshort. unfold DecodeTriggerMarker, bind, ArraySegment.read, throw.
  destruct (ArraySegment.subscript s 0) as [e0 | | |]; try (split; [reflexivity | discriminate]).
  destruct (negb _); [split; [reflexivity | discriminate] |].
  destruct (ArraySegment.subscript s 1) as [e1 | | |]; try (split; [reflexivity | discriminate]).
  destruct (ArraySegment.subscript s 2) as [e2 | | |]; try (split; [reflexivity | discriminate]).
  rewrite PopFront_throw by exact Hshort. split; [reflexivity | discriminate].
Qed.

Lemma DecodeStopMarker_short (s : MarkerStream) :
  ArraySegment.Size s < 2 ->
  snd (DecodeStopMarker s) = s /\ forall m, fst (DecodeStopMarker s) <> Ok m.
Proof.
  intros Hshort. unfold DecodeStopMarker, bind, ArraySegment.read, pure_call.
  destruct (ArraySegment.subscript s 0) as [e0 | | |]; try (split; [reflexivity | discriminate]).
  destruct (ArraySegment.subscript s 1) as [e1 | | |]; try (split; [reflexivity | discriminate]).
  destruct (StopMarker.make e0 e1) as [m | | |]; try (split; [reflexivity | discriminate]).
  rewrite PopFront_throw by exact Hshort. split; [reflexivity | discriminate].
Qed.

(** A call that does not return ends the calls that wait for it. *)
Lemma bind_not_Ok {St A B : Type} (m : M St A) (k : A -> M St B) (s s' : St)
      (o : outcome A) :
  m s = (o, s') -> (forall a, o <> Ok a) ->
  exists o', bind m k s = (o', s') /\ forall b, o' <> Ok b.
Proof.
  intros Hm Hno. unfold bind. rewrite Hm.
  destruct o as [a | e | |].
  - exfalso. apply (Hno a). reflexivity.
  - exists (Throw e). split; [reflexivity | discriminate].
  - exists Undefined. split; [reflexivity | discriminate].
  - exists OutOfFuel. split; [reflexivity | discriminate].
Qed.

Lemma DecodeGateMarker_cut (s : MarkerStream) (a0 a1 : Z) (start : GateStartMarker.t) :
  ArraySegment.wf s -> ArraySegment.elements s = [a0; a1] ->
  GateStartMarker.make a0 a1 = Ok start ->
  exists o, DecodeGateMarker s = (o, advance 2 s) /\ forall g, o <> Ok g.
Proof.
  intros Hwf Hel Hstart.
  pose proof (Size_elements s Hwf) as Hsz. rewrite Hel in Hsz. cbn [length] in Hsz.
  pose proof (DecodeGateStartMarker_ok s a0 a1 [] start Hwf Hel Hstart) as Hdec.
  unfold DecodeGateMarker. rewrite (bind_Ok _ _ s (advance 2 s) start Hdec).
  destruct (DecodeStopMarker_short (advance 2 s)) as (Hsnd & Hfst);
    [rewrite advance_Size; lia |].
  apply bind_not_Ok with (o := fst (DecodeStopMarker (advance 2 s))); [| exact Hfst].
  rewrite <- Hsnd at 3. destruct (DecodeStopMarker (advance 2 s)); reflexivity.
Qed.

(** X14.  Markers cut short.  In normal mode a stream of fewer than 16
    elements is never decoded: the call does not return, and leaves the
    decoder and the stream as they were.  In state ExpectGate a stream that
    ends after a gate-start marker loses that marker: the call does not
    return, the decoder is as it was and the stream is empty. *)
Theorem cut_short_markers (d : t) (s : MarkerStream) :
  ArraySegment.wf s ->
  (m_mode d = Normal -> 0 < ArraySegment.Size s < 16 ->
   exists o, DecodeNextMarker (d, s) = (o, (d, s)) /\ forall u, o <> Ok u) /\
  (forall a0 a1 start,
     m_mode d = ZeroSuppress -> m_state d = ExpectGate ->
     ArraySegment.elements s = [a0; a1] ->
     GateStartMarker.make a0 a1 = Ok start ->
     ArraySegment.Size (advance 2 s) = 0 /\
     exists o, DecodeNextMarker (d, s) = (o, (d, advance 2 s)) /\ forall u, o <> Ok u).
Proof.
  intros Hwf. split.
  - intros Hmode Hsz. unfold DecodeNextMarker. cbn [fst snd].
    replace (ArraySegment.Size s =? 0) with false by (symmetry; apply Z.eqb_neq; lia).
    rewrite Hmode. unfold DecodeNextMarkerNormalMode.
    destruct (DecodeTriggerMarker_short s ltac:(lia)) as (Hsnd & Hfst).
    apply bind_not_Ok with (o := fst (DecodeTriggerMarker s)); [| exact Hfst].
    apply on_stream_run.
    rewrite <- Hsnd at 3. destruct (DecodeTriggerMarker s); reflexivity.
  - intros a0 a1 start Hmode Hst Hel Hstart.
    pose proof (Size_elements s Hwf) as Hsz. rewrite Hel in Hsz. cbn [length] in Hsz.
    pose proof (GateStartMarker_make_tag a0 a1 start Hstart) as Htag.
    split; [rewrite advance_Size; lia |].
    unfold DecodeNextMarker. cbn [fst snd].
    replace (ArraySegment.Size s =? 0) with false by (symmetry; apply Z.eqb_neq; lia).
    rewrite Hmode. unfold DecodeNextMarkerZeroSuppressMode.
    rewrite (bind_Ok _ _ (d, s) (d, s) (m_state d)) by reflexivity.
    rewrite Hst.
    rewrite (bind_Ok _ _ (d, s) (d, s) a0)
      by (apply on_stream_run, read_in_window; [exact Hwf | lia | rewrite Hel; reflexivity]).
    rewrite ExtractTag_low_byte, Htag.
    cbn [Z.eqb MarkerTag.GateStartCst Pos.eqb].
    destruct (DecodeGateMarker_cut s a0 a1 start Hwf Hel Hstart) as (o & Hdec & Hno).
    destruct (bind_not_Ok (on_stream DecodeGateMarker)
                (fun gate =>
                   on_current (RecordDescriptor.AddGate gate) ;;
                   (if StopMarker.IsRecordStop (GateMarker.GetStopMarker gate)
                    then on_current (RecordDescriptor.SetRecordStopMarker
                                       (GateMarker.GetStopMarker gate)) ;;
                         ret true
                    else ret false))
                (d, s) (d, advance 2 s) o (on_stream_run _ d s _ o Hdec) Hno)
      as (o1 & Hrun1 & Hno1).
    apply bind_not_Ok with (o := o1); assumption.
Qed.

Lemma cut_short_markers_witness :
  snd (DecodeNextMarker (Sample.decoder Normal, ArraySegment.mk (Sample.trigger 1 0) 0 15))
  = (Sample.decoder Normal, ArraySegment.mk (Sample.trigger 1 0) 0 15) /\
  snd (DecodeNextMarker (fst Sample.after_trigger, ArraySegment.mk [0x02000004; 0] 0 2))
  = (fst Sample.after_trigger, advance 2 (ArraySegment.mk [0x02000004; 0] 0 2)).
Proof.
  split.
  - destruct (cut_short_markers (Sample.decoder Normal)
                (ArraySegment.mk (Sample.trigger 1 0) 0 15)) as (H & _).
    + unfold ArraySegment.wf. cbn. lia.
    + destruct H as (o & Hrun & _); [reflexivity | cbn; lia |].
      exact (f_equal snd Hrun).
  - destruct (cut_short_markers (fst Sample.after_trigger)
                (ArraySegment.mk [0x02000004; 0] 0 2)) as (_ & H).
    + unfold ArraySegment.wf. cbn. lia.
    + destruct (H 0x02000004 0 (GateStartMarker.mk 2 0)) as (_ & o & Hrun & _);
        [reflexivity | reflexivity | reflexivity | reflexivity |].
      exact (f_equal snd Hrun).
Defined.
End CutShort.

(** ** Taking twice *)

Section TakeTwice.
Import ZeroSuppress ZeroSuppress.MarkerStreamDecoder.

Lemma Take_available (d : t) (n : Z) :
  0 < n <= GetAvailableRecordCount d -> n < 2 ^ 64 ->
  Take n d = (Ok (firstn (Z.to_nat n) (m_recordQueue d)),
              with_queue (skipn (Z.to_nat n) (m_recordQueue d)) d).
Proof.
  intros Hn Hsize. unfold Take.
  replace (n <=? 0) with false by (symmetry; apply Z.leb_gt; lia).
  rewrite to_size_t_id by (unfold Int.is_size_t; lia).
  replace (GetAvailableRecordCount d <? n) with false by (symmetry; apply Z.ltb_ge; lia).
  unfold GetAvailableRecordCount in Hn.
  rewrite Take_loop_spec by lia. reflexivity.
Qed.

Lemma firstn_plus {A : Type} (n m : nat) (l : list A) :
  firstn (n + m) l = firstn n l ++ firstn m (skipn n l).
Proof.
  revert l. induction n as [| n IH]; intros l; [reflexivity |].
  destruct l as [| x l]; cbn [Nat.add firstn skipn app].
  - rewrite firstn_nil. reflexivity.
  - rewrite IH. reflexivity.
Qed.

(** X15.  Taking [n] records and then [m] is taking [n + m] at once: the
    two lists, one after the other, are the list of the single call, the
    decoder is left the same, and the queue before is the records taken
    followed by the records left. *)
Theorem Take_twice (d : t) (n m : Z) :
  0 < n -> 0 < m -> n + m <= GetAvailableRecordCount d -> Int.is_int32 (n + m) ->
  exists first second d1 d2,
    Take n d = (Ok first, d1) /\
    Take m d1 = (Ok second, d2) /\
    Take (n + m) d = (Ok (first ++ second), d2) /\
    GetAvailableRecordCount d1 = GetAvailableRecordCount d - n /\
    GetAvailableRecordCount d2 = GetAvailableRecordCount d - (n + m) /\
    m_recordQueue d = first ++ second ++ m_recordQueue d2.
Proof.
  intros Hn Hm Hfit Hint. unfold Int.is_int32 in Hint.
  set (q := m_recordQueue d).
  assert (Hlen : n + m <= Z.of_nat (length q)) by exact Hfit.
  exists (firstn (Z.to_nat n) q), (firstn (Z.to_nat m) (skipn (Z.to_nat n) q)),
    (with_queue (skipn (Z.to_nat n) q) d),
    (with_queue (skipn (Z.to_nat (n + m)) q) d).
  assert (Havail1 : GetAvailableRecordCount (with_queue (skipn (Z.to_nat n) q) d)
                    = GetAvailableRecordCount d - n).
  { unfold GetAvailableRecordCount, with_queue. cbn [m_recordQueue]. fold q.
    rewrite length_skipn. lia. }
  split; [apply Take_available; unfold GetAvailableRecordCount; fold q; lia |].
  split; [| split; [| split; [exact Havail1 | split]]].
  - rewrite Take_available by (rewrite ?Havail1; unfold GetAvailableRecordCount; fold q; lia).
    unfold with_queue. cbn [m_recordQueue m_currentRecord m_mode m_state].
    rewrite skipn_skipn. replace (Z.to_nat m + Z.to_nat n)%nat with (Z.to_nat (n + m)) by lia.
    reflexivity.
  - rewrite Take_available by (unfold GetAvailableRecordCount; fold q; lia). fold q.
    replace (Z.to_nat (n + m)) with (Z.to_nat n + Z.to_nat m)%nat by lia.
    rewrite firstn_plus. reflexivity.
  - unfold GetAvailableRecordCount, with_queue. cbn [m_recordQueue]. fold q.
    rewrite length_skipn. lia.
  - unfold with_queue. cbn [m_recordQueue].
    rewrite app_assoc.
    replace (Z.to_nat (n + m)) with (Z.to_nat n + Z.to_nat m)%nat by lia.
    rewrite <- firstn_plus. symmetry. apply firstn_skipn.
Qed.

Lemma Take_twice_witness :
  let r0 := marker_record (Sample.trigger 1 0) in
  let r1 := marker_record (Sample.trigger 1 1) in
  let r2 := marker_record (Sample.trigger 1 2) in
  let d := with_queue [r0; r1; r2] (Sample.decoder Normal) in
  exists first second d1 d2,
    Take 2 d = (Ok first, d1) /\ Take 1 d1 = (Ok second, d2) /\
    Take (2 + 1) d = (Ok (first ++ second), d2).
Proof.
  intros r0 r1 r2 d.
  destruct (Take_twice d 2 1) as (first & second & d1 & d2 & H1 & H2 & H3 & _).
  - lia.
  - lia.
  - unfold GetAvailableRecordCount. cbn. lia.
  - unfold Int.is_int32. lia.
  - exists first, second, d1, d2. split; [exact H1 |]. split; [exact H2 | exact H3].
Defined.
End TakeTwice.

(** ** What every call keeps *)

Section Kept.
Import ZeroSuppress ZeroSuppress.MarkerStreamDecoder.

Variable R : RecordDescriptor.t -> Prop.
Hypothesis R_default : R RecordDescriptor.default.
Hypothesis R_trigger :
  forall tr r, R r -> R (RecordDescriptor.mk tr (RecordDescriptor.m_gateList r)
                                             (RecordDescriptor.m_recordStop r)).
Hypothesis R_gate :
  forall g r, GateMarker.valid g ->
    R r -> R (RecordDescriptor.mk (RecordDescriptor.m_trigger r)
                                  (RecordDescriptor.m_gateList r ++ [g])
                                  (RecordDescriptor.m_recordStop r)).
Hypothesis R_stop :
  forall stop r, StopMarker.valid stop ->
    R r -> R (RecordDescriptor.mk (RecordDescriptor.m_trigger r)
                                  (RecordDescriptor.m_gateList r) stop).

Variable S : MarkerStream -> Prop.
Hypothesis S_pop :
  forall n, 0 <= n -> hoare S (ArraySegment.PopFront n) (fun _ => S) S.

Variable d0 : t.

Lemma S_DecodeTriggerMarker : hoare S DecodeTriggerMarker (fun _ => S) S.
Proof.
  intros s Hs. unfold DecodeTriggerMarker, bind, ArraySegment.read, throw, ret.
  destruct (ArraySegment.subscript s 0) as [e0 | | |]; try exact Hs.
  destruct (negb _); [exact Hs |].
  destruct (ArraySegment.subscript s 1) as [e1 | | |]; try exact Hs.
  destruct (ArraySegment.subscript s 2) as [e2 | | |]; try exact Hs.
  pose proof (S_pop 16 ltac:(lia) s Hs) as Hpop.
  destruct (ArraySegment.PopFront 16 s) as [[[] | | |] s']; exact Hpop.
Qed.

Lemma S_WalkthroughDummyMarker : hoare S WalkthroughDummyMarker (fun _ => S) S.
Proof.
  intros s Hs. unfold WalkthroughDummyMarker, bind, ArraySegment.read, throw.
  destruct (ArraySegment.subscript s 0) as [e0 | | |]; try exact Hs.
  destruct (negb _); [exact Hs |].
  apply (S_pop 2 ltac:(lia) s Hs).
Qed.

Lemma S_walkthrough (fuel : nat) :
  hoare S (walkthrough_dummy_markers fuel) (fun _ => S) S.
Proof.
  induction fuel as [| fuel IH]; intros s Hs; cbn [walkthrough_dummy_markers];
    destruct (ArraySegment.Size s =? 0); try exact Hs.
  unfold bind, ArraySegment.read, ret.
  destruct (ArraySegment.subscript s 0) as [e0 | | |]; try exact Hs.
  destruct (negb _); [exact Hs |].
  pose proof (S_WalkthroughDummyMarker s Hs) as Hw.
  destruct (WalkthroughDummyMarker s) as [[[] | | |] s1]; try exact Hw.
  apply (IH s1 Hw).
Qed.

Lemma S_DecodeGateStartMarker :
  hoare S DecodeGateStartMarker (fun m s => S s /\ GateStartMarker.valid m) S.
Proof.
  intros s Hs. unfold DecodeGateStartMarker, bind, ArraySegment.read, pure_call, ret.
  destruct (ArraySegment.subscript s 0) as [e0 | | |]; try exact Hs.
  destruct (ArraySegment.subscript s 1) as [e1 | | |]; try exact Hs.
  destruct (GateStartMarker.make e0 e1) as [m | | |] eqn:Hm; try exact Hs.
  pose proof (S_pop 2 ltac:(lia) s Hs) as Hpop.
  destruct (ArraySegment.PopFront 2 s) as [[[] | | |] s']; try exact Hpop.
  split; [exact Hpop | apply (GateStartMarker_make_valid e0 e1 m Hm)].
Qed.

Lemma S_DecodeStopMarker :
  hoare S DecodeStopMarker (fun m s => S s /\ StopMarker.valid m) S.
Proof.
  intros s Hs. unfold DecodeStopMarker, bind, ArraySegment.read, pure_call, ret.
  destruct (ArraySegment.subscript s 0) as [e0 | | |]; try exact Hs.
  destruct (ArraySegment.subscript s 1) as [e1 | | |]; try exact Hs.
  destruct (StopMarker.make e0 e1) as [m | | |] eqn:Hm; try exact Hs.
  pose proof (S_pop 2 ltac:(lia) s Hs) as Hpop.
  destruct (ArraySegment.PopFront 2 s) as [[[] | | |] s']; try exact Hpop.
  split; [exact Hpop | apply (StopMarker_make_valid e0 e1 m Hm)].
Qed.

Lemma S_DecodeGateMarker :
  hoare S DecodeGateMarker (fun g s => S s /\ GateMarker.valid g) S.
Proof.
  intros s Hs. unfold DecodeGateMarker, bind, pure_call.
  pose proof (S_DecodeGateStartMarker s Hs) as Hstart.
  destruct (DecodeGateStartMarker s) as [[start | | |] s1]; try exact Hstart.
  destruct Hstart as (Hs1 & Hvstart).
  pose proof (S_DecodeStopMarker s1 Hs1) as Hstop.
  destruct (DecodeStopMarker s1) as [[stop | | |] s2]; try exact Hstop.
  destruct Hstop as (Hs2 & Hvstop).
  destruct (GateMarker.make start stop) as [g | | |] eqn:Hg; try exact Hs2.
  split; [exact Hs2 | apply (GateMarker_make_valid start stop g Hvstart Hvstop Hg)].
Qed.

(** A stream function inside the decoder. *)
Lemma kept_on_stream {A : Type} (m : M MarkerStream A) (V : A -> Prop) :
  hoare S m (fun a s => S s /\ V a) S ->
  hoare (kept R S d0) (on_stream m) (fun a w => kept R S d0 w /\ V a) (kept R S d0).
Proof.
  intros Hm [d s] (Hmode & Hq & HR & Hc & Hs). unfold on_stream. cbn [fst snd] in *.
  specialize (Hm s Hs).
  destruct (m s) as [[a | e | |] s']; unfold kept; cbn [fst snd]; try tauto.
Qed.

Lemma kept_on_stream_same {A : Type} (m : M MarkerStream A) :
  hoare S m (fun _ => S) S ->
  hoare (kept R S d0) (on_stream m) (fun _ => kept R S d0) (kept R S d0).
Proof.
  intros Hm [d s] (Hmode & Hq & HR & Hc & Hs). unfold on_stream. cbn [fst snd] in *.
  specialize (Hm s Hs).
  destruct (m s) as [[a | e | |] s']; unfold kept; cbn [fst snd]; tauto.
Qed.

Lemma kept_read (i : Z) :
  hoare (kept R S d0) (on_stream (ArraySegment.read i)) (fun _ => kept R S d0) (kept R S d0).
Proof.
  apply kept_on_stream_same. intros s Hs. unfold ArraySegment.read.
  destruct (ArraySegment.subscript s i); exact Hs.
Qed.

Lemma kept_set_current_default :
  hoare (kept R S d0) (set_current RecordDescriptor.default)
        (fun _ => kept R S d0) (kept R S d0).
Proof.
  intros [d s] (Hmode & Hq & HR & Hc & Hs). unfold kept. cbn [fst snd set_current modify].
  cbn [m_mode m_recordQueue m_currentRecord]. tauto.
Qed.

Lemma kept_set_state (st : State) :
  hoare (kept R S d0) (set_state st) (fun _ => kept R S d0) (kept R S d0).
Proof. intros [d s] H. exact H. Qed.

Lemma kept_SetTriggerMarker (trigger : TriggerMarker.t) :
  hoare (kept R S d0) (on_current (RecordDescriptor.SetTriggerMarker trigger))
        (fun _ => kept R S d0) (kept R S d0).
Proof.
  intros [d s] (Hmode & Hq & HR & Hc & Hs). unfold kept.
  cbn [fst snd on_current RecordDescriptor.SetTriggerMarker modify
       m_mode m_recordQueue m_currentRecord].
  split; [exact Hmode |]. split; [exact Hq |]. split; [exact HR |].
  split; [apply R_trigger; exact Hc | exact Hs].
Qed.

Lemma kept_AddGate (gate : GateMarker.t) :
  GateMarker.valid gate ->
  hoare (kept R S d0) (on_current (RecordDescriptor.AddGate gate))
        (fun _ => kept R S d0) (kept R S d0).
Proof.
  intros Hg [d s] (Hmode & Hq & HR & Hc & Hs). unfold kept.
  cbn [fst snd on_current RecordDescriptor.AddGate modify
       m_mode m_recordQueue m_currentRecord].
  split; [exact Hmode |]. split; [exact Hq |]. split; [exact HR |].
  split; [apply R_gate; assumption | exact Hs].
Qed.

Lemma kept_SetRecordStopMarker (stop : StopMarker.t) :
  StopMarker.valid stop ->
  hoare (kept R S d0) (on_current (RecordDescriptor.SetRecordStopMarker stop))
        (fun _ => kept R S d0) (kept R S d0).
Proof.
  intros Hstop [d s] (Hmode & Hq & HR & Hc & Hs). unfold on_current. cbn [fst snd].
  destruct (SetRecordStopMarker_spec stop (m_currentRecord d)) as (Hyes & Hno).
  destruct (StopMarker.IsRecordStop stop) eqn:E.
  - rewrite (Hyes eq_refl). unfold kept. cbn [fst snd m_mode m_recordQueue m_currentRecord].
    split; [exact Hmode |]. split; [exact Hq |]. split; [exact HR |].
    split; [apply R_stop; assumption | exact Hs].
  - rewrite (Hno eq_refl). unfold kept. cbn [fst snd m_mode m_recordQueue m_currentRecord].
    tauto.
Qed.

Lemma kept_push_back (r : RecordDescriptor.t) :
  R r -> hoare (kept R S d0) (push_back r) (fun _ => kept R S d0) (kept R S d0).
Proof.
  intros Hr [d s] (Hmode & (l & Hq) & HR & Hc & Hs). unfold kept.
  cbn [fst snd push_back modify m_mode m_recordQueue m_currentRecord] in *.
  split; [exact Hmode |]. split; [| split; [| split; [exact Hc | exact Hs]]].
  - exists (l ++ [r]). rewrite Hq, app_assoc. reflexivity.
  - apply Forall_app. split; [exact HR | constructor; [exact Hr | constructor]].
Qed.

Lemma kept_Normal :
  hoare (kept R S d0) DecodeNextMarkerNormalMode (fun _ => kept R S d0) (kept R S d0).
Proof.
  unfold DecodeNextMarkerNormalMode.
  eapply hoare_bind; [apply kept_on_stream_same, S_DecodeTriggerMarker |].
  intros trigger. cbn beta.
  cbn [RecordDescriptor.SetTriggerMarker modify RecordDescriptor.default].
  apply kept_push_back.
  apply (R_trigger trigger RecordDescriptor.default R_default).
Qed.

Lemma kept_ZeroSuppress :
  hoare (kept R S d0) DecodeNextMarkerZeroSuppressMode (fun _ => kept R S d0) (kept R S d0).
Proof.
  unfold DecodeNextMarkerZeroSuppressMode.
  eapply hoare_bind; [apply hoare_gets_same |].
  intros state.
  assert (Hfirst : hoare (kept R S d0)
    (size <- gets (fun w => ArraySegment.Size (snd w)) ;;
     exit <- on_stream (walkthrough_dummy_markers (Z.to_nat size)) ;;
     match exit with
     | Returned => ret tt
     | Broke =>
       set_current RecordDescriptor.default ;;
       trigger <- on_stream DecodeTriggerMarker ;;
       on_current (RecordDescriptor.SetTriggerMarker trigger) ;;
       set_state ExpectGate
     end) (fun _ => kept R S d0) (kept R S d0)).
  { eapply hoare_bind; [apply hoare_gets_same |]. intros size.
    eapply hoare_bind; [apply kept_on_stream_same, S_walkthrough |].
    intros [|].
    - apply hoare_ret.
    - eapply hoare_bind; [apply kept_set_current_default |]. intros ?; cbn beta.
      eapply hoare_bind; [apply kept_on_stream_same, S_DecodeTriggerMarker |].
      intros trigger.
      eapply hoare_bind; [apply kept_SetTriggerMarker |]. intros ?; cbn beta.
      apply kept_set_state. }
  destruct state; [exact Hfirst | | exact Hfirst].
  eapply hoare_bind; [apply kept_read |].
  intros e0. apply hoare_bind with (Q := fun _ => kept R S d0).
  - destruct (ExtractTag e0 =? MarkerTag.GateStartCst).
    + eapply hoare_bind; [apply (kept_on_stream _ _ S_DecodeGateMarker) |].
      intros gate. cbn beta.
      intros w (Hw & Hgate). revert w Hw.
      change (hoare (kept R S d0)
                (on_current (RecordDescriptor.AddGate gate) ;;
                 (if StopMarker.IsRecordStop (GateMarker.GetStopMarker gate)
                  then on_current (RecordDescriptor.SetRecordStopMarker
                                     (GateMarker.GetStopMarker gate)) ;;
                       ret true
                  else ret false))
                (fun _ => kept R S d0) (kept R S d0)).
      eapply hoare_bind; [apply kept_AddGate; exact Hgate |]. intros ?; cbn beta.
      destruct (StopMarker.IsRecordStop (GateMarker.GetStopMarker gate)).
      * eapply hoare_bind; [apply kept_SetRecordStopMarker; apply Hgate |].
        intros ?; cbn beta. apply hoare_ret.
      * apply hoare_ret.
    + destruct (ExtractTag e0 =? MarkerTag.RecordStop).
      * eapply hoare_bind; [apply (kept_on_stream _ _ S_DecodeStopMarker) |].
        intros stop. cbn beta.
        intros w (Hw & Hstop). revert w Hw.
        change (hoare (kept R S d0)
                  (on_current (RecordDescriptor.SetRecordStopMarker stop) ;;
                   ret (StopMarker.IsRecordStop stop))
                  (fun _ => kept R S d0) (kept R S d0)).
        eapply hoare_bind; [apply kept_SetRecordStopMarker; exact Hstop |].
        intros ?; cbn beta. apply hoare_ret.
      * apply hoare_throw.
  - intros [|].
    + eapply hoare_bind; [apply hoare_gets |]. intros current.
      apply hoare_bind with (Q := fun _ => kept R S d0).
      * intros w (Hw & ->). apply (kept_push_back (m_currentRecord (fst w))).
        -- apply Hw.
        -- exact Hw.
      * intros ?; cbn beta. apply kept_set_state.
    + apply hoare_ret.
Qed.

Lemma DecodeNextMarker_kept (w w' : world) (o : outcome unit) :
  kept R S d0 w -> DecodeNextMarker w = (o, w') -> kept R S d0 w'.
Proof.
  intros Hw Hrun. unfold DecodeNextMarker in Hrun.
  destruct (ArraySegment.Size (snd w) =? 0).
  - injection Hrun as _ <-. exact Hw.
  - destruct (m_mode (fst w)).
    + pose proof (kept_Normal w Hw) as H. rewrite Hrun in H. destruct o; exact H.
    + pose proof (kept_ZeroSuppress w Hw) as H. rewrite Hrun in H. destruct o; exact H.
Qed.

Lemma decode_fetched_kept (fuel : nat) :
  forall (w w' : world) (o : outcome unit),
    kept R S d0 w -> decode_fetched fuel w = (o, w') -> kept R S d0 w'.
Proof.
  induction fuel as [| fuel IH]; intros w w' o Hw Hrun; cbn [decode_fetched] in Hrun;
    destruct (0 <? ArraySegment.Size (snd w)).
  - injection Hrun as _ <-. exact Hw.
  - injection Hrun as _ <-. exact Hw.
  - unfold bind in Hrun.
    destruct (DecodeNextMarker w) as [[[] | e | |] w1] eqn:Hstep;
      pose proof (DecodeNextMarker_kept w w1 _ Hw Hstep) as Hw1.
    + apply (IH w1 w' o Hw1 Hrun).
    + injection Hrun as _ <-. exact Hw1.
    + injection Hrun as _ <-. exact Hw1.
    + injection Hrun as _ <-. exact Hw1.
  - injection Hrun as _ <-. exact Hw.
Qed.
End Kept.

(** ** The frame of a call *)

Section Frame.
Import ZeroSuppress ZeroSuppress.MarkerStreamDecoder.

Lemma moved_refl (s : MarkerStream) : ArraySegment.wf s -> moved s s.
Proof.
  intros (_ & Hsize & _). exists 0. unfold ArraySegment.Size.
  split; [lia | rewrite advance_0; reflexivity].
Qed.

Lemma moved_wf (s0 s : MarkerStream) : ArraySegment.wf s0 -> moved s0 s -> ArraySegment.wf s.
Proof. intros Hwf (k & Hk & ->). apply advance_wf; assumption. Qed.

Lemma moved_PopFront (s0 : MarkerStream) (n : Z) :
  ArraySegment.wf s0 -> 0 <= n ->
  hoare (moved s0) (ArraySegment.PopFront n) (fun _ => moved s0) (moved s0).
Proof.
  intros Hwf Hn s Hs. pose proof Hs as (k & Hk & ->).
  destruct (Z_lt_le_dec (ArraySegment.Size (advance k s0)) n) as [Hshort | Hfit].
  - rewrite PopFront_throw by exact Hshort. exact Hs.
  - rewrite PopFront_advance by (try apply advance_wf; try assumption; lia).
    rewrite advance_advance. rewrite advance_Size in Hfit.
    exists (k + n). split; [lia | reflexivity].
Qed.

Lemma anything_PopFront (n : Z) :
  0 <= n ->
  hoare (fun _ : MarkerStream => True) (ArraySegment.PopFront n)
        (fun _ _ => True) (fun _ => True).
Proof. intros _ s _. destruct (ArraySegment.PopFront n s) as [[[] | | |] s']; exact I. Qed.

Lemma Forall_True {A : Type} (l : list A) : Forall (fun _ => True) l.
Proof. apply Forall_forall. intros; exact I. Qed.

(** The frame, from any decoder and any well-formed stream. *)
Lemma frame_start (d : t) (s : MarkerStream) :
  ArraySegment.wf s -> kept (fun _ => True) (moved s) d (d, s).
Proof.
  intros Hwf. unfold kept. cbn [fst snd].
  split; [reflexivity |]. split; [exists []; rewrite app_nil_r; reflexivity |].
  split; [apply Forall_True |]. split; [exact I | apply moved_refl; exact Hwf].
Qed.

(** X16.  What a call of [DecodeNextMarker] leaves, however it ends, on a
    well-formed stream: the mode is unchanged; the records that were
    queued are still queued, first and in their order; the stream is the
    same vector with its window moved forward by at most its size, so it
    is well formed again; and when the call returned, the window has
    moved. *)
Theorem DecodeNextMarker_frame (d d' : t) (s s' : MarkerStream) (o : outcome unit) :
  ArraySegment.wf s ->
  DecodeNextMarker (d, s) = (o, (d', s')) ->
  m_mode d' = m_mode d /\
  (exists l, m_recordQueue d' = m_recordQueue d ++ l) /\
  (exists k, 0 <= k <= ArraySegment.Size s /\ s' = advance k s /\ (o = Ok tt -> 0 < k)) /\
  ArraySegment.wf s' /\
  ArraySegment.m_data s' = ArraySegment.m_data s.
Proof.
  intros Hwf Hrun.
  assert (Hkept : kept (fun _ => True) (moved s) d (d', s')).
  { apply (DecodeNextMarker_kept (fun _ => True) I (fun _ _ _ => I) (fun _ _ _ _ => I)
             (fun _ _ _ _ => I) (moved s) (fun n => moved_PopFront s n Hwf) d
             (d, s) (d', s') o (frame_start d s Hwf) Hrun). }
  destruct Hkept as (Hmode & Hq & _ & _ & Hmoved). cbn [fst snd] in *.
  split; [exact Hmode |]. split; [exact Hq |].
  pose proof (moved_wf s s' Hwf Hmoved) as Hwf'.
  destruct Hmoved as (k & Hk & ->).
  split; [| split; [exact Hwf' | reflexivity]].
  exists k. split; [exact Hk |]. split; [reflexivity |].
  intros ->.
  assert (Hsized : stream_sized (ArraySegment.Size s) (d, s)).
  { destruct Hwf as (Ho & Hsz & Hfit & Hlen).
    split; [reflexivity |]. unfold Int.is_size_t, ArraySegment.Size. lia. }
  pose proof (DecodeNextMarker_total (ArraySegment.Size s) (d, s) Hsized) as Htot.
  rewrite Hrun in Htot. destruct Htot as (n' & (Hn' & _) & Hlt).
  cbn [snd] in Hn'. rewrite advance_Size in Hn'. lia.
Qed.

Lemma DecodeNextMarker_frame_witness :
  let w := DecodeNextMarker Sample.start in
  m_mode (fst (snd w)) = m_mode (fst Sample.start) /\
  (exists l, m_recordQueue (fst (snd w)) = m_recordQueue (fst Sample.start) ++ l) /\
  (exists k, 0 <= k <= ArraySegment.Size (snd Sample.start) /\
             snd (snd w) = advance k (snd Sample.start) /\ (fst w = Ok tt -> 0 < k)) /\
  ArraySegment.wf (snd (snd w)) /\
  ArraySegment.m_data (snd (snd w)) = ArraySegment.m_data (snd Sample.start).
Proof.
  intros w.
  apply (DecodeNextMarker_frame (fst Sample.start) (fst (snd w))
           (snd Sample.start) (snd (snd w)) (fst w)).
  - unfold ArraySegment.wf. cbn. lia.
  - reflexivity.
Defined.

(** X17.  The loop of the example over the fetched elements ends
    within as many turns as the stream has elements.  When it returns, the
    stream is empty; however it ends, the mode is unchanged, the records
    that were queued are still queued, first and in their order, and the
    stream is the same vector with its window moved forward inside the
    window it had. *)
Theorem DecodeFetchedElements_frame (d d' : t) (s s' : MarkerStream) (o : outcome unit) :
  ArraySegment.wf s ->
  DecodeFetchedElements (d, s) = (o, (d', s')) ->
  o <> OutOfFuel /\
  (o = Ok tt -> s' = advance (ArraySegment.Size s) s /\ ArraySegment.Size s' = 0) /\
  m_mode d' = m_mode d /\
  (exists l, m_recordQueue d' = m_recordQueue d ++ l) /\
  (exists k, 0 <= k <= ArraySegment.Size s /\ s' = advance k s) /\
  ArraySegment.wf s'.
Proof.
  intros Hwf Hrun.
  assert (Hkept : kept (fun _ => True) (moved s) d (d', s')).
  { unfold DecodeFetchedElements in Hrun.
    apply (decode_fetched_kept (fun _ => True) I (fun _ _ _ => I) (fun _ _ _ _ => I)
             (fun _ _ _ _ => I) (moved s) (fun n => moved_PopFront s n Hwf) d _
             (d, s) (d', s') o (frame_start d s Hwf) Hrun). }
  destruct Hkept as (Hmode & Hq & _ & _ & Hmoved). cbn [fst snd] in *.
  assert (Hsized : stream_sized (ArraySegment.Size s) (d, s)).
  { destruct Hwf as (Ho & Hsz & Hfit & Hlen).
    split; [reflexivity |]. unfold Int.is_size_t, ArraySegment.Size. lia. }
  pose proof (DecodeFetchedElements_total (ArraySegment.Size s) (d, s) Hsized) as Htot.
  rewrite Hrun in Htot.
  pose proof (moved_wf s s' Hwf Hmoved) as Hwf'.
  split; [intros ->; exact Htot |].
  split; [| split; [exact Hmode | split; [exact Hq | split; [exact Hmoved | exact Hwf']]]].
  intros ->. destruct Htot as (Hzero & _). cbn [snd] in Hzero.
  destruct Hmoved as (k & Hk & ->). rewrite advance_Size in Hzero.
  replace k with (ArraySegment.Size s) by lia.
  split; [reflexivity | rewrite advance_Size; lia].
Qed.

Lemma DecodeFetchedElements_frame_witness :
  let w := DecodeFetchedElements Sample.start in
  fst w <> OutOfFuel /\
  (fst w = Ok tt ->
   snd (snd w) = advance (ArraySegment.Size (snd Sample.start)) (snd Sample.start) /\
   ArraySegment.Size (snd (snd w)) = 0) /\
  m_mode (fst (snd w)) = m_mode (fst Sample.start) /\
  (exists l, m_recordQueue (fst (snd w)) = m_recordQueue (fst Sample.start) ++ l) /\
  (exists k, 0 <= k <= ArraySegment.Size (snd Sample.start) /\
             snd (snd w) = advance k (snd Sample.start)) /\
  ArraySegment.wf (snd (snd w)).
Proof.
  intros w.
  apply (DecodeFetchedElements_frame (fst Sample.start) (fst (snd w))
           (snd Sample.start) (snd (snd w)) (fst w)).
  - unfold ArraySegment.wf. cbn. lia.
  - reflexivity.
Defined.
End Frame.

(** ** Valid markers in every record *)

Section ValidRecords.
Import ZeroSuppress ZeroSuppress.MarkerStreamDecoder.

Variable R : RecordDescriptor.t -> Prop.


Lemma Pop_all (d d' : t) (o : outcome RecordDescriptor.t) :
  all_records R d -> Pop d = (o, d') ->
  all_records R d' /\ (forall r, o = Ok r -> R r).
Proof.
  intros (Hq & Hc) Hpop. unfold Pop in Hpop.
  destruct (m_recordQueue d) as [| front rest] eqn:E.
  - injection Hpop as <- <-. split; [| discriminate].
    split; [rewrite E; constructor | exact Hc].
  - injection Hpop as <- <-. inversion Hq as [| ? ? Hfront Hrest]; subst.
    split; [split; [exact Hrest | exact Hc] |].
    intros r Hr. apply Ok_inj in Hr. subst r. exact Hfront.
Qed.

Lemma Take_loop_all (n : nat) :
  forall (result : list RecordDescriptor.t) (d d' : t)
         (o : outcome (list RecordDescriptor.t)),
    all_records R d -> Forall R result ->
    Take_loop n result d = (o, d') ->
    all_records R d' /\ (forall rs, o = Ok rs -> Forall R rs).
Proof.
  induction n as [| n IH]; intros result d d' o Hinv Hres Hrun.
  - cbn [Take_loop] in Hrun. unfold ret in Hrun. injection Hrun as <- <-.
    split; [exact Hinv |]. intros rs Hrs. apply Ok_inj in Hrs. subst rs. exact Hres.
  - cbn [Take_loop] in Hrun. unfold bind in Hrun.
    destruct (Pop d) as [[r | e | |] d1] eqn:Hpop;
      destruct (Pop_all d d1 _ Hinv Hpop) as (Hinv1 & Hr).
    + apply (IH (result ++ [r]) d1 d' o Hinv1); [| exact Hrun].
      apply Forall_app. split; [exact Hres |].
      constructor; [apply Hr; reflexivity | constructor].
    + injection Hrun as <- <-. split; [exact Hinv1 | discriminate].
    + injection Hrun as <- <-. split; [exact Hinv1 | discriminate].
    + injection Hrun as <- <-. split; [exact Hinv1 | discriminate].
Qed.

Lemma Take_all (count : Z) (d d' : t) (o : outcome (list RecordDescriptor.t)) :
  all_records R d -> Take count d = (o, d') ->
  all_records R d' /\ (forall rs, o = Ok rs -> Forall R rs).
Proof.
  intros Hinv Hrun. unfold Take in Hrun.
  destruct (count <=? 0).
  - injection Hrun as <- <-. split; [exact Hinv | discriminate].
  - destruct (_ <? _).
    + injection Hrun as <- <-. split; [exact Hinv | discriminate].
    + apply (Take_loop_all (Z.to_nat count) [] d d' o Hinv); [constructor | exact Hrun].
Qed.
End ValidRecords.

Section ValidGates.
Import ZeroSuppress ZeroSuppress.MarkerStreamDecoder.

Lemma valid_default : valid_record RecordDescriptor.default.
Proof.
  split; [constructor |]. unfold StopMarker.valid. cbn. lia.
Qed.

Lemma DecodeNextMarker_valid (d d' : t) (s s' : MarkerStream) (o : outcome unit) :
  all_records valid_record d ->
  DecodeNextMarker (d, s) = (o, (d', s')) ->
  all_records valid_record d'.
Proof.
  intros (Hq & Hc) Hrun.
  assert (Hkept : kept valid_record (fun _ => True) d (d', s')).
  { apply (DecodeNextMarker_kept valid_record valid_default) with (w := (d, s)) (o := o);
      try exact Hrun.
    - intros tr r Hr. exact Hr.
    - intros g r Hg (Hgates & Hstop). split; [| exact Hstop].
      cbn [RecordDescriptor.m_gateList]. apply Forall_app.
      split; [exact Hgates | constructor; [exact Hg | constructor]].
    - intros stop r Hstop (Hgates & _). split; [exact Hgates | exact Hstop].
    - apply anything_PopFront.
    - unfold kept. cbn [fst snd]. split; [reflexivity |].
      split; [exists []; rewrite app_nil_r; reflexivity |]. tauto. }
  destruct Hkept as (_ & _ & Hq' & Hc' & _). split; assumption.
Qed.

Lemma reachable_valid (d : t) : reachable d -> all_records valid_record d.
Proof.
  induction 1 as [mode | d s o d' s' _ IH Hrun | d o d' _ IH Hrun | d count o d' _ IH Hrun].
  - split; [constructor | apply valid_default].
  - apply (DecodeNextMarker_valid d d' s s' o IH Hrun).
  - apply (Pop_all valid_record d d' o IH Hrun).
  - apply (Take_all valid_record count d d' o IH Hrun).
Qed.

(** X18.  Every record a decoder holds or hands out has valid markers:
    each of its gates starts at a block index of at least 1 and stops at
    a block index that is not smaller and below 2^32, and the block index
    of its stop marker is in the same range.  This holds for every decoder
    a program can reach, whatever the streams were and however the calls
    ended. *)
Theorem delivered_gates_are_valid :
  (forall d, reachable d -> Forall valid_record (m_recordQueue d)) /\
  (forall d r d', reachable d -> Pop d = (Ok r, d') -> valid_record r) /\
  (forall d count records d', reachable d ->
     Take count d = (Ok records, d') -> Forall valid_record records) /\
  (forall r g, valid_record r -> In g (RecordDescriptor.GetGateList r) ->
     1 <= GateStartMarker.GetBlockIndex (GateMarker.GetStartMarker g)
     <= StopMarker.GetBlockIndex (GateMarker.GetStopMarker g) /\
     StopMarker.GetBlockIndex (GateMarker.GetStopMarker g) < 2 ^ 32 /\
     1 <= StopMarker.GetBlockIndex (RecordDescriptor.GetRecordStopMarker r) < 2 ^ 32).
Proof.
  split; [| split; [| split]].
  - intros d Hd. apply (reachable_valid d Hd).
  - intros d r d' Hd Hpop.
    destruct (Pop_all valid_record d d' _ (reachable_valid d Hd) Hpop) as (_ & Hr).
    apply Hr. reflexivity.
  - intros d count records d' Hd Htake.
    destruct (Take_all valid_record count d d' _ (reachable_valid d Hd) Htake) as (_ & Hr).
    apply Hr. reflexivity.
  - intros r g (Hgates & Hstop) Hin.
    unfold RecordDescriptor.GetGateList in Hin.
    rewrite Forall_forall in Hgates. specialize (Hgates g Hin).
    destruct Hgates as ((Hs & _) & (Hp & _) & Hsp). destruct Hstop as (Hr & _).
    unfold GateStartMarker.GetBlockIndex, StopMarker.GetBlockIndex,
      GateMarker.GetStartMarker, GateMarker.GetStopMarker,
      RecordDescriptor.GetRecordStopMarker.
    lia.
Qed.

Lemma after_second_gate_reachable : reachable (fst Sample.after_second_gate).
Proof.
  apply (reachable_DecodeNextMarker (fst Sample.after_first_gate)
           (snd Sample.after_first_gate) (Ok tt)
           (fst Sample.after_second_gate) (snd Sample.after_second_gate));
    [| vm_compute; reflexivity].
  apply (reachable_DecodeNextMarker (fst Sample.after_trigger)
           (snd Sample.after_trigger) (Ok tt)
           (fst Sample.after_first_gate) (snd Sample.after_first_gate));
    [| vm_compute; reflexivity].
  apply (reachable_DecodeNextMarker (fst Sample.start) (snd Sample.start) (Ok tt)
           (fst Sample.after_trigger) (snd Sample.after_trigger));
    [| vm_compute; reflexivity].
  apply reachable_make.
Qed.

Lemma delivered_gates_are_valid_witness :
  exists r d',
    Pop (fst Sample.after_second_gate) = (Ok r, d') /\
    length (RecordDescriptor.GetGateList r) = 2%nat /\
    valid_record r.
Proof.
  destruct (Pop (fst Sample.after_second_gate)) as [o d'] eqn:Hpop.
  vm_compute in Hpop.
  injection Hpop as Ho Hd. subst o.
  eexists. exists d'. split; [reflexivity |]. split; [reflexivity |].
  destruct delivered_gates_are_valid as (_ & Hpopped & _).
  apply (Hpopped (fst Sample.after_second_gate) _ d' after_second_gate_reachable).
  vm_compute. rewrite Hd. reflexivity.
Defined.
End ValidGates.

(** ** The peak-list markers *)

Section PeakListFacts.
Import PeakList.

Lemma pbind_Returns {A B : Type} (m : P A) (k : A -> P B) (st st' : state) (a : A) :
  m st = (Returns a, st') -> pbind m k st = k a st'.
Proof. intros H. unfold pbind. rewrite H. reflexivity. Qed.

Lemma pbind_Raises {A B : Type} (m : P A) (k : A -> P B) (st st' : state) (r : raised) :
  m st = (Raises r, st') -> pbind m k st = (Raises r, st').
Proof. intros H. unfold pbind. rewrite H. reflexivity. Qed.

Lemma call_Returns {A B : Type} (e : ending A) (k : A -> P B) (st : state) (a : A) :
  e = Returns a -> pbind (call e) k st = k a st.
Proof. intros ->. reflexivity. Qed.

Lemma at_index_window (s : ArraySegment.t) (out : list printed) (i v : Z) :
  ArraySegment.wf s -> 0 <= i ->
  nth_error (ArraySegment.elements s) (Z.to_nat i) = Some v ->
  at_index i (s, out) = (Returns v, (s, out)).
Proof.
  intros Hwf Hi Hnth. pose proof (read_in_window s i v Hwf Hi Hnth) as H.
  unfold ArraySegment.read in H. unfold at_index. cbn [fst].
  injection H as ->. reflexivity.
Qed.


(** On a field that fits in an [int], [ScaleSigned] returns, whether or
    not the field fits in the width it is read at. *)
Lemma ScaleSigned_returns (value nbrIntegerBits nbrFractionBits : Z) :
  0 <= nbrFractionBits <= 30 -> 1 <= nbrIntegerBits + nbrFractionBits <= 30 ->
  0 <= value < 2 ^ 31 ->
  exists q, ScaleSigned value nbrIntegerBits nbrFractionBits = Returns q.
Proof.
  intros Hf Hn Hv. unfold ScaleSigned, ExpandSign32.
  set (n := nbrIntegerBits + nbrFractionBits) in *.
  rewrite !Z.shiftl_1_l.
  assert (Hpf : 0 < 2 ^ nbrFractionBits <= 2 ^ 30)
    by (split; [apply Z.pow_pos_nonneg | apply Z.pow_le_mono_r]; lia).
  assert (Hpn : 0 < 2 ^ n <= 2 ^ 30)
    by (split; [apply Z.pow_pos_nonneg | apply Z.pow_le_mono_r]; lia).
  replace (0 <=? nbrFractionBits) with true by (symmetry; apply Z.leb_le; lia).
  replace (nbrFractionBits <? 32) with true by (symmetry; apply Z.ltb_lt; lia).
  rewrite (in_int32_true (2 ^ nbrFractionBits)) by (unfold Int.is_int32; lia).
  rewrite (in_int32_true n) by (unfold Int.is_int32; lia).
  cbn [andb].
  replace (n <=? 0) with false by (symmetry; apply Z.leb_gt; lia).
  replace (32 <=? n) with false by (symmetry; apply Z.leb_gt; lia).
  cbn [orb].
  destruct (2 ^ (n - 1) <=? value).
  - cbv zeta.
    rewrite (in_int32_true (2 ^ n)) by (unfold Int.is_int32; lia).
    rewrite (in_int32_true (value - 2 ^ n)) by (unfold Int.is_int32; lia).
    cbn [andb]. eexists. reflexivity.
  - eexists. reflexivity.
Qed.

Lemma PrintPulseMarker_decodes
        (s : ArraySegment.t) (out : list printed) (e0 e1 e2 e3 e4 e5 e6 e7 : Z)
        (rest : list Z) :
  ArraySegment.wf s ->
  ArraySegment.elements s = e0 :: e1 :: e2 :: e3 :: e4 :: e5 :: e6 :: e7 :: rest ->
  e0 mod 2 ^ 8 = 0x14 ->
  exists timestamp peakX peakY comX comY,
    PrintPulseMarker (s, out)
    = (Returns tt,
       (s, out ++ [PulseDescriptor ((e0 mod 2 ^ 32) / 2 ^ 8) timestamp
                                   ((e2 mod 2 ^ 31) / 2 ^ 16) (e3 mod 2 ^ 15)
                                   peakX peakY
                                   ((e3 mod 2 ^ 32) / 2 ^ 16 + (e4 mod 2 ^ 32) * 2 ^ 16)
                                   comX comY])) /\
    - 2 ^ 47 <= timestamp < 2 ^ 47 /\
    timestamp mod 2 ^ 48 = e1 mod 2 ^ 32 + (e2 mod 2 ^ 16) * 2 ^ 32 /\
    ScaleSigned (e5 mod 2 ^ 24) 14 8 = Returns peakX /\
    ScaleSigned ((e5 mod 2 ^ 32) / 2 ^ 24 + (e6 mod 2 ^ 16) * 2 ^ 8) 17 3 = Returns peakY /\
    ScaleSigned ((e6 mod 2 ^ 32) / 2 ^ 16 + (e7 mod 2 ^ 8) * 2 ^ 16) 16 8 = Returns comX /\
    ScaleSigned ((e7 mod 2 ^ 32) / 2 ^ 8) 16 1 = Returns comY.
Proof.
  intros Hwf Hel Htag.
  assert (Hread : forall i v, 0 <= i ->
            nth_error (e0 :: e1 :: e2 :: e3 :: e4 :: e5 :: e6 :: e7 :: rest) (Z.to_nat i)
            = Some v ->
            at_index i (s, out) = (Returns v, (s, out))).
  { intros i v Hi Hnth. apply at_index_window; [exact Hwf | exact Hi |].
    rewrite Hel. exact Hnth. }
  (* the fields, in the words of the wire format *)
  set (unsignedTimestamp := e1 mod 2 ^ 32 + (e2 mod 2 ^ 16) * 2 ^ 32).
  set (peakXRaw := e5 mod 2 ^ 24).
  set (peakYRaw := (e5 mod 2 ^ 32) / 2 ^ 24 + (e6 mod 2 ^ 16) * 2 ^ 8).
  set (comXRaw := (e6 mod 2 ^ 32) / 2 ^ 16 + (e7 mod 2 ^ 8) * 2 ^ 16).
  set (comYRaw := (e7 mod 2 ^ 32) / 2 ^ 8).
  pose proof (Z.mod_pos_bound e1 (2 ^ 32) ltac:(lia)) as H1.
  pose proof (Z.mod_pos_bound e2 (2 ^ 16) ltac:(lia)) as H2.
  pose proof (Z.mod_pos_bound e5 (2 ^ 24) ltac:(lia)) as H5.
  pose proof (Z.mod_pos_bound e6 (2 ^ 16) ltac:(lia)) as H6.
  pose proof (Z.mod_pos_bound e7 (2 ^ 8) ltac:(lia)) as H7.
  pose proof (bit_field_range e5 24 8 ltac:(lia) ltac:(lia)) as H5h.
  pose proof (bit_field_range e6 16 16 ltac:(lia) ltac:(lia)) as H6h.
  pose proof (bit_field_range e7 8 24 ltac:(lia) ltac:(lia)) as H7h.
  change (24 + 8) with 32 in H5h. change (16 + 16) with 32 in H6h.
  change (8 + 24) with 32 in H7h.
  assert (Hu : 0 <= unsignedTimestamp < 2 ^ 48) by (unfold unsignedTimestamp; lia).
  pose proof (ExpandSign64_bits 48 unsignedTimestamp ltac:(lia) Hu) as Hts.
  pose proof (signed_of_bits 48 unsignedTimestamp ltac:(lia) Hu) as (Hrange & Hmod).
  cbv zeta in Hrange, Hmod.
  set (timestamp := if 2 ^ (48 - 1) <=? unsignedTimestamp
                    then unsignedTimestamp - 2 ^ 48 else unsignedTimestamp) in *.
  destruct (ScaleSigned_returns peakXRaw 14 8) as (peakX & HpeakX); try lia.
  destruct (ScaleSigned_returns peakYRaw 17 3) as (peakY & HpeakY);
    try (unfold peakYRaw; lia).
  destruct (ScaleSigned_returns comXRaw 16 8) as (comX & HcomX);
    try (unfold comXRaw; lia).
  destruct (ScaleSigned_returns comYRaw 16 1) as (comY & HcomY);
    try (unfold comYRaw; lia).
  exists timestamp, peakX, peakY, comX, comY.
  split; [| split; [exact Hrange | split; [exact Hmod | tauto]]].
  unfold PrintPulseMarker.
  rewrite (pbind_Returns _ _ (s, out) (s, out) e0) by (apply Hread; [lia | reflexivity]).
  cbv beta zeta.
  rewrite low_byte, Htag. cbn [Z.eqb Pos.eqb negb].
  rewrite (pbind_Returns _ _ (s, out) (s, out) e1) by (apply Hread; [lia | reflexivity]).
  rewrite (pbind_Returns _ _ (s, out) (s, out) e2) by (apply Hread; [lia | reflexivity]).
  change 0x00000000ffffffff with (Z.ones 32).
  change 0x000000000000ffff with (Z.ones 16).
  rewrite !Z.land_ones by lia.
  rewrite (join_fields (e1 mod 2 ^ 32) (e2 mod 2 ^ 16) 32) by lia.
  fold unsignedTimestamp.
  rewrite (call_Returns _ _ _ timestamp Hts).
  rewrite (pbind_Returns _ _ (s, out) (s, out) e3) by (apply Hread; [lia | reflexivity]).
  rewrite (pbind_Returns _ _ (s, out) (s, out) e4) by (apply Hread; [lia | reflexivity]).
  rewrite (pbind_Returns _ _ (s, out) (s, out) e5) by (apply Hread; [lia | reflexivity]).
  rewrite (pbind_Returns _ _ (s, out) (s, out) e6) by (apply Hread; [lia | reflexivity]).
  rewrite (pbind_Returns _ _ (s, out) (s, out) e7) by (apply Hread; [lia | reflexivity]).
  change 0x00ffffff with (Z.ones 24).
  change 0x00007fff with (Z.ones 15).
  change 0x000000ff with (Z.ones 8).
  rewrite !bit_field by lia. rewrite !Z.land_ones by lia.
  change (24 + 8) with 32. change (16 + 16) with 32. change (8 + 24) with 32.
  change (16 + 15) with 31.
  rewrite (join_fields ((e5 mod 2 ^ 32) / 2 ^ 24) (e6 mod 2 ^ 16) 8) by lia.
  rewrite (join_fields ((e6 mod 2 ^ 32) / 2 ^ 16) (e7 mod 2 ^ 8) 16) by lia.
  fold peakXRaw peakYRaw comXRaw comYRaw.
  rewrite (call_Returns _ _ _ peakX HpeakX).
  rewrite (call_Returns _ _ _ peakY HpeakY).
  rewrite (call_Returns _ _ _ comX HcomX).
  rewrite (call_Returns _ _ _ comY HcomY).
  unfold print. cbn [fst snd].
  rewrite Z.lor_comm.
  rewrite (join_fields ((e3 mod 2 ^ 32) / 2 ^ 16) (e4 mod 2 ^ 32) 16)
    by (try lia; pose proof (bit_field_range e3 16 16 ltac:(lia) ltac:(lia)) as H3h;
        change (16 + 16) with 32 in H3h; lia).
  unfold Int.to_uint32.
  rewrite (Z.mod_small ((e0 mod 2 ^ 32) / 2 ^ 8))
    by (pose proof (bit_field_range e0 8 24 ltac:(lia) ltac:(lia)) as H0h;
        change (8 + 24) with 32 in H0h; lia).
  reflexivity.
Qed.

Lemma PrintPulseMarker_wrong_tag (s : ArraySegment.t) (out : list printed) (e0 : Z) :
  ArraySegment.subscript s 0 = Ok e0 -> e0 mod 2 ^ 8 <> 0x14 ->
  PrintPulseMarker (s, out) = (Raises (ExpectedPulseMarkerTag (e0 mod 2 ^ 8)), (s, out)).
Proof.
  intros H0 Htag. unfold PrintPulseMarker.
  rewrite (pbind_Returns _ _ (s, out) (s, out) e0)
    by (unfold at_index; cbn [fst]; rewrite H0; reflexivity).
  cbv beta zeta. rewrite low_byte.
  replace (e0 mod 2 ^ 8 =? 20) with false by (symmetry; apply Z.eqb_neq; exact Htag).
  reflexivity.
Qed.

(** X19.  The fields of a pulse marker.  On a marker of eight elements
    tagged 0x14, [PrintPulseMarker] returns, consumes nothing and writes
    one descriptor: the record index is bits 8-31 of element 0; the
    timestamp is the 48-bit two's-complement number with element 1 as its
    low 32 bits and bits 0-15 of element 2 above; the width is bits 16-30
    of element 2; the overrange count is bits 0-14 of element 3; the sum
    of squares is bits 16-31 of element 3 below element 4; and the four
    fixed-point values are [ScaleSigned] of the fields of elements 5 to 7,
    which returns for each of them.  With another tag it throws
    [std::runtime_error] and writes nothing. *)
Theorem PrintPulseMarker_fields
        (s : ArraySegment.t) (out : list printed) (e0 e1 e2 e3 e4 e5 e6 e7 : Z)
        (rest : list Z) :
  ArraySegment.wf s ->
  ArraySegment.elements s = e0 :: e1 :: e2 :: e3 :: e4 :: e5 :: e6 :: e7 :: rest ->
  (e0 mod 2 ^ 8 = 0x14 ->
   exists timestamp peakX peakY comX comY,
     PrintPulseMarker (s, out)
     = (Returns tt,
        (s, out ++ [PulseDescriptor ((e0 mod 2 ^ 32) / 2 ^ 8) timestamp
                                    ((e2 mod 2 ^ 31) / 2 ^ 16) (e3 mod 2 ^ 15)
                                    peakX peakY
                                    ((e3 mod 2 ^ 32) / 2 ^ 16 + (e4 mod 2 ^ 32) * 2 ^ 16)
                                    comX comY])) /\
     - 2 ^ 47 <= timestamp < 2 ^ 47 /\
     timestamp mod 2 ^ 48 = e1 mod 2 ^ 32 + (e2 mod 2 ^ 16) * 2 ^ 32 /\
     ScaleSigned (e5 mod 2 ^ 24) 14 8 = Returns peakX /\
     ScaleSigned ((e5 mod 2 ^ 32) / 2 ^ 24 + (e6 mod 2 ^ 16) * 2 ^ 8) 17 3 = Returns peakY /\
     ScaleSigned ((e6 mod 2 ^ 32) / 2 ^ 16 + (e7 mod 2 ^ 8) * 2 ^ 16) 16 8 = Returns comX /\
     ScaleSigned ((e7 mod 2 ^ 32) / 2 ^ 8) 16 1 = Returns comY) /\
  (e0 mod 2 ^ 8 <> 0x14 ->
   PrintPulseMarker (s, out) = (Raises (ExpectedPulseMarkerTag (e0 mod 2 ^ 8)), (s, out))).
Proof.
  intros Hwf Hel. split.
  - intros Htag. apply (PrintPulseMarker_decodes s out e0 e1 e2 e3 e4 e5 e6 e7 rest);
      assumption.
  - intros Htag. apply PrintPulseMarker_wrong_tag; [| exact Htag].
    pose proof (read_in_window s 0 e0 Hwf ltac:(lia)) as H. rewrite Hel in H.
    specialize (H eq_refl). unfold ArraySegment.read in H. injection H as ->. reflexivity.
Qed.

Lemma PrintPulseMarker_fields_witness :
  let marker := [0x00000714; - 2; 0x0003ffff; 0x00100002; 0x00000001;
                 0x10000180; 0x00200000; 0x00000300] in
  exists timestamp peakX peakY comX comY,
    PrintPulseMarker (ArraySegment.mk marker 0 8, [])
    = (Returns tt,
       (ArraySegment.mk marker 0 8,
        [PulseDescriptor 7 timestamp 3 2 peakX peakY (16 + 2 ^ 16) comX comY])) /\
    timestamp = - 2 /\
    (peakX == 3 # 2)%Q /\ (peakY == 2)%Q /\ (comX == 1 # 8)%Q /\ (comY == 3 # 2)%Q.
Proof.
  intros marker.
  destruct (PrintPulseMarker_fields (ArraySegment.mk marker 0 8) []
              0x00000714 (- 2) 0x0003ffff 0x00100002 0x00000001
              0x10000180 0x00200000 0x00000300 [])
    as (Hok & _);
    [unfold ArraySegment.wf; cbn; lia | reflexivity |].
  destruct (Hok eq_refl)
    as (timestamp & peakX & peakY & comX & comY & Hrun & Hrange & Hmod & HX & HY & HcX & HcY).
  exists timestamp, peakX, peakY, comX, comY.
  split; [exact Hrun |].
  vm_compute in HX, HY, HcX, HcY.
  injection HX as <-. injection HY as <-. injection HcX as <-. injection HcY as <-.
  split; [| repeat split; reflexivity].
  assert (Hrhs : - 2 mod 2 ^ 32 + 0x0003ffff mod 2 ^ 16 * 2 ^ 32 = 2 ^ 48 - 2)
    by reflexivity.
  rewrite Hrhs in Hmod.
  pose proof (Z.div_mod timestamp (2 ^ 48) ltac:(lia)) as Hdm. rewrite Hmod in Hdm. lia.
Defined.

(** The trigger marker of the peak-list stream. *)
Lemma PrintTriggerMarker_tag (e0 : Z) : Z.land (Int.to_uint32 e0) 0xff = e0 mod 2 ^ 8.
Proof.
  rewrite low_byte. unfold Int.to_uint32. apply mod_mod_pow2. lia.
Qed.

Lemma PrintTriggerMarker_ok (s : ArraySegment.t) (out : list printed) (e0 e1 e2 : Z)
      (rest : list Z) :
  ArraySegment.wf s ->
  ArraySegment.elements s = e0 :: e1 :: e2 :: rest ->
  e0 mod 2 ^ 8 = 0x11 ->
  PrintTriggerMarker (s, out)
  = (Returns tt,
     (s, out ++ [TriggerMarkerLine
                   (TriggerMarker.recordIndex (trigger_fields e0 e1 e2))
                   (TriggerMarker.absoluteSampleIndex (trigger_fields e0 e1 e2))
                   (TriggerMarker.triggerTimeSamples (trigger_fields e0 e1 e2))])).
Proof.
  intros Hwf Hel Htag.
  assert (Hread : forall i v, 0 <= i ->
            nth_error (e0 :: e1 :: e2 :: rest) (Z.to_nat i) = Some v ->
            at_index i (s, out) = (Returns v, (s, out))).
  { intros i v Hi Hnth. apply at_index_window; [exact Hwf | exact Hi |].
    rewrite Hel. exact Hnth. }
  unfold PrintTriggerMarker.
  rewrite (pbind_Returns _ _ (s, out) (s, out) e0) by (apply Hread; [lia | reflexivity]).
  cbv beta zeta.
  rewrite PrintTriggerMarker_tag, Htag. cbn [Z.eqb Pos.eqb negb].
  rewrite (pbind_Returns _ _ (s, out) (s, out) e1) by (apply Hread; [lia | reflexivity]).
  rewrite (pbind_Returns _ _ (s, out) (s, out) e2) by (apply Hread; [lia | reflexivity]).
  unfold print, trigger_fields. cbn [fst snd TriggerMarker.recordIndex
    TriggerMarker.absoluteSampleIndex TriggerMarker.triggerTimeSamples].
  rewrite trigger_time_exact, sample_index_exact.
  rewrite bits_8_31 by (unfold Int.to_uint32; apply Z.mod_pos_bound; lia).
  reflexivity.
Qed.

Lemma PrintTriggerMarker_wrong_tag (s : ArraySegment.t) (out : list printed) (e0 : Z) :
  ArraySegment.subscript s 0 = Ok e0 -> e0 mod 2 ^ 8 <> 0x11 ->
  PrintTriggerMarker (s, out) = (Raises (ExpectedTriggerMarkerTag (e0 mod 2 ^ 8)), (s, out)).
Proof.
  intros H0 Htag. unfold PrintTriggerMarker.
  rewrite (pbind_Returns _ _ (s, out) (s, out) e0)
    by (unfold at_index; cbn [fst]; rewrite H0; reflexivity).
  cbv beta zeta. rewrite PrintTriggerMarker_tag.
  replace (e0 mod 2 ^ 8 =? 17) with false by (symmetry; apply Z.eqb_neq; exact Htag).
  reflexivity.
Qed.

(** X20.  The trigger marker of the peak-list stream has the fields of a
    streaming trigger marker at the same places, under the tag 0x11:
    [PrintTriggerMarker] writes the record index, the sample index and the
    trigger time that [DecodeTriggerMarker] would decode, and consumes
    nothing, while [StandardStreaming::DecodeTriggerMarker] itself rejects
    the tag.  With another tag [PrintTriggerMarker] throws
    [std::runtime_error] and writes nothing. *)
Theorem PrintTriggerMarker_line
        (s : ArraySegment.t) (out : list printed) (e0 e1 e2 : Z) (rest : list Z) :
  ArraySegment.wf s ->
  ArraySegment.elements s = e0 :: e1 :: e2 :: rest ->
  (e0 mod 2 ^ 8 = 0x11 ->
   let m := trigger_fields e0 e1 e2 in
   PrintTriggerMarker (s, out)
   = (Returns tt,
      (s, out ++ [TriggerMarkerLine (TriggerMarker.recordIndex m)
                                    (TriggerMarker.absoluteSampleIndex m)
                                    (TriggerMarker.triggerTimeSamples m)])) /\
   StandardStreaming.DecodeTriggerMarker s
   = (Throw (runtime_error (ExpectedTriggerMarker 0x11)), s)) /\
  (e0 mod 2 ^ 8 <> 0x11 ->
   PrintTriggerMarker (s, out)
   = (Raises (ExpectedTriggerMarkerTag (e0 mod 2 ^ 8)), (s, out))).
Proof.
  intros Hwf Hel.
  assert (H0 : ArraySegment.subscript s 0 = Ok e0).
  { pose proof (read_in_window s 0 e0 Hwf ltac:(lia)) as H. rewrite Hel in H.
    specialize (H eq_refl). unfold ArraySegment.read in H. injection H as ->. reflexivity. }
  split.
  - intros Htag m. split.
    + apply (PrintTriggerMarker_ok s out e0 e1 e2 rest); assumption.
    + rewrite DecodeTriggerMarker_same.
      rewrite (DecodeTriggerMarker_wrong_tag s e0 H0) by (rewrite Htag; reflexivity).
      rewrite Htag. reflexivity.
  - intros Htag. apply PrintTriggerMarker_wrong_tag; assumption.
Qed.

Lemma PrintTriggerMarker_line_witness :
  let marker := [0x00000711; 0x1234567f; 0x00000001; 0; 0; 0; 0; 0] in
  PrintTriggerMarker (ArraySegment.mk marker 0 8, [])
  = (Returns tt,
     (ArraySegment.mk marker 0 8, [TriggerMarkerLine 7 (0x123456 + 2 ^ 24) (- 127 # 256)])).
Proof.
  intros marker.
  destruct (PrintTriggerMarker_line (ArraySegment.mk marker 0 8) []
              0x00000711 0x1234567f 0x00000001 [0; 0; 0; 0; 0])
    as (Hok & _);
    [unfold ArraySegment.wf; cbn; lia | reflexivity |].
  destruct (Hok eq_refl) as (Hrun & _). exact Hrun.
Defined.




End PeakListFacts.
